(** * Medicare Advantage data build: the helper functions of [functions.py]

    A shallow embedding of the readers, the monthly loaders and the
    MA / MA-PD merger, together with the pandas and Python primitives they
    call, and the properties of the written specification proved or
    refuted on that embedding.

    Modelling conventions.
    - A table cell is a [cell]: the missing marker [NaN], a string, a
      number or a boolean.  Numbers are kept by their exact value
      ([float64] below): the rounding to binary64 that pandas applies is
      a function of that value, so equal exact values are equal floats.
      The dtype of a numeric column (int64, Int64, float64) is not
      tracked; where pandas decides on dtypes, in the check that [merge]
      makes on its key columns, the kind of a column is read off its
      cells.
    - A [DataFrame] is its column names and its rows, a row being the
      association list from column name to cell.  The index is left out:
      every column assignment of the source either assigns a scalar or a
      series computed from the very same frame, which pandas aligns
      position by position.
    - A CSV file is the list of its records (blank lines, which pandas
      skips, are no records), each the list of its raw fields; quoting
      and the decoding of bytes (latin1 maps every byte to a character,
      so it never fails) are left out.  A string is the sequence of its
      characters, each a code point below 256.
    - Exceptions are values of [exn]; a function that may raise returns
      [exn + A]. *)

From Stdlib Require Import List Bool Arith ZArith QArith Lia.
From Stdlib Require Import Strings.String Strings.Ascii Numbers.DecimalString.
Import ListNotations.

Close Scope Q_scope.
Open Scope string_scope.
Open Scope list_scope.

(** ** Exceptions and the result type *)

Inductive exn : Type :=
| FileNotFoundError (msg : string)       (* raise FileNotFoundError(msg) *)
| ENOENT (filename : string)             (* FileNotFoundError raised by open(): errno 2, with its filename attribute *)
| ValueError (msg : string)
| KeyError (col : string)
| ParserError (msg : string)
| InternalError (msg : string)
| IncompatibleKeys (key : string).       (* ValueError raised by merge on a key that is text on one side and numeric on the other; its message names the two dtypes *)

Definition result (A : Type) : Type := (exn + A)%type.

Definition Ok {A} (a : A) : result A := inr a.

Definition Raise {A} (e : exn) : result A := inl e.

Definition rbind {A B} (r : result A) (f : A -> result B) : result B :=
  match r with
  | inl e => inl e
  | inr a => f a
  end.

Fixpoint mapR {A B} (f : A -> result B) (l : list A) : result (list B) :=
  match l with
  | [] => Ok []
  | a :: l' =>
      rbind (f a) (fun b => rbind (mapR f l') (fun bs => Ok (b :: bs)))
  end.

(** ** Numbers *)

(** A non-missing float: a finite value, kept exactly, or an infinity. *)
Inductive float64 : Type :=
| Fin (q : Q)
| PInf
| NInf.

Definition float_eqb (a b : float64) : bool :=
  match a, b with
  | Fin p, Fin q => Qeq_bool p q
  | PInf, PInf => true
  | NInf, NInf => true
  | _, _ => false
  end.

Definition float_leb (a b : float64) : bool :=
  match a, b with
  | NInf, _ => true
  | _, PInf => true
  | Fin p, Fin q => Qle_bool p q
  | _, _ => false
  end.

Definition float_of_Z (z : Z) : float64 := Fin (inject_Z z).

(** ** Cells *)

Inductive cell : Type :=
| NaN
| Str (s : string)
| Num (f : float64)
| Bool (b : bool).

Definition isna (c : cell) : bool :=
  match c with
  | NaN => true
  | _ => false
  end.

(** Equality of key cells as the hash-based operations of pandas see it
    ([drop_duplicates], [merge]): two missing cells are equal. *)
Definition cell_eqb (a b : cell) : bool :=
  match a, b with
  | NaN, NaN => true
  | Str s, Str t => String.eqb s t
  | Num f, Num g => float_eqb f g
  | Bool x, Bool y => Bool.eqb x y
  | _, _ => false
  end.

(** The order [sort_values] uses on one column, ascending with
    [na_position="last"].  Strings compare by code point, numbers by
    value.  With several sort keys, as in the source, pandas sorts the
    distinct values of each key column apart and orders the rows by their
    ranks; in a column that mixes kinds the numbers come before the
    strings, which is the ranking of [Num] and [Str] here.  Booleans are
    ranked before the numbers: a key column that mixes booleans with
    numbers, where Python takes [True] for 1 and [False] for 0, is outside
    the model. *)
Definition cell_compare (a b : cell) : comparison :=
  match a, b with
  | NaN, NaN => Eq
  | NaN, _ => Gt
  | _, NaN => Lt
  | Bool x, Bool y => Bool.compare x y
  | Bool _, _ => Lt
  | _, Bool _ => Gt
  | Num f, Num g => if float_eqb f g then Eq else if float_leb f g then Lt else Gt
  | Num _, _ => Lt
  | _, Num _ => Gt
  | Str s, Str t => String.compare s t
  end.

Definition key := list cell.

Fixpoint key_eqb (a b : key) : bool :=
  match a, b with
  | [], [] => true
  | x :: a', y :: b' => cell_eqb x y && key_eqb a' b'
  | _, _ => false
  end.

Fixpoint key_compare (a b : key) : comparison :=
  match a, b with
  | [], [] => Eq
  | [], _ => Lt
  | _, [] => Gt
  | x :: a', y :: b' =>
      match cell_compare x y with
      | Eq => key_compare a' b'
      | c => c
      end
  end.

Definition key_leb (a b : key) : bool :=
  match key_compare a b with
  | Gt => false
  | _ => true
  end.

Definition key_has_nan (k : key) : bool := existsb isna k.

(** ** Python and pandas string primitives *)

Definition is_digit (c : ascii) : bool :=
  let n := nat_of_ascii c in (48 <=? n)%nat && (n <=? 57)%nat.

Definition digit_val (c : ascii) : Z := Z.of_nat (nat_of_ascii c) - 48.

(** ASCII white space: space, \t, \n, \v, \f, \r. *)
Definition is_space (c : ascii) : bool :=
  let n := nat_of_ascii c in (n =? 32)%nat || ((9 <=? n)%nat && (n <=? 13)%nat).

Fixpoint lstrip (s : string) : string :=
  match s with
  | String c s' => if is_space c then lstrip s' else s
  | EmptyString => EmptyString
  end.

Fixpoint all_space (s : string) : bool :=
  match s with
  | String c s' => is_space c && all_space s'
  | EmptyString => true
  end.

Fixpoint rstrip (s : string) : string :=
  match s with
  | String c s' => if all_space s then EmptyString else String c (rstrip s')
  | EmptyString => EmptyString
  end.

Definition strip (s : string) : string := rstrip (lstrip s).

Definition lower_ascii (c : ascii) : ascii :=
  let n := nat_of_ascii c in
  if (65 <=? n)%nat && (n <=? 90)%nat then ascii_of_nat (n + 32) else c.

Fixpoint lower (s : string) : string :=
  match s with
  | String c s' => String (lower_ascii c) (lower s')
  | EmptyString => EmptyString
  end.

(** [s.replace(c, "")] for a one-character pattern: every occurrence goes. *)
Fixpoint str_remove (c : ascii) (s : string) : string :=
  match s with
  | String d s' => if Ascii.eqb c d then str_remove c s' else String d (str_remove c s')
  | EmptyString => EmptyString
  end.

Fixpoint span_digits (s : string) : list Z * string :=
  match s with
  | String c s' =>
      if is_digit c
      then let (ds, r) := span_digits s' in (digit_val c :: ds, r)
      else ([], s)
  | EmptyString => ([], EmptyString)
  end.

Definition digits_value (ds : list Z) : Z :=
  fold_left (fun acc d => 10 * acc + d)%Z ds 0%Z.

Definition take_sign (s : string) : bool * string :=
  match s with
  | String "-" s' => (true, s')
  | String "+" s' => (false, s')
  | _ => (false, s)
  end.

(** [m * 10^e] as an exact rational, in lowest terms. *)
Definition scale10 (m e : Z) : Q :=
  if (0 <=? e)%Z then inject_Z (m * 10 ^ e) else Qred (Qmake m (Z.to_pos (10 ^ (- e)))).

(** The decimal grammar of the float parser behind [pd.to_numeric] and the
    float columns of [read_csv]: white space, a sign, digits with an
    optional fraction (one digit at least), an optional exponent that
    needs a digit, white space, end of input. *)
Definition parse_decimal (s : string) : option Q :=
  let (neg, s1) := take_sign (lstrip s) in
  let (ip, s2) := span_digits s1 in
  let (fp, s3) :=
    match s2 with
    | String "." s2' => span_digits s2'
    | _ => ([], s2)
    end in
  match ip ++ fp with
  | [] => None
  | ds =>
      let m := digits_value ds in
      let m := if neg then (- m)%Z else m in
      let fl := Z.of_nat (List.length fp) in
      let (ex, s4) :=
        match s3 with
        | String c s3' =>
            if Ascii.eqb (lower_ascii c) "e"
            then let (eneg, s3'') := take_sign s3' in
                 match span_digits s3'' with
                 | ([], _) => (0%Z, s3)
                 | (es, r) => ((if eneg then - digits_value es else digits_value es)%Z, r)
                 end
            else (0%Z, s3)
        | EmptyString => (0%Z, s3)
        end in
      if all_space s4 then Some (scale10 m (ex - fl)) else None
  end.

Definition parse_float (s : string) : option float64 :=
  match parse_decimal s with
  | Some q => Some (Fin q)
  | None =>
      let l := lower s in
      if String.eqb l "inf" || String.eqb l "+inf"
         || String.eqb l "infinity" || String.eqb l "+infinity" then Some PInf
      else if String.eqb l "-inf" || String.eqb l "-infinity" then Some NInf
      else None
  end.

(** Python's [int(s)] on a string: white space stripped, a sign, decimal
    digits, single underscores allowed between digits. *)
Fixpoint int_digits (prev_digit : bool) (acc : Z) (s : string) : option Z :=
  match s with
  | EmptyString => if prev_digit then Some acc else None
  | String c s' =>
      if is_digit c then int_digits true (10 * acc + digit_val c)%Z s'
      else if Ascii.eqb c "_" && prev_digit
           then match s' with
                | String d _ => if is_digit d then int_digits false acc s' else None
                | EmptyString => None
                end
           else None
  end.

Definition py_int (s : string) : option Z :=
  let (neg, t) := take_sign (strip s) in
  match int_digits false 0%Z t with
  | Some v => Some (if neg then (- v)%Z else v)
  | None => None
  end.

(** [c in s] for a character. *)
Fixpoint occurs (c : ascii) (s : string) : bool :=
  match s with
  | String d s' => Ascii.eqb c d || occurs c s'
  | EmptyString => false
  end.

(** [repr(s)] for a string, a character of the model being the code
    point of its number: the quotes are single unless the string has a
    single quote and no double one; the quote in use and the backslash
    are escaped, as are the characters that are not printable. *)
Definition hex_digit (n : nat) : ascii :=
  ascii_of_nat (if (n <? 10)%nat then 48 + n else 87 + n).

Definition hex2 (n : nat) : string :=
  String (hex_digit (n / 16)) (String (hex_digit (n mod 16)) "").

Definition backslash : ascii := ascii_of_nat 92.

Definition repr_char (quote c : ascii) : string :=
  let n := nat_of_ascii c in
  if Ascii.eqb c quote || Ascii.eqb c backslash then String backslash (String c "")
  else if (n =? 9)%nat then String backslash "t"
  else if (n =? 10)%nat then String backslash "n"
  else if (n =? 13)%nat then String backslash "r"
  else if (n <? 32)%nat || (n =? 127)%nat then String backslash ("x" ++ hex2 n)
  else if (n <? 127)%nat then String c ""
  else if (n <=? 160)%nat || (n =? 173)%nat then String backslash ("x" ++ hex2 n)
  else String c "".

Fixpoint repr_body (quote : ascii) (s : string) : string :=
  match s with
  | EmptyString => ""
  | String c s' => repr_char quote c ++ repr_body quote s'
  end.

Definition py_repr (s : string) : string :=
  let single := "'"%char in
  let double := ascii_of_nat 34 in
  let quote := if occurs single s && negb (occurs double s) then double else single in
  String quote (repr_body quote s ++ String quote "").

(** [str(y)] for an integer. *)
Definition str_of_int (y : Z) : string := NilZero.string_of_int (Z.to_int y).

(** ** Data frames *)

Definition row := list (string * cell).

Record DataFrame : Type := mkDF { columns : list string; rows : list row }.

Definition has_col (c : string) (cols : list string) : bool :=
  existsb (String.eqb c) cols.

(** The cell of column [c] in a row; a column the row does not have reads
    as missing (the projections of the source make the columns they name
    exist before any later step reads them). *)
Fixpoint get (c : string) (r : row) : cell :=
  match r with
  | [] => NaN
  | (n, v) :: r' => if String.eqb c n then v else get c r'
  end.

Definition key_of (on : list string) (r : row) : key :=
  map (fun c => get c r) on.

Definition project (cols : list string) (r : row) : row :=
  map (fun c => (c, get c r)) cols.

(** [df[[c1, ..., cn]]]: a new frame with these columns; [KeyError] on
    the first name the frame does not have. *)
Definition getitem_cols (cols : list string) (df : DataFrame) : result DataFrame :=
  match find (fun c => negb (has_col c (columns df))) cols with
  | Some c => Raise (KeyError c)
  | None => Ok (mkDF cols (map (project cols) (rows df)))
  end.

Fixpoint set_cell (c : string) (v : cell) (r : row) : row :=
  match r with
  | [] => [(c, v)]
  | (n, w) :: r' =>
      if String.eqb c n then (n, v) :: r' else (n, w) :: set_cell c v r'
  end.

Definition add_col (c : string) (cols : list string) : list string :=
  if has_col c cols then cols else cols ++ [c].

(** [df[c] = v] for a scalar [v]. *)
Definition setitem_scalar (c : string) (v : cell) (df : DataFrame) : DataFrame :=
  mkDF (add_col c (columns df)) (map (set_cell c v) (rows df)).

(** [df[c] = values], the values taken position by position. *)
Definition setitem_series (c : string) (vs : list cell) (df : DataFrame) : DataFrame :=
  mkDF (add_col c (columns df))
       (map (fun rv => set_cell c (snd rv) (fst rv)) (combine (rows df) vs)).

(** [df[c].map(f)] followed by [df[c] = ...]. *)
Definition map_col (c : string) (f : cell -> cell) (df : DataFrame) : DataFrame :=
  setitem_series c (map (fun r => f (get c r)) (rows df)) df.

(** *** sort_values

    Sorting on several columns is a stable lexicographic sort: rows with
    equal keys keep their relative order. *)
Fixpoint insert_row (on : list string) (r : row) (l : list row) : list row :=
  match l with
  | [] => [r]
  | x :: l' =>
      if key_leb (key_of on r) (key_of on x) then r :: l
      else x :: insert_row on r l'
  end.

Definition sort_rows (on : list string) (l : list row) : list row :=
  fold_right (insert_row on) [] l.

Definition sort_values (on : list string) (df : DataFrame) : DataFrame :=
  mkDF (columns df) (sort_rows on (rows df)).

(** *** drop_duplicates(subset=on, keep="first") *)

Definition key_mem (k : key) (seen : list key) : bool := existsb (key_eqb k) seen.

Fixpoint drop_dups (on : list string) (seen : list key) (rs : list row) : list row :=
  match rs with
  | [] => []
  | r :: rs' =>
      if key_mem (key_of on r) seen then drop_dups on seen rs'
      else r :: drop_dups on (key_of on r :: seen) rs'
  end.

Definition drop_duplicates (on : list string) (df : DataFrame) : DataFrame :=
  mkDF (columns df) (drop_dups on [] (rows df)).

(** *** groupby(on)[col].ffill()

    One pass over the rows in frame order, remembering for each group the
    last value that was present.  With the default [dropna=True] a row
    whose key has a missing component belongs to no group and its result
    is missing. *)
Fixpoint last_valid (k : key) (seen : list (key * cell)) : cell :=
  match seen with
  | [] => NaN
  | (k', v) :: seen' => if key_eqb k k' then v else last_valid k seen'
  end.

Fixpoint ffill_rows (on : list string) (col : string)
         (seen : list (key * cell)) (rs : list row) : list cell :=
  match rs with
  | [] => []
  | r :: rs' =>
      let k := key_of on r in
      if key_has_nan k then NaN :: ffill_rows on col seen rs'
      else if isna (get col r)
           then last_valid k seen :: ffill_rows on col seen rs'
           else get col r :: ffill_rows on col ((k, get col r) :: seen) rs'
  end.

Definition groupby_ffill (on : list string) (col : string) (df : DataFrame) : list cell :=
  ffill_rows on col [] (rows df).

(** [df[cols] = df.groupby(on)[cols].ffill()]: the right-hand side is
    computed from the frame as it is before any column is replaced. *)
Definition setitem_ffill (on cols : list string) (df : DataFrame) : DataFrame :=
  fold_left (fun d c => setitem_series c (groupby_ffill on c df) d) cols df.

(** *** merge

    The merged frames of the source share no column besides the keys, so
    the renaming of clashing columns is left out.  Missing key cells match
    each other.  A left join keeps the order of the left rows, each
    followed by its matches in the order of the right frame; for an outer
    join the rows found only on the right come after them (pandas orders
    the result of an outer join by key: no property below depends on the
    order of the result).

    Before it joins, [merge] compares the dtypes of the two columns of
    each key and raises [ValueError] when one is text and the other
    numeric.  Dtypes are not tracked; the check is made on the cells: a
    column is text when it holds a string, and numeric when it holds a
    number and, besides numbers, missing cells only.  A column of missing
    cells only, whose dtype its cells do not show, passes.  The error is
    [IncompatibleKeys] with the first key that fails the check. *)
Inductive how : Type := HowLeft | HowOuter.

Definition is_str (c : cell) : bool :=
  match c with
  | Str _ => true
  | _ => false
  end.

Definition is_num (c : cell) : bool :=
  match c with
  | Num _ => true
  | _ => false
  end.

Definition column (c : string) (rs : list row) : list cell := map (get c) rs.

Definition holds_text (cs : list cell) : bool := existsb is_str cs.

Definition numbers_only (cs : list cell) : bool :=
  existsb is_num cs && forallb (fun c => is_num c || isna c) cs.

Definition kinds_clash (L R : list row) (c : string) : bool :=
  (holds_text (column c L) && numbers_only (column c R))
  || (numbers_only (column c L) && holds_text (column c R)).

Definition non_key (on cols : list string) : list string :=
  filter (fun c => negb (has_col c on)) cols.

Definition na_row (cols : list string) : row := map (fun c => (c, NaN)) cols.

Definition same_key (on : list string) (a b : row) : bool :=
  key_eqb (key_of on a) (key_of on b).

Definition matches (on : list string) (l : row) (R : list row) : list row :=
  filter (same_key on l) R.

Definition join_row (on rcols : list string) (R : list row) (l : row) : list row :=
  match matches on l R with
  | [] => [l ++ na_row (non_key on rcols)]
  | ms => map (fun r => l ++ project (non_key on rcols) r) ms
  end.

Definition right_only (on lcols rcols : list string) (r : row) : row :=
  map (fun c => (c, if has_col c on then get c r else NaN)) lcols
      ++ project (non_key on rcols) r.

Definition unmatched (on : list string) (L R : list row) : list row :=
  filter (fun r => negb (existsb (fun l => same_key on l r) L)) R.

Definition merge (h : how) (on : list string) (L R : DataFrame) : result DataFrame :=
  match find (fun c => negb (has_col c (columns L) && has_col c (columns R))) on with
  | Some c => Raise (KeyError c)
  | None =>
      match find (kinds_clash (rows L) (rows R)) on with
      | Some c => Raise (IncompatibleKeys c)
      | None =>
          let both := flat_map (join_row on (columns R) (rows R)) (rows L) in
          let rest :=
            match h with
            | HowLeft => []
            | HowOuter =>
                map (right_only on (columns L) (columns R))
                    (unmatched on (rows L) (rows R))
            end in
          Ok (mkDF (columns L ++ non_key on (columns R)) (both ++ rest))
      end
  end.

(** *** pd.to_numeric(errors="coerce"), cell by cell *)

Definition to_numeric_coerce (c : cell) : cell :=
  match c with
  | NaN => NaN
  | Num f => Num f
  | Bool b => Num (float_of_Z (if b then 1 else 0))
  | Str s =>
      match parse_float s with
      | Some f => Num f
      | None => NaN
      end
  end.

(** ** A state and exception monad

    [M S A] is a computation over a state [S] that returns an [A] or
    raises.  The loaders run over the trace of their file accesses, the
    merger over the store of frame objects. *)

Definition M (S A : Type) : Type := S -> result A * S.

Definition ret {S A} (a : A) : M S A := fun s => (Ok a, s).

Definition bind {S A B} (m : M S A) (f : A -> M S B) : M S B :=
  fun s =>
    match m s with
    | (inl e, s') => (inl e, s')
    | (inr a, s') => f a s'
    end.

Definition raise {S A} (e : exn) : M S A := fun s => (Raise e, s).

Definition lift {S A} (r : result A) : M S A := fun s => (r, s).

Declare Scope monad_scope.

Delimit Scope monad_scope with monad.

Notation "x <- m ;; k" := (bind m (fun x => k))
  (at level 61, m at next level, right associativity) : monad_scope.

Notation "m ;;; k" := (bind m (fun _ => k))
  (at level 61, right associativity) : monad_scope.

Open Scope monad_scope.

(** ** Paths (pathlib, POSIX flavour) *)

Record Path : Type := mkPath { anchored : bool; parts : list string }.

Fixpoint split_on (c : ascii) (s : string) : list string :=
  match s with
  | EmptyString => [EmptyString]
  | String d s' =>
      if Ascii.eqb c d then EmptyString :: split_on c s'
      else match split_on c s' with
           | h :: t => String d h :: t
           | [] => [String d EmptyString]
           end
  end.

(** The parts of a path segment: empty parts and "." parts are dropped. *)
Definition parse_parts (s : string) : list string :=
  filter (fun p => negb (String.eqb p "" || String.eqb p ".")) (split_on "/" s).

Definition is_absolute (s : string) : bool :=
  match s with
  | String "/" _ => true
  | _ => false
  end.

Definition path_of (s : string) : Path := mkPath (is_absolute s) (parse_parts s).

(** [p / seg]: an absolute segment replaces the path. *)
Definition path_div (p : Path) (seg : string) : Path :=
  if is_absolute seg then path_of seg
  else mkPath (anchored p) (parts p ++ parse_parts seg).

Definition path_str (p : Path) : string :=
  match anchored p, parts p with
  | false, [] => "."
  | false, ps => String.concat "/" ps
  | true, ps => "/" ++ String.concat "/" ps
  end.

Notation "p </> s" := (path_div p s) (at level 40, left associativity).

Definition MA_DATA_DIR : Path := path_of "/home/gdanzil/econ470/a0/work/ma-data".

(** ** Files and read_csv *)

Inductive event : Type :=
| EvExists (p : string)      (* Path.exists() *)
| EvOpen (p : string)        (* the file is opened for reading *)
| EvParse (p : string).      (* the parser starts on the opened file *)

Definition trace := list event.

Definition emit (e : event) : M trace unit := fun t => (Ok tt, t ++ [e]).

Inductive dtype : Type := DStr | DFloat | DInt64.

(** The strings pandas reads as missing by default. *)
Definition default_na : list string :=
  [""; "#N/A"; "#N/A N/A"; "#NA"; "-1.#IND"; "-1.#QNAN"; "-NaN"; "-nan";
   "1.#IND"; "1.#QNAN"; "<NA>"; "N/A"; "NA"; "NULL"; "NaN"; "None"; "n/a";
   "nan"; "null"].

Definition is_na (na : list string) (raw : string) : bool :=
  existsb (String.eqb raw) na.

Definition is_integral (f : float64) : bool :=
  match f with
  | Fin q => Pos.eqb (Qden (Qred q)) 1
  | _ => false
  end.

(** One raw field to a cell: the missing-value filter runs first, the
    conversion to the declared type after it.  A field that is not missing
    and does not parse as its numeric type makes [read_csv] raise. *)
Definition convert (na : list string) (dt : dtype) (raw : string) : result cell :=
  if is_na na raw then Ok NaN
  else match dt with
       | DStr => Ok (Str raw)
       | DFloat =>
           match parse_float raw with
           | Some f => Ok (Num f)
           | None => Raise (ValueError ("could not convert string to float: " ++ raw))
           end
       | DInt64 =>
           match parse_float raw with
           | Some f =>
               if is_integral f then Ok (Num f)
               else Raise (ValueError ("cannot safely cast to Int64: " ++ raw))
           | None => Raise (ValueError ("invalid literal for int: " ++ raw))
           end
       end.

(** The [dtype=] dictionary; every reader lists all its columns. *)
Fixpoint dtype_of (dtypes : list (string * dtype)) (c : string) : dtype :=
  match dtypes with
  | [] => DStr
  | (n, dt) :: d' => if String.eqb c n then dt else dtype_of d' c
  end.

(** The fields of one record against the name list: a short record is
    padded with missing cells; more fields than names are an error of the
    parser ([Expected n fields, saw m]).  [read_csv] hands over the fields
    that are left for the columns ([data_fields] below), so the error is
    that of a record with more fields than the table is wide. *)
Fixpoint read_record (na : list string) (dtypes : list (string * dtype))
         (names : list string) (fields : list string) : result row :=
  match names, fields with
  | [], [] => Ok []
  | [], _ :: _ => Raise (ParserError "too many fields")
  | n :: names', [] =>
      rbind (read_record na dtypes names' []) (fun r => Ok ((n, NaN) :: r))
  | n :: names', f :: fields' =>
      rbind (convert na (dtype_of dtypes n) f) (fun c =>
      rbind (read_record na dtypes names' fields') (fun r => Ok ((n, c) :: r)))
  end.

(** With [names=] and no header row, the table is as wide as the first
    record or as the name list, whichever is longer, and no later record
    may have more fields.  When the first record has more fields than
    there are names, pandas takes the leading surplus fields of every
    record as the index and gives the names to the fields after them.
    The index is not part of the model: the fields that go to it are
    dropped. *)
Definition surplus (names : list string) (data : list (list string)) : nat :=
  match data with
  | [] => 0
  | first :: _ => List.length first - List.length names
  end.

Definition data_fields (names : list string) (data : list (list string))
  : list (list string) :=
  map (skipn (surplus names data)) data.

Section FileSystem.

(** The files that exist, by path, each with its records. *)
Variable fs : string -> option (list (list string)).

Definition path_exists (p : Path) : M trace bool :=
  emit (EvExists (path_str p)) ;;;
  ret (match fs (path_str p) with Some _ => true | None => false end).

Definition open_file (p : string) : M trace (list (list string)) :=
  match fs p with
  | None => raise (ENOENT p)
  | Some content => emit (EvOpen p) ;;; ret content
  end.

(** [pd.read_csv(path, skiprows=k, names=names, na_values=extra, dtype=dtypes)];
    [na_values] adds to the default missing strings. *)
Definition read_csv (path : string) (skiprows : nat) (names : list string)
           (na_values : list string) (dtypes : list (string * dtype))
  : M trace DataFrame :=
  content <- open_file path ;;
  emit (EvParse path) ;;;
  rs <- lift (mapR (read_record (na_values ++ default_na) dtypes names)
                   (data_fields names (skipn skiprows content))) ;;
  ret (mkDF names rs).

Definition contract_names : list string :=
  ["contractid"; "planid"; "org_type"; "plan_type"; "partd"; "snp"; "eghp";
   "org_name"; "org_marketing_name"; "plan_name"; "parent_org";
   "contract_date"].

Definition contract_dtypes : list (string * dtype) :=
  [("contractid", DStr); ("planid", DFloat); ("org_type", DStr);
   ("plan_type", DStr); ("partd", DStr); ("snp", DStr); ("eghp", DStr);
   ("org_name", DStr); ("org_marketing_name", DStr); ("plan_name", DStr);
   ("parent_org", DStr); ("contract_date", DStr)].

Definition read_contract (path : string) : M trace DataFrame :=
  read_csv path 1 contract_names [] contract_dtypes.

Definition enroll_names : list string :=
  ["contractid"; "planid"; "ssa"; "fips"; "state"; "county"; "enrollment"].

Definition enroll_dtypes : list (string * dtype) :=
  [("contractid", DStr); ("planid", DFloat); ("ssa", DFloat); ("fips", DFloat);
   ("state", DStr); ("county", DStr); ("enrollment", DFloat)].

Definition read_enroll (path : string) : M trace DataFrame :=
  read_csv path 1 enroll_names ["*"] enroll_dtypes.

Definition cpsc_keys : list string := ["contractid"; "planid"].

Definition enrollment_dir : Path :=
  MA_DATA_DIR </> "ma" </> "enrollment" </> "Extracted Data".

Definition c_path (m : string) (y : Z) : Path :=
  enrollment_dir </> ("CPSC_Contract_Info_" ++ str_of_int y ++ "_" ++ m ++ ".csv").

Definition e_path (m : string) (y : Z) : Path :=
  enrollment_dir </> ("CPSC_Enrollment_Info_" ++ str_of_int y ++ "_" ++ m ++ ".csv").

(** [int(m)]; the message of the error shows at most 200 characters of
    [repr(m)]. *)
Definition int_of_str (m : string) : result Z :=
  match py_int m with
  | Some v => Ok v
  | None =>
      Raise (ValueError ("invalid literal for int() with base 10: "
                           ++ substring 0 200 (py_repr m)))
  end.

Definition load_month (m : string) (y : Z) : M trace DataFrame :=
  c_exists <- path_exists (c_path m y) ;;
  if negb c_exists
  then raise (FileNotFoundError ("Missing contract file: " ++ path_str (c_path m y)))
  else
    e_exists <- path_exists (e_path m y) ;;
    if negb e_exists
    then raise (FileNotFoundError ("Missing enrollment file: " ++ path_str (e_path m y)))
    else
      contract <- read_contract (path_str (c_path m y)) ;;
      let contract_info := drop_duplicates cpsc_keys contract in
      enroll_info <- read_enroll (path_str (e_path m y)) ;;
      merged <- lift (merge HowLeft cpsc_keys contract_info enroll_info) ;;
      month <- lift (int_of_str m) ;;
      let merged := setitem_scalar "month" (Num (float_of_Z month)) merged in
      let merged := setitem_scalar "year" (Num (float_of_Z y)) merged in
      ret merged.

Definition sa_names : list string :=
  ["contractid"; "org_name"; "org_type"; "plan_type"; "partial"; "eghp";
   "ssa"; "fips"; "county"; "state"; "notes"].

Definition sa_dtypes : list (string * dtype) :=
  [("contractid", DStr); ("org_name", DStr); ("org_type", DStr);
   ("plan_type", DStr); ("partial", DStr); ("eghp", DStr); ("ssa", DFloat);
   ("fips", DFloat); ("county", DStr); ("state", DStr); ("notes", DStr)].

(** Equality of a cell with a dictionary key, as Python compares and
    hashes them: [True == 1] and [False == 0]; a missing cell equals no
    key. *)
Definition py_key_eqb (c k : cell) : bool :=
  match c, k with
  | Str s, Str t => String.eqb s t
  | Bool x, Bool y => Bool.eqb x y
  | Num f, Num g => float_eqb f g
  | Num f, Bool y | Bool y, Num f => float_eqb f (float_of_Z (if y then 1 else 0))
  | _, _ => false
  end.

(** [series.map(d)] for a dictionary [d]: a value that is no key of [d]
    becomes missing. *)
Definition dict_map (d : list (cell * cell)) (c : cell) : cell :=
  match find (fun kv => py_key_eqb c (fst kv)) d with
  | Some kv => snd kv
  | None => NaN
  end.

Definition partial_dict : list (cell * cell) :=
  [(Str "TRUE", Bool true); (Str "FALSE", Bool false);
   (Bool true, Bool true); (Bool false, Bool false)].

Definition read_service_area (path : string) : M trace DataFrame :=
  df <- read_csv path 1 sa_names ["*"] sa_dtypes ;;
  ret (map_col "partial" (dict_map partial_dict) df).

Definition sa_path (m : string) (y : Z) : string :=
  "../../ma-data/ma/service-area/Extracted Data/MA_Cnty_SA_"
    ++ str_of_int y ++ "_" ++ m ++ ".csv".

Definition load_month_sa (m : string) (y : Z) : M trace DataFrame :=
  df <- read_service_area (sa_path m y) ;;
  month <- lift (int_of_str m) ;;
  let df := setitem_scalar "month" (Num (float_of_Z month)) df in
  let df := setitem_scalar "year" (Num (float_of_Z y)) df in
  ret df.

Definition pen_names : list string :=
  ["state"; "county"; "fips_state"; "fips_cnty"; "fips";
   "ssa_state"; "ssa_cnty"; "ssa"; "eligibles"; "enrolled"; "penetration"].

Definition pen_dtypes : list (string * dtype) :=
  [("state", DStr); ("county", DStr); ("fips_state", DInt64);
   ("fips_cnty", DInt64); ("fips", DFloat); ("ssa_state", DInt64);
   ("ssa_cnty", DInt64); ("ssa", DFloat); ("eligibles", DStr);
   ("enrolled", DStr); ("penetration", DStr)].

(** [astype(str)] on a cell of a text column: a missing cell becomes the
    string "nan". *)
Definition astype_str (c : cell) : cell :=
  match c with
  | NaN => Str "nan"
  | Bool true => Str "True"
  | Bool false => Str "False"
  | c => c
  end.

Definition str_replace (ch : ascii) (c : cell) : cell :=
  match c with
  | Str s => Str (str_remove ch s)
  | c => c
  end.

(** The body of the loop of [read_penetration] on one cell. *)
Definition pen_numeric (c : cell) : cell :=
  to_numeric_coerce (str_replace "%" (str_replace "," (astype_str c))).

Definition read_penetration (path : string) : M trace DataFrame :=
  df <- read_csv path 1 pen_names [""; "NA"; "*"; "-"; "--"] pen_dtypes ;;
  ret (fold_left (fun d col => map_col col pen_numeric d)
                 ["eligibles"; "enrolled"; "penetration"] df).

Definition pen_path (m : string) (y : Z) : string :=
  "../../ma-data/ma/penetration/Extracted Data/State_County_Penetration_MA_"
    ++ str_of_int y ++ "_" ++ m ++ ".csv".

Definition load_month_pen (m : string) (y : Z) : M trace DataFrame :=
  df <- read_penetration (pen_path m y) ;;
  month <- lift (int_of_str m) ;;
  let df := setitem_scalar "month" (Num (float_of_Z month)) df in
  let df := setitem_scalar "year" (Num (float_of_Z y)) df in
  ret df.

End FileSystem.

(** ** Frame objects and references

    Python variables hold references to frame objects.  The store is the
    list of the objects allocated so far, a reference is an index into
    it.  An operation that returns a new frame allocates; a column
    assignment changes the object its left-hand side refers to, in
    place. *)

Definition loc := nat.

Definition heap := list DataFrame.

Fixpoint update_nth {A} (n : nat) (x : A) (l : list A) : list A :=
  match n, l with
  | _, [] => []
  | O, _ :: l' => x :: l'
  | S n', a :: l' => a :: update_nth n' x l'
  end.

Definition new_frame (df : DataFrame) : M heap loc :=
  fun h => (Ok (List.length h), h ++ [df]).

Definition deref (l : loc) : M heap DataFrame :=
  fun h =>
    match nth_error h l with
    | Some df => (Ok df, h)
    | None => (Raise (InternalError "dangling reference"), h)
    end.

Definition assign (l : loc) (df : DataFrame) : M heap unit :=
  fun h => (Ok tt, update_nth l df h).

(** [df[[cols]]] *)
Definition df_getitem_cols (cols : list string) (l : loc) : M heap loc :=
  df <- deref l ;;
  d <- lift (getitem_cols cols df) ;;
  new_frame d.

(** [df.copy()] *)
Definition df_copy (l : loc) : M heap loc :=
  df <- deref l ;; new_frame df.

(** [df.sort_values(on)] *)
Definition df_sort_values (on : list string) (l : loc) : M heap loc :=
  df <- deref l ;; new_frame (sort_values on df).

(** [df.drop_duplicates(subset=on, keep="first")] *)
Definition df_drop_duplicates (on : list string) (l : loc) : M heap loc :=
  df <- deref l ;; new_frame (drop_duplicates on df).

(** [df.groupby(on)[col].ffill()]: a new series, held by value. *)
Definition df_groupby_ffill (on : list string) (col : string) (l : loc) : M heap (list cell) :=
  df <- deref l ;; ret (groupby_ffill on col df).

(** [df[col] = values], in place. *)
Definition df_setitem_series (col : string) (vs : list cell) (l : loc) : M heap unit :=
  df <- deref l ;; assign l (setitem_series col vs df).

(** [df[cols] = df.groupby(on)[cols].ffill()], in place. *)
Definition df_setitem_ffill (on cols : list string) (l : loc) : M heap unit :=
  df <- deref l ;; assign l (setitem_ffill on cols df).

(** [df[col] = pd.to_numeric(df[col], errors="coerce")], in place. *)
Definition df_setitem_to_numeric (col : string) (l : loc) : M heap unit :=
  df <- deref l ;; assign l (map_col col to_numeric_coerce df).

(** [df[col] = v], in place. *)
Definition df_setitem_scalar (col : string) (v : cell) (l : loc) : M heap unit :=
  df <- deref l ;; assign l (setitem_scalar col v df).

(** [left.merge(right, on=on, how=h)] *)
Definition df_merge (h : how) (on : list string) (left right : loc) : M heap loc :=
  L <- deref left ;;
  R <- deref right ;;
  d <- lift (merge h on L R) ;;
  new_frame d.

(** ** The MA / MA-PD merger *)

Definition plan_keys : list string := ["contractid"; "planid"; "state"; "county"].

Definition ma_cols : list string :=
  ["contractid"; "planid"; "state"; "county"; "premium"].

Definition fill_cols : list string :=
  ["premium_partc"; "premium_partd_basic"; "premium_partd_supp";
   "premium_partd_total"; "partd_deductible"].

Definition mapd_cols : list string :=
  ["contractid"; "planid"; "state"; "county";
   "premium_partc"; "premium_partd_basic"; "premium_partd_supp";
   "premium_partd_total"; "partd_deductible"].

Definition mapd_clean_merge (ma_data mapd_data : loc) (y : Z) : M heap loc :=
  (* Tidy MA-only data *)
  ma_data <- df_getitem_cols ma_cols ma_data ;;
  ma_data <- df_copy ma_data ;;
  ma_data <- df_sort_values plan_keys ma_data ;;
  filled <- df_groupby_ffill plan_keys "premium" ma_data ;;
  df_setitem_series "premium" filled ma_data ;;;
  ma_data <- df_drop_duplicates plan_keys ma_data ;;
  (* Tidy MA-PD data *)
  mapd_data <- df_getitem_cols mapd_cols mapd_data ;;
  mapd_data <- df_copy mapd_data ;;
  df_setitem_to_numeric "planid" mapd_data ;;;
  mapd_data <- df_sort_values plan_keys mapd_data ;;
  df_setitem_ffill plan_keys fill_cols mapd_data ;;;
  mapd_data <- df_drop_duplicates plan_keys mapd_data ;;
  (* Merge Part D info to Part C info *)
  plan_premiums <- df_merge HowOuter plan_keys ma_data mapd_data ;;
  df_setitem_scalar "year" (Num (float_of_Z y)) plan_premiums ;;;
  ret plan_premiums.

(** The two cleaning pipelines and the whole merger as functions of the
    frames the arguments refer to: what the objects handed to the final
    merge, and the object returned, hold ([mapd_clean_merge_run] below). *)
Definition clean_ma (ma : DataFrame) : result DataFrame :=
  rbind (getitem_cols ma_cols ma) (fun d =>
  let s := sort_values plan_keys d in
  Ok (drop_duplicates plan_keys
        (setitem_series "premium" (groupby_ffill plan_keys "premium" s) s))).

Definition clean_mapd (mapd : DataFrame) : result DataFrame :=
  rbind (getitem_cols mapd_cols mapd) (fun d =>
  let s := sort_values plan_keys (map_col "planid" to_numeric_coerce d) in
  Ok (drop_duplicates plan_keys (setitem_ffill plan_keys fill_cols s))).

Definition plan_premiums_of (ma mapd : DataFrame) (y : Z) : result DataFrame :=
  rbind (clean_ma ma) (fun a =>
  rbind (clean_mapd mapd) (fun b =>
  rbind (merge HowOuter plan_keys a b) (fun p =>
  Ok (setitem_scalar "year" (Num (float_of_Z y)) p)))).

(** * Vocabulary of the properties

    The predicates and functions the statements below are written with,
    and the small tables and file systems the properties are run on. *)

(** What a record leaves in the cell of the [j]-th column. *)
Definition field_cell (na : list string) (dtypes : list (string * dtype))
           (col : string) (fields : list string) (j : nat) (c : cell) : Prop :=
  match nth_error fields j with
  | Some raw => convert na (dtype_of dtypes col) raw = Ok c
  | None => c = NaN
  end.

Fixpoint distinct_names (l : list string) : bool :=
  match l with
  | [] => true
  | c :: l' => negb (has_col c l') && distinct_names l'
  end.

(** ** The partial-coverage flag of the service-area reader *)

Definition partial_of_raw (raw : string) : cell :=
  if String.eqb raw "TRUE" then Bool true
  else if String.eqb raw "FALSE" then Bool false
  else NaN.

Definition sa_demo_fs (p : string) : option (list (list string)) :=
  if String.eqb p "sa.csv"
  then Some [["h"];
             ["H1"; "Org"; "Local CCP"; "HMO"; "TRUE"; "N"; "1010"; "1001"; "Autauga"; "AL"; ""];
             ["H2"; "Org"; "Local CCP"; "HMO"; "FALSE"; "N"; "1010"; "1001"; "Autauga"; "AL"; "x"];
             ["H3"; "Org"; "Local CCP"; "HMO"; "True"; "N"; "1010"; "1001"; "Autauga"; "AL"; "x"];
             ["H4"; "Org"; "Local CCP"; "HMO"; "*"; "N"; "*"; "1001"; "Autauga"; "AL"]]
  else None.

(** ** The numeric text columns of the penetration reader *)

Definition pen_na : list string := [""; "NA"; "*"; "-"; "--"] ++ default_na.

Definition strip_marks (raw : string) : string :=
  str_remove "%" (str_remove "," raw).

Definition pen_of_raw (raw : string) : cell :=
  if is_na pen_na raw then NaN
  else match parse_float (strip_marks raw) with
       | Some f => Num f
       | None => NaN
       end.

Definition pen_demo_fs (p : string) : option (list (list string)) :=
  if String.eqb p "pen.csv"
  then Some [["State Name"; "County Name"];
             ["Alabama"; "Autauga"; "01"; "001"; "01001"; "01"; "000"; "01000";
              "1,234"; "1234"; "1,234%"];
             ["Alabama"; "Baldwin"; "1"; "3"; "1003"; "1"; "10"; "1010";
              "12,345"; "n/a"; "12.50%"];
             ["Alabama"; "Pending"; "-"; "--"; "*"; "NA"; ""; "*";
              "*"; "abc"; "-"]]
  else None.

(** ** Missing-value strings, reader by reader *)

Definition five_sentinels : list string := ["*"; ""; "NA"; "-"; "--"].

(** Every field that is one of the strings [S] is a missing cell. *)
Definition cells_missing (names S : list string)
           (data : list (list string)) (rs : list row) : Prop :=
  Forall2 (fun rec r =>
             forall j col raw,
               nth_error names j = Some col -> nth_error rec j = Some raw ->
               In raw S -> get col r = NaN)
          data rs.

(** Every field of a text column other than [skip] that is one of the
    strings [S] is that very string in the table. *)
Definition text_kept (names : list string) (dtypes : list (string * dtype))
           (skip : list string) (S : list string)
           (data : list (list string)) (rs : list row) : Prop :=
  Forall2 (fun rec r =>
             forall j col raw,
               nth_error names j = Some col -> nth_error rec j = Some raw ->
               dtype_of dtypes col = DStr -> has_col col skip = false ->
               In raw S -> get col r = Str raw)
          data rs.

Definition contract_demo_fs (p : string) : option (list (list string)) :=
  if String.eqb p "contract.csv"
  then Some [["Contract ID"; "Plan ID"];
             ["H1234"; "001"; "*"; "HMO"; "-"; "--"; "NA"; "Org"; ""; "Plan"; "Parent"; "01/01/2015"];
             ["H1234"; "1"; "Local CCP"; "HMO"; "Yes"; "No"; "No"; "Org"; "Org"; "Plan"; "Parent"; "01/01/2015"]]
  else if String.eqb p "enroll.csv"
  then Some [["Contract Number"];
             ["H1234"; "1"; "1010"; "1001"; "AL"; "-"; "*"];
             ["H1234"; "1"; "1020"; "1003"; "AL"; "Baldwin"; "25"]]
  else None.

(** Files whose records have one field more than the reader has names:
    the first field of every record goes to the index. *)
Definition surplus_demo_fs (p : string) : option (list (list string)) :=
  if String.eqb p "pen12.csv"
  then Some [["State Name"; "County Name"];
             ["Alabama"; "Autauga"; "01"; "001"; "01001"; "01"; "000"; "01000";
              "100"; "50"; "5%"; "NA"];
             ["Alabama"; "Baldwin"; "1"; "3"; "1003"; "1"; "10"; "1010";
              "300"; "2,000"; "n/a"; "*"]]
  else if String.eqb p "sa12.csv"
  then Some [["h"];
             ["7"; "H1"; "Org"; "Local CCP"; "HMO"; "TRUE"; "N"; "1010"; "1001"; "Autauga"; "AL"; "-"];
             ["8"; "H2"; "Org"; "Local CCP"; "FALSE"; "no"; "N"; "*"; "1001"; "Autauga"; "AL"; "*"]]
  else if String.eqb p "enroll8.csv"
  then Some [["Contract Number"];
             ["7"; "H1234"; "1"; "1010"; "1001"; "AL"; "-"; "*"];
             ["8"; "H1234"; "1"; "1020"; "1003"; "AL"; "Baldwin"; "NA"]]
  else None.

(** ** The monthly loaders *)

Definition stamp (month y : Z) (df : DataFrame) : DataFrame :=
  setitem_scalar "year" (Num (float_of_Z y))
                 (setitem_scalar "month" (Num (float_of_Z month)) df).

(** A small file system: both files of January 2015, only the contract
    file of February 2015. *)
Definition month_demo_fs (p : string) : option (list (list string)) :=
  if String.eqb p (path_str (c_path "01" 2015))
  then Some [["Contract ID"; "Plan ID"];
             ["H1234"; "001"; "Local CCP"; "HMO"; "Yes"; "No"; "No"; "Org"; "Org"; "Gold"; "Parent"; "01/01/2015"];
             ["H1234"; "1"; "Local CCP"; "HMO"; "Yes"; "No"; "No"; "Org"; "Org"; "Gold again"; "Parent"; "01/01/2015"];
             ["H1234"; "2"; "Local CCP"; "PPO"; "No"; "No"; "No"; "Org"; "Org"; "Silver"; "Parent"; "01/01/2015"]]
  else if String.eqb p (path_str (e_path "01" 2015))
  then Some [["Contract Number"; "Plan ID"];
             ["H1234"; "1"; "1010"; "1001"; "AL"; "Autauga"; "25"];
             ["H1234"; "1"; "1020"; "1003"; "AL"; "Baldwin"; "*"];
             ["H9999"; "7"; "1020"; "1003"; "AL"; "Baldwin"; "11"]]
  else if String.eqb p (path_str (c_path "02" 2015))
  then Some [["Contract ID"; "Plan ID"]]
  else None.

Definition enroll_fields : list string :=
  ["ssa"; "fips"; "state"; "county"; "enrollment"].

(** ** Deduplication *)

(** The rows have pairwise different keys, none of them in [seen]. *)
Fixpoint distinct_from (on : list string) (seen : list key) (rs : list row) : Prop :=
  match rs with
  | [] => True
  | r :: rs' =>
      key_mem (key_of on r) seen = false
      /\ distinct_from on (key_of on r :: seen) rs'
  end.

(** The number of rows with key [k]. *)
Definition count_key (on : list string) (k : key) (rs : list row) : nat :=
  List.length (filter (fun r => key_eqb k (key_of on r)) rs).

(** The first row with key [k]. *)
Definition first_with (on : list string) (k : key) (rs : list row) : option row :=
  find (fun r => key_eqb k (key_of on r)) rs.

(** Some row has key [k]. *)
Definition has_key (on : list string) (k : key) (rs : list row) : bool :=
  existsb (fun r => key_eqb k (key_of on r)) rs.

(** The rows [rs] with the cells [vs] in column [col]. *)
Definition fill_in (col : string) (rs : list row) (vs : list cell) : list row :=
  map (fun rv => set_cell col (snd rv) (fst rv)) (combine rs vs).

(** ** The store: what a computation leaves untouched *)

(** [h'] has the objects of [h] below [n] unchanged. *)
Definition keeps (n : nat) (h h' : heap) : Prop :=
  n <= List.length h' /\ forall l, l < n -> nth_error h' l = nth_error h l.

(** [m] changes no object below [n], and its result satisfies [Q]. *)
Definition preserves {A} (n : nat) (m : M heap A) (Q : A -> Prop) : Prop :=
  forall h0 h, keeps n h0 h ->
               keeps n h0 (snd (m h))
               /\ match fst (m h) with
                  | inr a => Q a
                  | inl _ => True
                  end.

Definition ma_demo : DataFrame :=
  mkDF ["contractid"; "planid"; "plan_name"; "state"; "county"; "premium"]
       [[("contractid", Str "H1"); ("planid", Num (Fin 1)); ("plan_name", Str "Gold");
         ("state", Str "AL"); ("county", Str "Autauga"); ("premium", NaN)];
        [("contractid", Str "H0"); ("planid", Num (Fin 2)); ("plan_name", Str "Basic");
         ("state", Str "AL"); ("county", Str "Baldwin"); ("premium", Num (Fin 5))];
        [("contractid", Str "H1"); ("planid", Num (Fin 1)); ("plan_name", Str "Gold");
         ("state", Str "AL"); ("county", Str "Autauga"); ("premium", Num (Fin 10))]].

Definition mapd_demo : DataFrame :=
  mkDF mapd_cols
       [[("contractid", Str "H1"); ("planid", Str "1"); ("state", Str "AL");
         ("county", Str "Autauga"); ("premium_partc", Num (Fin 7));
         ("premium_partd_basic", NaN); ("premium_partd_supp", NaN);
         ("premium_partd_total", NaN); ("partd_deductible", Num (Fin 320))];
        [("contractid", Str "H1"); ("planid", Str "001"); ("state", Str "AL");
         ("county", Str "Autauga"); ("premium_partc", Num (Fin 8));
         ("premium_partd_basic", Num (Fin 30)); ("premium_partd_supp", NaN);
         ("premium_partd_total", Num (Fin 30)); ("partd_deductible", NaN)];
        [("contractid", Str "H7"); ("planid", Str "x"); ("state", Str "AL");
         ("county", Str "Pike"); ("premium_partc", NaN);
         ("premium_partd_basic", Num (Fin 12)); ("premium_partd_supp", NaN);
         ("premium_partd_total", Num (Fin 12)); ("partd_deductible", Num (Fin 100))]].

(** An MA table whose plan ids are text. *)
Definition ma_text_planid : DataFrame :=
  mkDF ma_cols
       [[("contractid", Str "H1"); ("planid", Str "001"); ("state", Str "AL");
         ("county", Str "Autauga"); ("premium", Num (Fin 10))]].

(** An MA table with a group whose county is missing: its rows hold the
    premiums 5 and 6. *)
Definition ma_missing_county : DataFrame :=
  mkDF ma_cols
       [[("contractid", Str "H1"); ("planid", Num (Fin 1)); ("state", Str "AL");
         ("county", NaN); ("premium", Num (Fin 5))];
        [("contractid", Str "H0"); ("planid", Num (Fin 2)); ("state", Str "AL");
         ("county", Str "Baldwin"); ("premium", Num (Fin 5))];
        [("contractid", Str "H1"); ("planid", Num (Fin 1)); ("state", Str "AL");
         ("county", NaN); ("premium", Num (Fin 6))]].

Definition ma_filled (d : DataFrame) : DataFrame :=
  let s := sort_values plan_keys d in
  setitem_series "premium" (groupby_ffill plan_keys "premium" s) s.

(** ** The premium the merger keeps for a group *)

(** The premium of the first row with key [k], missing when the key has a
    missing component or no row has the key. *)
Definition premium_kept (k : key) (rs : list row) : cell :=
  match first_with plan_keys k rs with
  | Some r1 => if key_has_nan k then NaN else get "premium" r1
  | None => NaN
  end.

(** ** Further vocabulary *)

Definition is_number_or_na (c : cell) : bool :=
  match c with
  | NaN | Num _ => true
  | _ => false
  end.

Definition is_bool_or_na (c : cell) : bool :=
  match c with
  | NaN | Bool _ => true
  | _ => false
  end.

(** The columns of the tables the loaders and the merger return. *)
Definition month_columns : list string :=
  contract_names ++ enroll_fields ++ ["month"; "year"].

Definition premium_columns : list string :=
  ma_cols ++ fill_cols ++ ["year"].


(** The four files of a month written [Jan]. *)
Definition jan_demo_fs (p : string) : option (list (list string)) :=
  if String.eqb p (path_str (c_path "Jan" 2015))
  then month_demo_fs (path_str (c_path "01" 2015))
  else if String.eqb p (path_str (e_path "Jan" 2015))
  then month_demo_fs (path_str (e_path "01" 2015))
  else if String.eqb p (sa_path "Jan" 2015) then sa_demo_fs "sa.csv"
  else if String.eqb p (pen_path "Jan" 2015) then pen_demo_fs "pen.csv"
  else None.

(** An enrollment file with a count that is no number. *)
Definition bad_enroll_fs (p : string) : option (list (list string)) :=
  if String.eqb p (path_str (e_path "01" 2015))
  then Some [["Contract Number"; "Plan ID"];
             ["H1234"; "1"; "1010"; "1001"; "AL"; "Autauga"; "25"];
             ["H1234"; "1"; "1020"; "1003"; "AL"; "Baldwin"; "under 11"]]
  else month_demo_fs p.


(** No record after the header has more fields than the reader has names,
    and some record after the header has, in a float column, a field that
    is neither a missing-value string nor a number. *)
Definition bad_number (names : list string) (dtypes : list (string * dtype))
           (na : list string) (content : list (list string)) : Prop :=
  Forall (fun rec => List.length rec <= List.length names) (skipn 1 content)
  /\ exists rec j col raw,
      In rec (skipn 1 content)
      /\ nth_error names j = Some col /\ dtype_of dtypes col = DFloat
      /\ nth_error rec j = Some raw
      /\ is_na na raw = false /\ parse_float raw = None.

(** The records of a file after its header all convert, to the rows [rs]. *)
Definition records_read (extra : list string) (dtypes : list (string * dtype))
           (names : list string) (content : list (list string)) (rs : list row) : Prop :=
  mapR (read_record (extra ++ default_na) dtypes names) (skipn 1 content) = Ok rs.

(** The file accesses of a complete run of [load_month]. *)
Definition month_trace (m : string) (y : Z) : trace :=
  [EvExists (path_str (c_path m y)); EvExists (path_str (e_path m y));
   EvOpen (path_str (c_path m y)); EvParse (path_str (c_path m y));
   EvOpen (path_str (e_path m y)); EvParse (path_str (e_path m y))].


(** The cell of column [col] in the first row with key [k], missing when
    the key has a missing component or no row has the key. *)
Definition cell_kept (col : string) (k : key) (rs : list row) : cell :=
  match first_with plan_keys k rs with
  | Some r1 => if key_has_nan k then NaN else get col r1
  | None => NaN
  end.

(** The first pair of [combine rs rs'] whose first row has key [k]. *)
Definition first_pair (on : list string) (k : key) (rs rs' : list row) : option (row * row) :=
  find (fun p => key_eqb k (key_of on (fst p))) (combine rs rs').

(** The MA-PD table projected, with its plan id coerced. *)
Definition mapd_coerced (d : DataFrame) : DataFrame :=
  map_col "planid" to_numeric_coerce d.

(** The cell of column [c] of the row [r1], missing when the key [k] has
    a missing component. *)
Definition kept_value (k : key) (c : string) (r1 : row) : cell :=
  if key_has_nan k then NaN else get c r1.


(** Every character is printable ASCII or one of \t, \n, \v, \f, \r: on
    such strings [py_int] is all of Python's [int]. *)
Fixpoint plain_ascii (s : string) : bool :=
  match s with
  | EmptyString => true
  | String c s' =>
      let n := nat_of_ascii c in
      (((32 <=? n)%nat && (n <=? 126)%nat) || ((9 <=? n)%nat && (n <=? 13)%nat))
      && plain_ascii s'
  end.

(** * Properties *)

(** ** The primitives on examples *)

Example parse_float_ex1 : parse_float "1234" = Some (Fin (1234 # 1)).
Proof. reflexivity. Qed.

Example parse_float_ex2 : parse_float " -12.50e1 " = Some (Fin ((-125) # 1)).
Proof. vm_compute. reflexivity. Qed.

Example parse_float_ex3 : parse_float "n/a" = None /\ parse_float "1e" = None
                          /\ parse_float "." = None /\ parse_float "-Inf" = Some NInf.
Proof. repeat split. Qed.

Example py_int_ex : py_int "01" = Some 1%Z /\ py_int " 1_2 " = Some 12%Z
                    /\ py_int "1__2" = None /\ py_int "" = None
                    /\ py_int "-7" = Some (-7)%Z.
Proof. repeat split. Qed.

Example py_repr_ex :
  py_repr "Jan" = "'Jan'"
  /\ py_repr (String (ascii_of_nat 9) "1 ") = String "'" (String backslash "t1 '")
  /\ py_repr "it's" = String (ascii_of_nat 34) ("it's" ++ String (ascii_of_nat 34) "")
  /\ py_repr (String (ascii_of_nat 11) "") = String "'" (String backslash "x0b'").
Proof. repeat split. Qed.

Example str_of_int_ex : str_of_int 2015 = "2015" /\ str_of_int 0 = "0"
                        /\ str_of_int (-3) = "-3".
Proof. repeat split. Qed.

Example path_ex :
  path_str (c_path "01" 2015)
  = "/home/gdanzil/econ470/a0/work/ma-data/ma/enrollment/Extracted Data/CPSC_Contract_Info_2015_01.csv".
Proof. reflexivity. Qed.

(** ** Rows and columns *)

Lemma get_set_cell (c c' : string) (v : cell) (r : row) :
  get c' (set_cell c v r) = if String.eqb c' c then v else get c' r.
Proof.
  induction r as [|[n w] r IH]; simpl.
  - destruct (String.eqb c' c); reflexivity.
  - destruct (String.eqb c n) eqn:E; simpl.
    + apply String.eqb_eq in E; subst n.
      destruct (String.eqb c' c); reflexivity.
    + destruct (String.eqb c' n) eqn:E'.
      * apply String.eqb_eq in E'; subst n.
        rewrite String.eqb_sym, E. reflexivity.
      * exact IH.
Qed.

Lemma map_combine_map {A B C} (f : A -> B) (g : A * B -> C) (l : list A) :
  map g (combine l (map f l)) = map (fun a => g (a, f a)) l.
Proof. induction l; simpl; congruence. Qed.

Lemma rows_map_col (c : string) (f : cell -> cell) (df : DataFrame) :
  rows (map_col c f df) = map (fun r => set_cell c (f (get c r)) r) (rows df).
Proof. unfold map_col, setitem_series; simpl. apply map_combine_map. Qed.

Lemma get_project (cols : list string) (c : string) (r : row) :
  get c (project cols r) = if has_col c cols then get c r else NaN.
Proof.
  induction cols as [|n cols IH]; simpl; [reflexivity|].
  destruct (String.eqb c n) eqn:E; simpl; [|exact IH].
  apply String.eqb_eq in E; subst; reflexivity.
Qed.

Lemma get_app (c : string) (a b : row) :
  get c (a ++ b) = if has_col c (map fst a) then get c a else get c b.
Proof.
  induction a as [|[n v] a IH]; simpl; [reflexivity|].
  destruct (String.eqb c n); simpl; [reflexivity|exact IH].
Qed.

(** ** Reading records *)

Lemma mapR_Forall2 {A B} (f : A -> result B) (l : list A) (l' : list B) :
  mapR f l = Ok l' -> Forall2 (fun a b => f a = Ok b) l l'.
Proof.
  revert l'; induction l as [|a l IH]; simpl; intros l' H.
  - inversion H; constructor.
  - destruct (f a) as [e|b] eqn:Ea; simpl in H; [discriminate|].
    destruct (mapR f l) as [e|bs] eqn:El; simpl in H; [discriminate|].
    inversion H; subst. constructor; [exact Ea | apply IH; reflexivity].
Qed.

Lemma Forall2_mapR {A B} (f : A -> result B) (l : list A) (l' : list B) :
  Forall2 (fun a b => f a = Ok b) l l' -> mapR f l = Ok l'.
Proof.
  induction 1 as [|a b l l' Hab _ IH]; simpl; [reflexivity|].
  rewrite Hab, IH; reflexivity.
Qed.

Lemma read_record_get na dtypes names :
  NoDup names ->
  forall fields r, read_record na dtypes names fields = Ok r ->
  forall j col, nth_error names j = Some col ->
  field_cell na dtypes col fields j (get col r).
Proof.
  induction 1 as [|n names Hn Hnd IH]; intros fields r Hr j col Hj.
  - destruct j; discriminate.
  - assert (Hother : forall j' c', nth_error names j' = Some c' -> String.eqb c' n = false).
    { intros j' c' Hc'. apply String.eqb_neq. intros ->.
      apply Hn. eapply nth_error_In; eauto. }
    destruct fields as [|f fields]; simpl in Hr.
    + destruct (read_record na dtypes names []) as [e|r'] eqn:Er; simpl in Hr; [discriminate|].
      inversion Hr; subst r; clear Hr. unfold field_cell.
      destruct j as [|j]; simpl in *.
      * inversion Hj; subst. rewrite String.eqb_refl. reflexivity.
      * rewrite (Hother _ _ Hj).
        specialize (IH _ _ Er _ _ Hj). unfold field_cell in IH.
        destruct j; simpl in IH; exact IH.
    + destruct (convert na (dtype_of dtypes n) f) as [e|c] eqn:Ec; simpl in Hr; [discriminate|].
      destruct (read_record na dtypes names fields) as [e|r'] eqn:Er; simpl in Hr; [discriminate|].
      inversion Hr; subst r; clear Hr. unfold field_cell.
      destruct j as [|j]; simpl in *.
      * inversion Hj; subst. rewrite String.eqb_refl. exact Ec.
      * rewrite (Hother _ _ Hj). exact (IH _ _ Er _ _ Hj).
Qed.

(** ** Running the readers *)

Lemma length_data_fields (names : list string) (data : list (list string)) :
  List.length (data_fields names data) = List.length data.
Proof. unfold data_fields. apply length_map. Qed.

Lemma skipn_0_all {A} (l : list (list A)) : map (skipn 0) l = l.
Proof.
  induction l as [|a l IH]; [reflexivity|].
  cbn [map]. rewrite IH. reflexivity.
Qed.

(** Without surplus fields in its first record, a file is read field by
    field from the left. *)
Lemma data_fields_plain (names : list string) (data : list (list string)) :
  surplus names data = 0 -> data_fields names data = data.
Proof. unfold data_fields. intros ->. apply skipn_0_all. Qed.

Lemma read_record_length na dtypes :
  forall names fields r,
    read_record na dtypes names fields = Ok r ->
    List.length fields <= List.length names.
Proof.
  induction names as [|n names IH]; intros fields r H.
  - destruct fields; simpl in *; [lia|discriminate].
  - destruct fields as [|f fields]; simpl in *; [lia|].
    destruct (convert na (dtype_of dtypes n) f); simpl in H; [discriminate|].
    destruct (read_record na dtypes names fields) as [e|r'] eqn:E; simpl in H;
      [discriminate|].
    specialize (IH _ _ E). lia.
Qed.

Lemma surplus_fits (names : list string) (data : list (list string)) :
  Forall (fun rec => List.length rec <= List.length names) data ->
  surplus names data = 0.
Proof.
  intros H. destruct data as [|first data]; simpl; [reflexivity|].
  inversion H; subst. lia.
Qed.

Lemma mapR_Forall {A B} (f : A -> result B) (P : A -> Prop) (l : list A) (l' : list B) :
  (forall a b, f a = Ok b -> P a) -> mapR f l = Ok l' -> Forall P l.
Proof.
  intros HP. revert l'; induction l as [|a l IH]; intros l' H; constructor;
    simpl in H; destruct (f a) as [e|b] eqn:Ea; simpl in H; try discriminate;
    destruct (mapR f l) as [e|bs] eqn:El; simpl in H; try discriminate; eauto.
Qed.

Lemma read_csv_ok fs path k names na dtypes t df t' :
  read_csv fs path k names na dtypes t = (Ok df, t') ->
  exists content,
    fs path = Some content
    /\ t' = t ++ [EvOpen path; EvParse path]
    /\ columns df = names
    /\ Forall2 (fun rec r => read_record (na ++ default_na) dtypes names rec = Ok r)
               (data_fields names (skipn k content)) (rows df).
Proof.
  unfold read_csv, open_file, bind, emit, ret, lift, raise. intros H.
  destruct (fs path) as [content|] eqn:Efs; simpl in H; [|discriminate].
  destruct (mapR _ _) as [e|rs] eqn:Em; simpl in H; [discriminate|].
  inversion H; subst; clear H.
  exists content. rewrite <- app_assoc. simpl. repeat split.
  apply mapR_Forall2. exact Em.
Qed.

Lemma read_csv_missing fs path k names na dtypes t :
  fs path = None ->
  read_csv fs path k names na dtypes t = (Raise (ENOENT path), t).
Proof.
  intros H. unfold read_csv, open_file, bind, raise. rewrite H. reflexivity.
Qed.

Lemma has_col_In (c : string) (cols : list string) :
  has_col c cols = true <-> In c cols.
Proof.
  unfold has_col. rewrite existsb_exists. split.
  - intros [x [Hx E]]. apply String.eqb_eq in E; subst; exact Hx.
  - intros H. exists c. split; [exact H | apply String.eqb_refl].
Qed.

Lemma NoDup_strings_dec (l : list string) : distinct_names l = true -> NoDup l.
Proof.
  induction l as [|c l IH]; simpl; intros H; constructor.
  - apply andb_prop in H as [H _]. intros Hin. apply has_col_In in Hin.
    rewrite Hin in H. discriminate.
  - apply IH. apply andb_prop in H as [_ H]. exact H.
Qed.

Lemma contract_names_nodup : NoDup contract_names.
Proof. apply NoDup_strings_dec. vm_compute. reflexivity. Qed.

Lemma enroll_names_nodup : NoDup enroll_names.
Proof. apply NoDup_strings_dec. vm_compute. reflexivity. Qed.

Lemma sa_names_nodup : NoDup sa_names.
Proof. apply NoDup_strings_dec. vm_compute. reflexivity. Qed.

Lemma pen_names_nodup : NoDup pen_names.
Proof. apply NoDup_strings_dec. vm_compute. reflexivity. Qed.

Lemma Forall2_map_r {A B C} (P : A -> C -> Prop) (g : B -> C) (l : list A) (l' : list B) :
  Forall2 (fun a b => P a (g b)) l l' -> Forall2 P l (map g l').
Proof. induction 1; simpl; constructor; auto. Qed.

Lemma Forall2_weaken {A B} (P Q : A -> B -> Prop) (l : list A) (l' : list B) :
  (forall a b, P a b -> Q a b) -> Forall2 P l l' -> Forall2 Q l l'.
Proof. intros HPQ; induction 1; constructor; auto. Qed.

(** ** The partial-coverage flag of the service-area reader *)

Lemma partial_cell (raw : string) (c : cell) :
  convert (["*"] ++ default_na) (dtype_of sa_dtypes "partial") raw = Ok c ->
  dict_map partial_dict c = partial_of_raw raw.
Proof.
  unfold convert, partial_of_raw. simpl dtype_of.
  destruct (String.eqb raw "TRUE") eqn:ET.
  { apply String.eqb_eq in ET; subst raw. vm_compute. intros H; inversion H; reflexivity. }
  destruct (String.eqb raw "FALSE") eqn:EF.
  { apply String.eqb_eq in EF; subst raw. vm_compute. intros H; inversion H; reflexivity. }
  destruct (is_na _ raw); intros H; inversion H; subst c; clear H.
  - reflexivity.
  - unfold dict_map, partial_dict; simpl. rewrite ET, EF. reflexivity.
Qed.

(** C7.  In the table the service-area reader returns, the partial-coverage
    cell of every record is true when the field is the string TRUE, false
    when it is FALSE, and missing for any other string (matching is
    case-sensitive); a native boolean maps to itself; the field never
    makes the reader raise: it is read as text, and the table is returned
    whenever the records parse.  The field of the column is the fifth of
    the fields the reader gives to its columns ([data_fields]): the fifth
    of the record, or the fifth after the leading surplus fields when the
    first record has more fields than the reader has names. *)
Theorem read_service_area_partial fs path t df t'
        (Hrun : read_service_area fs path t = (Ok df, t')) :
  (exists content,
      fs path = Some content
      /\ Forall2 (fun rec r =>
                    forall raw, nth_error rec 4 = Some raw ->
                                get "partial" r = partial_of_raw raw)
                 (data_fields sa_names (skipn 1 content)) (rows df))
  /\ partial_of_raw "TRUE" = Bool true
  /\ partial_of_raw "FALSE" = Bool false
  /\ (forall raw, raw <> "TRUE" -> raw <> "FALSE" -> partial_of_raw raw = NaN)
  /\ partial_of_raw "true" = NaN
  /\ (forall b, dict_map partial_dict (Bool b) = Bool b)
  /\ (forall raw, exists c,
         convert (["*"] ++ default_na) (dtype_of sa_dtypes "partial") raw = Ok c)
  /\ (forall p s d s', read_csv fs p 1 sa_names ["*"] sa_dtypes s = (Ok d, s') ->
                       exists d', read_service_area fs p s = (Ok d', s')).
Proof.
  repeat split.
  - unfold read_service_area, bind, ret in Hrun.
    destruct (read_csv fs path 1 sa_names ["*"] sa_dtypes t) as [[e|d] s] eqn:Ecsv;
      [discriminate|].
    inversion Hrun; subst; clear Hrun.
    destruct (read_csv_ok _ _ _ _ _ _ _ _ _ Ecsv) as [content [Hfs [_ [_ Hrows]]]].
    exists content. split; [exact Hfs|].
    rewrite rows_map_col. apply Forall2_map_r.
    eapply Forall2_weaken; [|exact Hrows].
    intros rec r Hrec raw Hraw. cbv beta in Hrec.
    rewrite get_set_cell, String.eqb_refl.
    pose proof (read_record_get _ _ _ sa_names_nodup _ _ Hrec 4%nat "partial" eq_refl) as Hc.
    unfold field_cell in Hc. rewrite Hraw in Hc.
    apply partial_cell. exact Hc.
  - intros raw HT HF. unfold partial_of_raw.
    apply String.eqb_neq in HT, HF. rewrite HT, HF. reflexivity.
  - intros []; reflexivity.
  - intros raw. unfold convert. simpl dtype_of.
    destruct (is_na _ raw); eauto.
  - intros p s d s' H. unfold read_service_area, bind, ret. rewrite H.
    unfold Ok. eauto.
Qed.

Lemma read_service_area_partial_witness :
  (exists df t',
      read_service_area sa_demo_fs "sa.csv" [] = (Ok df, t')
      /\ map (get "partial") (rows df) = [Bool true; Bool false; NaN; NaN]
      /\ exists content,
          sa_demo_fs "sa.csv" = Some content
          /\ data_fields sa_names (skipn 1 content) = skipn 1 content
          /\ Forall2 (fun rec r =>
                        forall raw, nth_error rec 4 = Some raw ->
                                    get "partial" r = partial_of_raw raw)
                     (data_fields sa_names (skipn 1 content)) (rows df))
  /\ (exists df t',
         read_service_area surplus_demo_fs "sa12.csv" [] = (Ok df, t')
         /\ map (get "partial") (rows df) = [Bool true; NaN]
         /\ exists content,
             surplus_demo_fs "sa12.csv" = Some content
             /\ map (fun rec => nth_error rec 4) (skipn 1 content)
                = [Some "HMO"; Some "FALSE"]
             /\ map (fun rec => nth_error rec 4) (data_fields sa_names (skipn 1 content))
                = [Some "TRUE"; Some "no"]
             /\ Forall2 (fun rec r =>
                           forall raw, nth_error rec 4 = Some raw ->
                                       get "partial" r = partial_of_raw raw)
                        (data_fields sa_names (skipn 1 content)) (rows df)).
Proof.
  split.
  - destruct (read_service_area sa_demo_fs "sa.csv" []) as [[e|df] t'] eqn:E.
    + vm_compute in E. discriminate.
    + exists df, t'. split; [reflexivity|]. split.
      * vm_compute in E. inversion E. reflexivity.
      * destruct (proj1 (read_service_area_partial _ _ _ _ _ E)) as [content [Hfs H]].
        exists content. split; [exact Hfs|]. split; [|exact H].
        vm_compute in Hfs. inversion Hfs. reflexivity.
  - destruct (read_service_area surplus_demo_fs "sa12.csv" []) as [[e|df] t'] eqn:E.
    + vm_compute in E. discriminate.
    + exists df, t'. split; [reflexivity|]. split.
      * vm_compute in E. inversion E. reflexivity.
      * destruct (proj1 (read_service_area_partial _ _ _ _ _ E)) as [content [Hfs H]].
        exists content. split; [exact Hfs|].
        split; [vm_compute in Hfs; inversion Hfs; reflexivity|].
        split; [vm_compute in Hfs; inversion Hfs; reflexivity|exact H].
Defined.

(** ** Cells of the tables the readers return *)

Lemma read_csv_cells fs path k names na dtypes t df t' :
  NoDup names ->
  read_csv fs path k names na dtypes t = (Ok df, t') ->
  exists content,
    fs path = Some content
    /\ Forall2 (fun rec r =>
                  forall j col, nth_error names j = Some col ->
                                field_cell (na ++ default_na) dtypes col rec j (get col r))
               (data_fields names (skipn k content)) (rows df).
Proof.
  intros Hnd H.
  destruct (read_csv_ok _ _ _ _ _ _ _ _ _ H) as [content [Hfs [_ [_ Hrows]]]].
  exists content. split; [exact Hfs|].
  eapply Forall2_weaken; [|exact Hrows].
  intros rec r Hrec j col Hj. eapply read_record_get; eauto.
Qed.

Ltac eval_eqb :=
  repeat match goal with
         | |- context [String.eqb ?a ?b] =>
             let v := eval vm_compute in (String.eqb a b) in
             match v with
             | true => change (String.eqb a b) with true
             | false => change (String.eqb a b) with false
             end
         end.

(** ** The numeric text columns of the penetration reader *)

Lemma occurs_str_remove_same (c : ascii) (s : string) :
  occurs c (str_remove c s) = false.
Proof.
  induction s as [|d s IH]; simpl; [reflexivity|].
  destruct (Ascii.eqb c d) eqn:E; simpl; [exact IH|].
  rewrite E. exact IH.
Qed.

Lemma occurs_str_remove_other (c d : ascii) (s : string) :
  occurs c s = false -> occurs c (str_remove d s) = false.
Proof.
  induction s as [|x s IH]; simpl; [reflexivity|].
  intros H. apply orb_false_elim in H as [Hx Hs].
  destruct (Ascii.eqb d x); simpl; [auto|].
  rewrite Hx. simpl. auto.
Qed.

Lemma pen_text_cell (col raw : string) (c : cell) :
  In col ["eligibles"; "enrolled"; "penetration"] ->
  convert pen_na (dtype_of pen_dtypes col) raw = Ok c ->
  pen_numeric c = pen_of_raw raw.
Proof.
  intros Hcol. unfold convert, pen_of_raw.
  assert (Hdt : dtype_of pen_dtypes col = DStr).
  { simpl in Hcol. destruct Hcol as [<-|[<-|[<-|[]]]]; reflexivity. }
  rewrite Hdt.
  destruct (is_na pen_na raw); intros H; inversion H; subst c; reflexivity.
Qed.

Lemma rows_pen_loop (df : DataFrame) :
  rows (fold_left (fun d col => map_col col pen_numeric d)
                  ["eligibles"; "enrolled"; "penetration"] df)
  = map (fun r =>
           let r1 := set_cell "eligibles" (pen_numeric (get "eligibles" r)) r in
           let r2 := set_cell "enrolled" (pen_numeric (get "enrolled" r1)) r1 in
           set_cell "penetration" (pen_numeric (get "penetration" r2)) r2)
        (rows df).
Proof.
  simpl fold_left. rewrite !rows_map_col, !map_map. reflexivity.
Qed.

Lemma pen_loop_get (col : string) (r : row) :
  let r1 := set_cell "eligibles" (pen_numeric (get "eligibles" r)) r in
  let r2 := set_cell "enrolled" (pen_numeric (get "enrolled" r1)) r1 in
  get col (set_cell "penetration" (pen_numeric (get "penetration" r2)) r2)
  = if has_col col ["eligibles"; "enrolled"; "penetration"]
    then pen_numeric (get col r) else get col r.
Proof.
  cbv zeta. rewrite !get_set_cell. eval_eqb. unfold has_col. simpl existsb.
  destruct (String.eqb col "penetration") eqn:E3.
  { apply String.eqb_eq in E3; subst col. rewrite !orb_true_r. reflexivity. }
  destruct (String.eqb col "enrolled") eqn:E2.
  { apply String.eqb_eq in E2; subst col. rewrite orb_true_r. reflexivity. }
  destruct (String.eqb col "eligibles") eqn:E1.
  { apply String.eqb_eq in E1; subst col. reflexivity. }
  reflexivity.
Qed.

(** C6.  In the table the penetration reader returns, the eligibles,
    enrolled and penetration cells of every record are the number parsed
    from the field with every comma and percent sign removed, and missing
    when what is left does not parse; 1,234% and 1234 give the same
    number, n/a gives the missing marker, and no content of these three
    fields makes the reader raise.  The field of a column is counted
    among the fields the reader gives to its columns ([data_fields]): all
    the fields of the record, or those after the leading surplus fields
    when the first record has more fields than the reader has names. *)
Theorem read_penetration_numeric fs path t df t'
        (Hrun : read_penetration fs path t = (Ok df, t')) :
  (exists content,
      fs path = Some content
      /\ Forall2 (fun rec r =>
                    forall j col raw,
                      In col ["eligibles"; "enrolled"; "penetration"] ->
                      nth_error pen_names j = Some col ->
                      nth_error rec j = Some raw ->
                      get col r = pen_of_raw raw)
                 (data_fields pen_names (skipn 1 content)) (rows df))
  /\ (forall raw, occurs "," (strip_marks raw) = false
                  /\ occurs "%" (strip_marks raw) = false)
  /\ (forall raw f, parse_float (strip_marks raw) = Some f ->
                    is_na pen_na raw = false -> pen_of_raw raw = Num f)
  /\ (forall raw, parse_float (strip_marks raw) = None -> pen_of_raw raw = NaN)
  /\ pen_of_raw "1,234%" = Num (Fin (1234 # 1))
  /\ pen_of_raw "1234" = Num (Fin (1234 # 1))
  /\ pen_of_raw "n/a" = NaN
  /\ pen_of_raw "abc" = NaN
  /\ (forall col raw, In col ["eligibles"; "enrolled"; "penetration"] ->
                      exists c, convert pen_na (dtype_of pen_dtypes col) raw = Ok c)
  /\ (forall p s d s',
         read_csv fs p 1 pen_names [""; "NA"; "*"; "-"; "--"] pen_dtypes s = (Ok d, s') ->
         exists d', read_penetration fs p s = (Ok d', s')).
Proof.
  split; [|split; [|split; [|split; [|repeat split]]]].
  - unfold read_penetration, bind, ret in Hrun.
    destruct (read_csv fs path 1 pen_names _ pen_dtypes t) as [[e|d] s] eqn:Ecsv;
      [discriminate|].
    inversion Hrun; subst; clear Hrun.
    destruct (read_csv_cells _ _ _ _ _ _ _ _ _ pen_names_nodup Ecsv)
      as [content [Hfs Hrows]].
    exists content. split; [exact Hfs|].
    change (map_col "penetration" pen_numeric
              (map_col "enrolled" pen_numeric (map_col "eligibles" pen_numeric d)))
      with (fold_left (fun d col => map_col col pen_numeric d)
                      ["eligibles"; "enrolled"; "penetration"] d).
    rewrite rows_pen_loop. apply Forall2_map_r.
    eapply Forall2_weaken; [|exact Hrows].
    intros rec r Hrec j col raw Hcol Hj Hraw. cbv beta in Hrec.
    rewrite pen_loop_get.
    replace (has_col col ["eligibles"; "enrolled"; "penetration"]) with true
      by (symmetry; apply has_col_In; exact Hcol).
    specialize (Hrec j col Hj). unfold field_cell in Hrec. rewrite Hraw in Hrec.
    eapply pen_text_cell; eauto.
  - intros raw. unfold strip_marks. split.
    + apply occurs_str_remove_other, occurs_str_remove_same.
    + apply occurs_str_remove_same.
  - intros raw f Hf Hna. unfold pen_of_raw. rewrite Hna, Hf. reflexivity.
  - intros raw Hf. unfold pen_of_raw. rewrite Hf. destruct (is_na pen_na raw); reflexivity.
  - intros col raw Hcol. unfold convert.
    assert (Hdt : dtype_of pen_dtypes col = DStr).
    { simpl in Hcol. destruct Hcol as [<-|[<-|[<-|[]]]]; reflexivity. }
    rewrite Hdt. destruct (is_na pen_na raw); unfold Ok; eauto.
  - intros p s d s' H. unfold read_penetration, bind, ret. rewrite H. unfold Ok. eauto.
Qed.

Lemma read_penetration_numeric_witness :
  (exists df t',
      read_penetration pen_demo_fs "pen.csv" [] = (Ok df, t')
      /\ map (fun r => [get "eligibles" r; get "enrolled" r; get "penetration" r]) (rows df)
         = [[Num (Fin (1234 # 1)); Num (Fin (1234 # 1)); Num (Fin (1234 # 1))];
            [Num (Fin (12345 # 1)); NaN; Num (Fin (25 # 2))];
            [NaN; NaN; NaN]]
      /\ exists content,
          pen_demo_fs "pen.csv" = Some content
          /\ data_fields pen_names (skipn 1 content) = skipn 1 content
          /\ Forall2 (fun rec r =>
                        forall j col raw,
                          In col ["eligibles"; "enrolled"; "penetration"] ->
                          nth_error pen_names j = Some col ->
                          nth_error rec j = Some raw ->
                          get col r = pen_of_raw raw)
                     (data_fields pen_names (skipn 1 content)) (rows df))
  /\ (exists df t',
         read_penetration surplus_demo_fs "pen12.csv" [] = (Ok df, t')
         /\ map (fun r => [get "eligibles" r; get "enrolled" r; get "penetration" r])
                (rows df)
            = [[Num (Fin (50 # 1)); Num (Fin (5 # 1)); NaN];
               [Num (Fin (2000 # 1)); NaN; NaN]]
         /\ exists content,
             surplus_demo_fs "pen12.csv" = Some content
             /\ map (fun rec => nth_error rec 8) (skipn 1 content)
                = [Some "100"; Some "300"]
             /\ map (fun rec => nth_error rec 8) (data_fields pen_names (skipn 1 content))
                = [Some "50"; Some "2,000"]
             /\ Forall2 (fun rec r =>
                           forall j col raw,
                             In col ["eligibles"; "enrolled"; "penetration"] ->
                             nth_error pen_names j = Some col ->
                             nth_error rec j = Some raw ->
                             get col r = pen_of_raw raw)
                        (data_fields pen_names (skipn 1 content)) (rows df)).
Proof.
  split.
  - destruct (read_penetration pen_demo_fs "pen.csv" []) as [[e|df] t'] eqn:E.
    + vm_compute in E. discriminate.
    + exists df, t'. split; [reflexivity|]. split.
      * vm_compute in E. inversion E. reflexivity.
      * destruct (proj1 (read_penetration_numeric _ _ _ _ _ E)) as [content [Hfs H]].
        exists content. split; [exact Hfs|]. split; [|exact H].
        vm_compute in Hfs. inversion Hfs. reflexivity.
  - destruct (read_penetration surplus_demo_fs "pen12.csv" []) as [[e|df] t'] eqn:E.
    + vm_compute in E. discriminate.
    + exists df, t'. split; [reflexivity|]. split.
      * vm_compute in E. inversion E. reflexivity.
      * destruct (proj1 (read_penetration_numeric _ _ _ _ _ E)) as [content [Hfs H]].
        exists content. split; [exact Hfs|].
        split; [vm_compute in Hfs; inversion Hfs; reflexivity|].
        split; [vm_compute in Hfs; inversion Hfs; reflexivity|exact H].
Defined.

(** ** Missing-value strings, reader by reader *)

Lemma convert_na (na : list string) (dt : dtype) (raw : string) :
  is_na na raw = true -> convert na dt raw = Ok NaN.
Proof. intros H. unfold convert. rewrite H. reflexivity. Qed.

Lemma convert_text (na : list string) (raw : string) :
  is_na na raw = false -> convert na DStr raw = Ok (Str raw).
Proof. intros H. unfold convert. rewrite H. reflexivity. Qed.

Lemma In_is_na (S na : list string) :
  forallb (is_na na) S = true -> forall raw, In raw S -> is_na na raw = true.
Proof. intros H raw Hin. rewrite forallb_forall in H. auto. Qed.

Lemma In_not_na (S na : list string) :
  forallb (fun s => negb (is_na na s)) S = true ->
  forall raw, In raw S -> is_na na raw = false.
Proof.
  intros H raw Hin. rewrite forallb_forall in H.
  apply negb_true_iff. auto.
Qed.

Lemma read_csv_cells_missing fs path names extra dtypes S t df t' :
  NoDup names ->
  forallb (is_na (extra ++ default_na)) S = true ->
  read_csv fs path 1 names extra dtypes t = (Ok df, t') ->
  exists content,
    fs path = Some content
    /\ cells_missing names S (data_fields names (skipn 1 content)) (rows df).
Proof.
  intros Hnd HS H.
  destruct (read_csv_cells _ _ _ _ _ _ _ _ _ Hnd H) as [content [Hfs Hrows]].
  exists content. split; [exact Hfs|].
  eapply Forall2_weaken; [|exact Hrows].
  intros rec r Hrec j col raw Hj Hraw Hin.
  specialize (Hrec j col Hj). unfold field_cell in Hrec. rewrite Hraw in Hrec.
  rewrite (convert_na _ _ _ (In_is_na _ _ HS _ Hin)) in Hrec.
  inversion Hrec. reflexivity.
Qed.

Lemma read_csv_text_kept fs path names extra dtypes S t df t' content :
  NoDup names ->
  forallb (fun s => negb (is_na (extra ++ default_na) s)) S = true ->
  read_csv fs path 1 names extra dtypes t = (Ok df, t') ->
  fs path = Some content ->
  text_kept names dtypes [] S (data_fields names (skipn 1 content)) (rows df).
Proof.
  intros Hnd HS H Hfs.
  destruct (read_csv_cells _ _ _ _ _ _ _ _ _ Hnd H) as [content' [Hfs' Hrows]].
  rewrite Hfs in Hfs'. inversion Hfs'; subst content'.
  eapply Forall2_weaken; [|exact Hrows].
  intros rec r Hrec j col raw Hj Hraw Hdt _ Hin.
  specialize (Hrec j col Hj). unfold field_cell in Hrec. rewrite Hraw, Hdt in Hrec.
  rewrite (convert_text _ _ (In_not_na _ _ HS _ Hin)) in Hrec.
  inversion Hrec. reflexivity.
Qed.

Lemma pen_numeric_NaN : pen_numeric NaN = NaN.
Proof. reflexivity. Qed.

(** C4 (as amended).  Each reader turns the missing-value strings of its
    own set into the missing marker, in every column and before the field
    is parsed as a number: the penetration reader all five of [*], the
    empty string, [NA], [-] and [--]; the enrollment and service-area
    readers [*], the empty string and [NA]; the contract reader the empty
    string and [NA].  A string outside the reader's set stays the raw
    string it is in a text column ([-] and [--] for the enrollment and
    service-area readers, the partial-coverage column apart; [*], [-] and
    [--] for the contract reader).  The fields are those the reader gives
    to its columns ([data_fields]): all the fields of a record, or those
    after the leading surplus fields when the first record has more
    fields than the reader has names. *)
Theorem reader_sentinels :
  (forall fs path t df t',
      read_penetration fs path t = (Ok df, t') ->
      exists content,
        fs path = Some content
        /\ cells_missing pen_names five_sentinels (data_fields pen_names (skipn 1 content)) (rows df))
  /\ (forall fs path t df t',
         read_enroll fs path t = (Ok df, t') ->
         exists content,
           fs path = Some content
           /\ cells_missing enroll_names ["*"; ""; "NA"] (data_fields enroll_names (skipn 1 content)) (rows df)
           /\ text_kept enroll_names enroll_dtypes [] ["-"; "--"]
                        (data_fields enroll_names (skipn 1 content)) (rows df))
  /\ (forall fs path t df t',
         read_service_area fs path t = (Ok df, t') ->
         exists content,
           fs path = Some content
           /\ cells_missing sa_names ["*"; ""; "NA"] (data_fields sa_names (skipn 1 content)) (rows df)
           /\ text_kept sa_names sa_dtypes ["partial"] ["-"; "--"]
                        (data_fields sa_names (skipn 1 content)) (rows df))
  /\ (forall fs path t df t',
         read_contract fs path t = (Ok df, t') ->
         exists content,
           fs path = Some content
           /\ cells_missing contract_names [""; "NA"] (data_fields contract_names (skipn 1 content)) (rows df)
           /\ text_kept contract_names contract_dtypes [] ["*"; "-"; "--"]
                        (data_fields contract_names (skipn 1 content)) (rows df))
  /\ (forall dt raw, In raw five_sentinels -> convert pen_na dt raw = Ok NaN)
  /\ (forall dt raw, In raw ["*"; ""; "NA"] ->
                     convert (["*"] ++ default_na) dt raw = Ok NaN)
  /\ (forall dt raw, In raw [""; "NA"] -> convert ([] ++ default_na) dt raw = Ok NaN).
Proof.
  split; [|split; [|split; [|split; [|split; [|split]]]]].
  - intros fs path t df t' Hrun.
    unfold read_penetration, bind, ret in Hrun.
    destruct (read_csv fs path 1 pen_names _ pen_dtypes t) as [[e|d] s] eqn:Ecsv;
      [discriminate|].
    inversion Hrun; subst; clear Hrun.
    destruct (read_csv_cells_missing _ _ _ [""; "NA"; "*"; "-"; "--"] _ five_sentinels
                                     _ _ _ pen_names_nodup eq_refl Ecsv)
      as [content [Hfs Hrows]].
    exists content. split; [exact Hfs|].
    change (map_col "penetration" pen_numeric
              (map_col "enrolled" pen_numeric (map_col "eligibles" pen_numeric d)))
      with (fold_left (fun d col => map_col col pen_numeric d)
                      ["eligibles"; "enrolled"; "penetration"] d).
    unfold cells_missing. rewrite rows_pen_loop. apply Forall2_map_r.
    eapply Forall2_weaken; [|exact Hrows].
    intros rec r Hrec j col raw Hj Hraw Hin. cbv beta in Hrec.
    rewrite pen_loop_get, (Hrec j col raw Hj Hraw Hin), pen_numeric_NaN.
    destruct (has_col col _); reflexivity.
  - intros fs path t df t' Hrun. unfold read_enroll in Hrun.
    destruct (read_csv_cells_missing _ _ _ ["*"] _ ["*"; ""; "NA"] _ _ _
                                     enroll_names_nodup eq_refl Hrun)
      as [content [Hfs Hrows]].
    exists content. split; [exact Hfs|]. split; [exact Hrows|].
    eapply read_csv_text_kept; eauto using enroll_names_nodup; reflexivity.
  - intros fs path t df t' Hrun.
    unfold read_service_area, bind, ret in Hrun.
    destruct (read_csv fs path 1 sa_names ["*"] sa_dtypes t) as [[e|d] s] eqn:Ecsv;
      [discriminate|].
    inversion Hrun; subst; clear Hrun.
    destruct (read_csv_cells_missing _ _ _ ["*"] _ ["*"; ""; "NA"] _ _ _
                                     sa_names_nodup eq_refl Ecsv)
      as [content [Hfs Hrows]].
    exists content. split; [exact Hfs|]. split.
    + unfold cells_missing. rewrite rows_map_col. apply Forall2_map_r.
      eapply Forall2_weaken; [|exact Hrows].
      intros rec r Hrec j col raw Hj Hraw Hin. cbv beta in Hrec.
      rewrite get_set_cell. destruct (String.eqb col "partial") eqn:E.
      * apply String.eqb_eq in E; subst col.
        rewrite (Hrec j _ raw Hj Hraw Hin). reflexivity.
      * exact (Hrec j col raw Hj Hraw Hin).
    + assert (Hkept : text_kept sa_names sa_dtypes [] ["-"; "--"]
                        (data_fields sa_names (skipn 1 content)) (rows d))
        by (eapply read_csv_text_kept; eauto using sa_names_nodup; reflexivity).
      unfold text_kept. rewrite rows_map_col. apply Forall2_map_r.
      eapply Forall2_weaken; [|exact Hkept].
      intros rec r Hrec j col raw Hj Hraw Hdt Hskip Hin. cbv beta in Hrec.
      rewrite get_set_cell.
      unfold has_col in Hskip. simpl in Hskip. rewrite orb_false_r in Hskip.
      rewrite Hskip. exact (Hrec j col raw Hj Hraw Hdt eq_refl Hin).
  - intros fs path t df t' Hrun. unfold read_contract in Hrun.
    destruct (read_csv_cells_missing _ _ _ [] _ [""; "NA"] _ _ _
                                     contract_names_nodup eq_refl Hrun)
      as [content [Hfs Hrows]].
    exists content. split; [exact Hfs|]. split; [exact Hrows|].
    eapply read_csv_text_kept; eauto using contract_names_nodup; reflexivity.
  - intros dt raw Hin. apply convert_na.
    revert raw Hin. apply In_is_na. reflexivity.
  - intros dt raw Hin. apply convert_na.
    revert raw Hin. apply In_is_na. reflexivity.
  - intros dt raw Hin. apply convert_na.
    revert raw Hin. apply In_is_na. reflexivity.
Qed.

(** C4, the claim as stated fails for the contract reader: a [*] in a text
    field of a contract file is still the string [*] in the table. *)
Lemma contract_reader_keeps_star :
  ~ (forall fs path t df t',
        read_contract fs path t = (Ok df, t') ->
        exists content,
          fs path = Some content
          /\ cells_missing contract_names five_sentinels (data_fields contract_names (skipn 1 content)) (rows df)).
Proof.
  intros H.
  destruct (read_contract contract_demo_fs "contract.csv" []) as [[e|df] t'] eqn:E.
  - vm_compute in E. discriminate.
  - destruct (H _ _ _ _ _ E) as [content [Hfs Hrows]].
    vm_compute in Hfs. inversion Hfs; subst content; clear Hfs.
    vm_compute in E. inversion E; subst df; clear E.
    simpl skipn in Hrows. simpl rows in Hrows.
    inversion Hrows as [|rec r ? ? Hr _]; subst.
    specialize (Hr 2%nat "org_type" "*" eq_refl eq_refl (or_introl eq_refl)).
    vm_compute in Hr. discriminate.
Qed.

Lemma reader_sentinels_witness :
  (exists df t' content,
      read_penetration pen_demo_fs "pen.csv" [] = (Ok df, t')
      /\ pen_demo_fs "pen.csv" = Some content
      /\ cells_missing pen_names five_sentinels (data_fields pen_names (skipn 1 content)) (rows df))
  /\ (exists df t' content,
         read_enroll contract_demo_fs "enroll.csv" [] = (Ok df, t')
         /\ contract_demo_fs "enroll.csv" = Some content
         /\ cells_missing enroll_names ["*"; ""; "NA"] (data_fields enroll_names (skipn 1 content)) (rows df)
         /\ text_kept enroll_names enroll_dtypes [] ["-"; "--"]
                        (data_fields enroll_names (skipn 1 content)) (rows df))
  /\ (exists df t' content,
         read_service_area sa_demo_fs "sa.csv" [] = (Ok df, t')
         /\ sa_demo_fs "sa.csv" = Some content
         /\ cells_missing sa_names ["*"; ""; "NA"] (data_fields sa_names (skipn 1 content)) (rows df))
  /\ (exists df t' content,
         read_contract contract_demo_fs "contract.csv" [] = (Ok df, t')
         /\ contract_demo_fs "contract.csv" = Some content
         /\ cells_missing contract_names [""; "NA"] (data_fields contract_names (skipn 1 content)) (rows df)
         /\ text_kept contract_names contract_dtypes [] ["*"; "-"; "--"]
                        (data_fields contract_names (skipn 1 content)) (rows df))
  /\ (exists df t' content,
         read_enroll surplus_demo_fs "enroll8.csv" [] = (Ok df, t')
         /\ surplus_demo_fs "enroll8.csv" = Some content
         /\ data_fields enroll_names (skipn 1 content)
            = [["H1234"; "1"; "1010"; "1001"; "AL"; "-"; "*"];
               ["H1234"; "1"; "1020"; "1003"; "AL"; "Baldwin"; "NA"]]
         /\ map (fun r => (get "county" r, get "enrollment" r)) (rows df)
            = [(Str "-", NaN); (Str "Baldwin", NaN)]
         /\ cells_missing enroll_names ["*"; ""; "NA"]
                          (data_fields enroll_names (skipn 1 content)) (rows df)
         /\ text_kept enroll_names enroll_dtypes [] ["-"; "--"]
                      (data_fields enroll_names (skipn 1 content)) (rows df)).
Proof.
  destruct reader_sentinels as [HP [HE [HS [HC _]]]].
  split; [|split; [|split; [|split]]]; cycle 4.
  { destruct (read_enroll surplus_demo_fs "enroll8.csv" []) as [[e|df] t'] eqn:E;
      [vm_compute in E; discriminate|].
    destruct (HE _ _ _ _ _ E) as [content [Hfs [H1 H2]]].
    exists df, t', content. split; [reflexivity|]. split; [exact Hfs|].
    split; [vm_compute in Hfs; inversion Hfs; reflexivity|].
    split; [vm_compute in E; inversion E; reflexivity|]. auto. }
  - destruct (read_penetration pen_demo_fs "pen.csv" []) as [[e|df] t'] eqn:E;
      [vm_compute in E; discriminate|].
    destruct (HP _ _ _ _ _ E) as [content [Hfs H]].
    exists df, t', content. auto.
  - destruct (read_enroll contract_demo_fs "enroll.csv" []) as [[e|df] t'] eqn:E;
      [vm_compute in E; discriminate|].
    destruct (HE _ _ _ _ _ E) as [content [Hfs [H1 H2]]].
    exists df, t', content. auto.
  - destruct (read_service_area sa_demo_fs "sa.csv" []) as [[e|df] t'] eqn:E;
      [vm_compute in E; discriminate|].
    destruct (HS _ _ _ _ _ E) as [content [Hfs [H1 H2]]].
    exists df, t', content. auto.
  - destruct (read_contract contract_demo_fs "contract.csv" []) as [[e|df] t'] eqn:E;
      [vm_compute in E; discriminate|].
    destruct (HC _ _ _ _ _ E) as [content [Hfs [H1 H2]]].
    exists df, t', content. auto.
Defined.

(** ** Running monadic code *)

Lemma bind_inv {S A B} (m : M S A) (f : A -> M S B) s b s' :
  bind m f s = (Ok b, s') ->
  exists a s1, m s = (Ok a, s1) /\ f a s1 = (Ok b, s').
Proof.
  unfold bind. destruct (m s) as [[e|a] s1]; [discriminate|]. eauto.
Qed.

Lemma bind_ok {S A B} (m : M S A) (f : A -> M S B) s a s1 :
  m s = (Ok a, s1) -> bind m f s = f a s1.
Proof. unfold bind. intros ->. reflexivity. Qed.

Lemma bind_raise {S A B} (m : M S A) (f : A -> M S B) s e s1 :
  m s = (Raise e, s1) -> bind m f s = (Raise e, s1).
Proof. unfold bind. intros ->. reflexivity. Qed.

Lemma lift_inv {S A} (r : result A) (s : S) a s' :
  lift r s = (Ok a, s') -> r = Ok a /\ s' = s.
Proof. unfold lift. intros H; inversion H; auto. Qed.

Lemma ret_inv {S A} (x : A) (s : S) a s' :
  ret x s = (Ok a, s') -> a = x /\ s' = s.
Proof. unfold ret. intros H; inversion H; auto. Qed.

Lemma path_exists_run fs p t :
  path_exists fs p t
  = (Ok (match fs (path_str p) with Some _ => true | None => false end),
     t ++ [EvExists (path_str p)]).
Proof. reflexivity. Qed.

Lemma int_of_str_inv m v : int_of_str m = Ok v -> py_int m = Some v.
Proof.
  unfold int_of_str. destruct (py_int m); intros H; inversion H; reflexivity.
Qed.

(** ** The monthly loaders *)

Lemma load_month_ok fs m y t out t' :
  load_month fs m y t = (Ok out, t') ->
  exists c e merged v t2,
    fs (path_str (c_path m y)) <> None
    /\ fs (path_str (e_path m y)) <> None
    /\ read_contract fs (path_str (c_path m y))
                     (t ++ [EvExists (path_str (c_path m y));
                            EvExists (path_str (e_path m y))])
       = (Ok c, t2)
    /\ read_enroll fs (path_str (e_path m y)) t2 = (Ok e, t')
    /\ merge HowLeft cpsc_keys (drop_duplicates cpsc_keys c) e = Ok merged
    /\ py_int m = Some v
    /\ out = stamp v y merged.
Proof.
  unfold load_month. intros H.
  rewrite (bind_ok _ _ _ _ _ (path_exists_run fs (c_path m y) t)) in H.
  destruct (fs (path_str (c_path m y))) as [cc|] eqn:Ec; cbn [negb] in H;
    [|discriminate].
  rewrite (bind_ok _ _ _ _ _ (path_exists_run fs (e_path m y) _)) in H.
  destruct (fs (path_str (e_path m y))) as [ec|] eqn:Ee; cbn [negb] in H;
    [|discriminate].
  rewrite <- app_assoc in H. simpl app in H.
  apply bind_inv in H as (c & t2 & Hc & H).
  apply bind_inv in H as (e & t3 & He & H).
  apply bind_inv in H as (merged & t4 & Hm & H).
  apply lift_inv in Hm as [Hm ->].
  apply bind_inv in H as (v & t5 & Hv & H).
  apply lift_inv in Hv as [Hv ->].
  apply ret_inv in H as [-> ->].
  exists c, e, merged, v, t2.
  repeat split; try discriminate; auto using int_of_str_inv.
Qed.

(** *** The paths in plain text *)

Lemma occurs_append (c : ascii) (a b : string) :
  occurs c (a ++ b) = occurs c a || occurs c b.
Proof.
  induction a as [|d a IH]; simpl; [reflexivity|].
  rewrite IH. apply orb_assoc.
Qed.

Lemma occurs_string_of_uint (d : Decimal.uint) :
  occurs "/" (NilEmpty.string_of_uint d) = false.
Proof. induction d; simpl; auto. Qed.

Lemma occurs_str_of_int (y : Z) : occurs "/" (str_of_int y) = false.
Proof.
  unfold str_of_int, NilZero.string_of_int, NilZero.string_of_uint.
  destruct (Z.to_int y) as [d|d]; destruct d; simpl; auto using occurs_string_of_uint.
Qed.

Lemma split_on_none (c : ascii) (s : string) :
  occurs c s = false -> split_on c s = [s].
Proof.
  induction s as [|d s IH]; simpl; [reflexivity|].
  intros H. apply orb_false_elim in H as [Hd Hs].
  rewrite Hd, (IH Hs). reflexivity.
Qed.

Lemma enrollment_file_path (prefix m : string) (y : Z) :
  occurs "/" prefix = false -> occurs "/" m = false ->
  path_str (enrollment_dir </> ("CPSC_" ++ prefix ++ str_of_int y ++ "_" ++ m ++ ".csv"))
  = ("/home/gdanzil/econ470/a0/work/ma-data/ma/enrollment/Extracted Data/CPSC_"
      ++ prefix ++ str_of_int y ++ "_" ++ m ++ ".csv")%string.
Proof.
  intros Hp Hm.
  assert (Hfile : occurs "/" ("CPSC_" ++ prefix ++ str_of_int y ++ "_" ++ m ++ ".csv")%string
                  = false).
  { rewrite !occurs_append, Hp, Hm, occurs_str_of_int. reflexivity. }
  unfold path_div, path_str, parse_parts.
  change (is_absolute ("CPSC_" ++ prefix ++ str_of_int y ++ "_" ++ m ++ ".csv")%string)
    with false.
  cbv iota. rewrite (split_on_none _ _ Hfile). reflexivity.
Qed.

Lemma c_path_plain (m : string) (y : Z) :
  occurs "/" m = false ->
  path_str (c_path m y)
  = ("/home/gdanzil/econ470/a0/work/ma-data/ma/enrollment/Extracted Data/CPSC_Contract_Info_"
      ++ str_of_int y ++ "_" ++ m ++ ".csv")%string.
Proof. intros Hm. exact (enrollment_file_path "Contract_Info_" m y eq_refl Hm). Qed.

Lemma e_path_plain (m : string) (y : Z) :
  occurs "/" m = false ->
  path_str (e_path m y)
  = ("/home/gdanzil/econ470/a0/work/ma-data/ma/enrollment/Extracted Data/CPSC_Enrollment_Info_"
      ++ str_of_int y ++ "_" ++ m ++ ".csv")%string.
Proof. intros Hm. exact (enrollment_file_path "Enrollment_Info_" m y eq_refl Hm). Qed.

(** C3.  A loader asked for a period whose file does not exist raises a
    missing-file error that names the path it looked for, and the trace
    of its file accesses shows that nothing was opened or parsed: for the
    plan/enrollment loader the contract file is checked first, and when
    the contract file exists and the enrollment file does not the error
    names the enrollment path; for the service-area and penetration
    loaders the error is the one raised on opening the file, which carries
    the path. *)
Theorem loaders_missing_file fs m y t :
  (fs (path_str (c_path m y)) = None ->
   load_month fs m y t
   = (Raise (FileNotFoundError ("Missing contract file: " ++ path_str (c_path m y))),
      t ++ [EvExists (path_str (c_path m y))]))
  /\ (fs (path_str (c_path m y)) <> None ->
      fs (path_str (e_path m y)) = None ->
      load_month fs m y t
      = (Raise (FileNotFoundError ("Missing enrollment file: " ++ path_str (e_path m y))),
         t ++ [EvExists (path_str (c_path m y)); EvExists (path_str (e_path m y))]))
  /\ (fs (sa_path m y) = None ->
      load_month_sa fs m y t = (Raise (ENOENT (sa_path m y)), t))
  /\ (fs (pen_path m y) = None ->
      load_month_pen fs m y t = (Raise (ENOENT (pen_path m y)), t))
  /\ (occurs "/" m = false ->
      path_str (c_path m y)
      = ("/home/gdanzil/econ470/a0/work/ma-data/ma/enrollment/Extracted Data/CPSC_Contract_Info_"
          ++ str_of_int y ++ "_" ++ m ++ ".csv")%string
      /\ path_str (e_path m y)
         = ("/home/gdanzil/econ470/a0/work/ma-data/ma/enrollment/Extracted Data/CPSC_Enrollment_Info_"
             ++ str_of_int y ++ "_" ++ m ++ ".csv")%string).
Proof.
  split; [|split; [|split; [|split]]]; [| | | |auto using c_path_plain, e_path_plain].
  - intros Hc. unfold load_month.
    rewrite (bind_ok _ _ _ _ _ (path_exists_run fs (c_path m y) t)).
    rewrite Hc. reflexivity.
  - intros Hc He. unfold load_month.
    rewrite (bind_ok _ _ _ _ _ (path_exists_run fs (c_path m y) t)).
    destruct (fs (path_str (c_path m y))); [|contradiction]. cbn [negb].
    rewrite (bind_ok _ _ _ _ _ (path_exists_run fs (e_path m y) _)).
    rewrite He. cbn [negb]. unfold raise.
    rewrite <- app_assoc. reflexivity.
  - intros H. unfold load_month_sa, read_service_area.
    erewrite bind_raise; [reflexivity|].
    erewrite bind_raise; [reflexivity|].
    apply read_csv_missing. exact H.
  - intros H. unfold load_month_pen, read_penetration.
    erewrite bind_raise; [reflexivity|].
    erewrite bind_raise; [reflexivity|].
    apply read_csv_missing. exact H.
Qed.

Lemma loaders_missing_file_witness :
  load_month month_demo_fs "03" 2015 []
  = (Raise (FileNotFoundError
              "Missing contract file: /home/gdanzil/econ470/a0/work/ma-data/ma/enrollment/Extracted Data/CPSC_Contract_Info_2015_03.csv"),
     [EvExists "/home/gdanzil/econ470/a0/work/ma-data/ma/enrollment/Extracted Data/CPSC_Contract_Info_2015_03.csv"])
  /\ load_month month_demo_fs "02" 2015 []
     = (Raise (FileNotFoundError
                 "Missing enrollment file: /home/gdanzil/econ470/a0/work/ma-data/ma/enrollment/Extracted Data/CPSC_Enrollment_Info_2015_02.csv"),
        [EvExists "/home/gdanzil/econ470/a0/work/ma-data/ma/enrollment/Extracted Data/CPSC_Contract_Info_2015_02.csv";
         EvExists "/home/gdanzil/econ470/a0/work/ma-data/ma/enrollment/Extracted Data/CPSC_Enrollment_Info_2015_02.csv"])
  /\ load_month_sa month_demo_fs "01" 2015 []
     = (Raise (ENOENT "../../ma-data/ma/service-area/Extracted Data/MA_Cnty_SA_2015_01.csv"), [])
  /\ load_month_pen month_demo_fs "01" 2015 []
     = (Raise (ENOENT "../../ma-data/ma/penetration/Extracted Data/State_County_Penetration_MA_2015_01.csv"), []).
Proof.
  split; [|split; [|split]].
  - apply (proj1 (loaders_missing_file month_demo_fs "03" 2015 [])).
    vm_compute. reflexivity.
  - apply (proj1 (proj2 (loaders_missing_file month_demo_fs "02" 2015 []))).
    + vm_compute. discriminate.
    + vm_compute. reflexivity.
  - apply (proj1 (proj2 (proj2 (loaders_missing_file month_demo_fs "01" 2015 [])))).
    vm_compute. reflexivity.
  - apply (proj1 (proj2 (proj2 (proj2 (loaders_missing_file month_demo_fs "01" 2015 []))))).
    vm_compute. reflexivity.
Defined.

Lemma rows_stamp (v y : Z) (df : DataFrame) :
  rows (stamp v y df)
  = map (fun r => set_cell "year" (Num (float_of_Z y))
                           (set_cell "month" (Num (float_of_Z v)) r))
        (rows df).
Proof. unfold stamp, setitem_scalar; simpl. apply map_map. Qed.

Lemma get_stamped (col : string) (v y : Z) (r : row) :
  get col (set_cell "year" (Num (float_of_Z y)) (set_cell "month" (Num (float_of_Z v)) r))
  = if String.eqb col "year" then Num (float_of_Z y)
    else if String.eqb col "month" then Num (float_of_Z v)
    else get col r.
Proof. rewrite !get_set_cell. reflexivity. Qed.

(** C9.  Whenever the plan/enrollment loader returns a table for a month
    string [m] and a year [y], [m] reads as an integer and every row of
    the table, matched with an enrollment record or not, has that integer
    in its month column and [y] in its year column. *)
Theorem load_month_stamp fs m y t out t'
        (Hrun : load_month fs m y t = (Ok out, t')) :
  exists v,
    py_int m = Some v
    /\ forall r, In r (rows out) ->
                 get "month" r = Num (float_of_Z v)
                 /\ get "year" r = Num (float_of_Z y).
Proof.
  destruct (load_month_ok _ _ _ _ _ _ Hrun)
    as (c & e & merged & v & t2 & _ & _ & _ & _ & _ & Hv & ->).
  exists v. split; [exact Hv|].
  intros r Hr. rewrite rows_stamp in Hr.
  apply in_map_iff in Hr as [r0 [<- _]].
  rewrite !get_stamped. split; reflexivity.
Qed.

Lemma load_month_stamp_witness :
  exists out t',
    load_month month_demo_fs "01" 2015 [] = (Ok out, t')
    /\ map (fun r => [get "contractid" r; get "planid" r; get "county" r;
                      get "enrollment" r; get "month" r; get "year" r])
           (rows out)
       = [[Str "H1234"; Num (Fin 1); Str "Autauga"; Num (Fin 25); Num (Fin 1); Num (Fin 2015)];
          [Str "H1234"; Num (Fin 1); Str "Baldwin"; NaN; Num (Fin 1); Num (Fin 2015)];
          [Str "H1234"; Num (Fin 2); NaN; NaN; Num (Fin 1); Num (Fin 2015)]]
    /\ exists v,
        py_int "01" = Some v
        /\ forall r, In r (rows out) ->
                     get "month" r = Num (float_of_Z v)
                     /\ get "year" r = Num (float_of_Z 2015).
Proof.
  destruct (load_month month_demo_fs "01" 2015 []) as [[e|out] t'] eqn:E.
  - vm_compute in E. discriminate.
  - exists out, t'. split; [reflexivity|]. split.
    + vm_compute in E. inversion E. reflexivity.
    + exact (load_month_stamp _ _ _ _ _ _ E).
Defined.

(** ** Left join: counting rows *)

Lemma length_flat_map_sum {A B} (f : A -> list B) (l : list A) :
  List.length (flat_map f l) = list_sum (map (fun x => List.length (f x)) l).
Proof.
  induction l as [|a l IH]; simpl; [reflexivity|].
  rewrite length_app, IH. reflexivity.
Qed.

Lemma length_join_row (on rcols : list string) (R : list row) (l : row) :
  List.length (join_row on rcols R l) = Nat.max 1 (List.length (matches on l R)).
Proof.
  unfold join_row. destruct (matches on l R) as [|x ms]; simpl; [reflexivity|].
  rewrite length_map. reflexivity.
Qed.

Lemma list_sum_ge_length {A} (f : A -> nat) (l : list A) :
  (forall x, In x l -> 1 <= f x) -> List.length l <= list_sum (map f l).
Proof.
  induction l as [|a l IH]; simpl; intros H; [lia|].
  pose proof (H a (or_introl eq_refl)). 
  assert (List.length l <= list_sum (map f l)) by (apply IH; intros; apply H; auto).
  lia.
Qed.

Lemma list_sum_all_one {A} (f : A -> nat) (l : list A) :
  (forall x, In x l -> f x = 1) -> list_sum (map f l) = List.length l.
Proof.
  induction l as [|a l IH]; simpl; intros H; [reflexivity|].
  rewrite (H a (or_introl eq_refl)), IH; auto.
Qed.

Lemma merge_inv (h : how) (on : list string) (L R d : DataFrame) :
  merge h on L R = Ok d ->
  (forall c, In c on -> has_col c (columns L) = true /\ has_col c (columns R) = true)
  /\ columns d = columns L ++ non_key on (columns R)
  /\ rows d
     = flat_map (join_row on (columns R) (rows R)) (rows L)
       ++ match h with
          | HowLeft => []
          | HowOuter =>
              map (right_only on (columns L) (columns R)) (unmatched on (rows L) (rows R))
          end.
Proof.
  unfold merge.
  destruct (find _ on) as [c|] eqn:Ef; [discriminate|].
  destruct (find (kinds_clash (rows L) (rows R)) on) as [c|] eqn:Ek; [discriminate|].
  intros H; inversion H; subst d; clear H. simpl. repeat split.
  - pose proof (find_none _ _ Ef c H) as Hc. simpl in Hc.
    apply negb_false_iff in Hc. apply andb_prop in Hc. tauto.
  - pose proof (find_none _ _ Ef c H) as Hc. simpl in Hc.
    apply negb_false_iff in Hc. apply andb_prop in Hc. tauto.
Qed.

Lemma drop_dups_In (on : list string) (rs : list row) :
  forall seen r, In r (drop_dups on seen rs) -> In r rs.
Proof.
  induction rs as [|x rs IH]; simpl; intros seen r H; [exact H|].
  destruct (key_mem (key_of on x) seen).
  - right. eapply IH; eauto.
  - destruct H as [H|H]; [left; exact H | right; eapply IH; eauto].
Qed.

Lemma read_record_names na dtypes names :
  forall fields r, read_record na dtypes names fields = Ok r -> map fst r = names.
Proof.
  induction names as [|n names IH]; intros fields r H.
  - destruct fields; simpl in H; inversion H; reflexivity.
  - destruct fields as [|f fields]; simpl in H.
    + destruct (read_record na dtypes names []) as [e|r'] eqn:Er; simpl in H; [discriminate|].
      inversion H; subst. simpl. f_equal. eapply IH; eauto.
    + destruct (convert _ _ f) as [e|c]; simpl in H; [discriminate|].
      destruct (read_record na dtypes names fields) as [e|r'] eqn:Er; simpl in H; [discriminate|].
      inversion H; subst. simpl. f_equal. eapply IH; eauto.
Qed.

Lemma read_csv_row_names fs path k names na dtypes t df t' :
  read_csv fs path k names na dtypes t = (Ok df, t') ->
  forall r, In r (rows df) -> map fst r = names.
Proof.
  intros H r Hr.
  destruct (read_csv_ok _ _ _ _ _ _ _ _ _ H) as [content [_ [_ [_ Hrows]]]].
  revert Hr. induction Hrows as [|rec r0 recs rs Hrec _ IH]; simpl; [tauto|].
  intros [<-|Hr]; [eapply read_record_names; eauto | auto].
Qed.

Lemma get_contract_part (l x : row) (v y : Z) (col : string) :
  map fst l = contract_names -> In col contract_names ->
  get col (set_cell "year" (Num (float_of_Z y))
                    (set_cell "month" (Num (float_of_Z v)) (l ++ x)))
  = get col l.
Proof.
  intros Hl Hcol. rewrite get_stamped, get_app, Hl.
  replace (has_col col contract_names) with true
    by (symmetry; apply has_col_In; exact Hcol).
  simpl in Hcol.
  repeat (destruct Hcol as [<-|Hcol]; [reflexivity|]). destruct Hcol.
Qed.

Lemma get_enroll_absent (l : row) (v y : Z) (col : string) :
  map fst l = contract_names -> In col enroll_fields ->
  get col (set_cell "year" (Num (float_of_Z y))
                    (set_cell "month" (Num (float_of_Z v))
                              (l ++ na_row (non_key cpsc_keys enroll_names))))
  = NaN.
Proof.
  intros Hl Hcol. rewrite get_stamped, get_app, Hl.
  simpl in Hcol.
  repeat (destruct Hcol as [<-|Hcol]; [reflexivity|]). destruct Hcol.
Qed.

(** C1 (as amended).  The left join of [load_month] never drops a contract
    row: each row of the contract table deduplicated on (contractid,
    planid) appears once for every enrollment record with its key, and
    exactly once, with the enrollment fields missing, when there is none.
    The row count of the output is therefore at least the deduplicated
    count, and equal to it when no contract key has two enrollment
    records. *)
Theorem load_month_rows fs m y t out t'
        (Hrun : load_month fs m y t = (Ok out, t')) :
  exists c e t1 t2,
    read_contract fs (path_str (c_path m y)) t1 = (Ok c, t2)
    /\ read_enroll fs (path_str (e_path m y)) t2 = (Ok e, t')
    /\ let L := rows (drop_duplicates cpsc_keys c) in
       let n := fun l => List.length (matches cpsc_keys l (rows e)) in
       List.length (rows out) = list_sum (map (fun l => Nat.max 1 (n l)) L)
       /\ List.length L <= List.length (rows out)
       /\ ((forall l, In l L -> n l <= 1) -> List.length (rows out) = List.length L)
       /\ (forall l, In l L ->
                     exists r, In r (rows out)
                               /\ forall col, In col contract_names -> get col r = get col l)
       /\ (forall l, In l L -> n l = 0 ->
                     exists r, In r (rows out)
                               /\ (forall col, In col contract_names -> get col r = get col l)
                               /\ (forall col, In col enroll_fields -> get col r = NaN)).
Proof.
  destruct (load_month_ok _ _ _ _ _ _ Hrun)
    as (c & e & merged & v & t2 & _ & _ & Hc & He & Hm & Hv & ->).
  do 2 eexists. exists (t ++ [EvExists (path_str (c_path m y)); EvExists (path_str (e_path m y))]), t2.
  split; [exact Hc|]. split; [exact He|].
  destruct (merge_inv _ _ _ _ _ Hm) as (_ & _ & Hrows).
  rewrite app_nil_r in Hrows. cbv zeta.
  assert (Hlen : List.length (rows (stamp v y merged))
                 = list_sum (map (fun l => Nat.max 1 (List.length (matches cpsc_keys l (rows e))))
                                 (rows (drop_duplicates cpsc_keys c)))).
  { rewrite rows_stamp, length_map, Hrows, length_flat_map_sum.
    f_equal. apply map_ext. intros l. apply length_join_row. }
  assert (Hnames : forall l, In l (rows (drop_duplicates cpsc_keys c)) ->
                             map fst l = contract_names).
  { intros l Hl. eapply read_csv_row_names; [exact Hc|].
    simpl in Hl. eapply drop_dups_In; eauto. }
  assert (Hcols : columns e = enroll_names).
  { destruct (read_csv_ok _ _ _ _ _ _ _ _ _ He) as [? [_ [_ [H _]]]]. exact H. }
  split; [exact Hlen|]. split; [|split; [|split]].
  - rewrite Hlen. apply list_sum_ge_length. intros; lia.
  - intros H1. rewrite Hlen. apply list_sum_all_one.
    intros l Hl. specialize (H1 l Hl). lia.
  - intros l Hl.
    assert (Hex : exists x, In (l ++ x) (rows merged)).
    { rewrite Hrows.
      destruct (join_row cpsc_keys (columns e) (rows e) l) as [|r0 rs] eqn:Ej.
      - pose proof (length_join_row cpsc_keys (columns e) (rows e) l) as Hl1.
        rewrite Ej in Hl1. cbn [List.length] in Hl1. lia.
      - assert (Hin : In r0 (join_row cpsc_keys (columns e) (rows e) l))
          by (rewrite Ej; left; reflexivity).
        unfold join_row in Hin.
        destruct (matches cpsc_keys l (rows e)) as [|m0 ms].
        + destruct Hin as [<-|[]]. eexists. apply in_flat_map. exists l.
          split; [exact Hl|]. rewrite Ej. left. reflexivity.
        + apply in_map_iff in Hin as [m1 [<- _]]. eexists. apply in_flat_map.
          exists l. split; [exact Hl|]. rewrite Ej. left. reflexivity. }
    destruct Hex as [x Hx].
    eexists. split.
    + rewrite rows_stamp. apply in_map_iff. eexists. split; [reflexivity|exact Hx].
    + intros col Hcol. apply get_contract_part; auto.
  - intros l Hl Hn.
    exists (set_cell "year" (Num (float_of_Z y))
                     (set_cell "month" (Num (float_of_Z v))
                               (l ++ na_row (non_key cpsc_keys enroll_names)))).
    split; [|split].
    + rewrite rows_stamp. apply in_map_iff. eexists. split; [reflexivity|].
      rewrite Hrows. apply in_flat_map. exists l. split; [exact Hl|].
      unfold join_row. apply length_zero_iff_nil in Hn. rewrite Hn, Hcols.
      left. reflexivity.
    + intros col Hcol. apply get_contract_part; auto.
    + intros col Hcol. apply get_enroll_absent; auto.
Qed.

(** C1, the claim as stated fails: a contract row with two enrollment
    records (two counties) appears twice, so the output has more rows than
    the deduplicated contract table. *)
Lemma load_month_duplicates_contract_row :
  exists out t' c tc,
    load_month month_demo_fs "01" 2015 [] = (Ok out, t')
    /\ read_contract month_demo_fs (path_str (c_path "01" 2015)) [] = (Ok c, tc)
    /\ List.length (rows (drop_duplicates cpsc_keys c)) = 2
    /\ List.length (rows out) = 3
    /\ List.length (rows out) <> List.length (rows (drop_duplicates cpsc_keys c)).
Proof.
  destruct (load_month month_demo_fs "01" 2015 []) as [[e|out] t'] eqn:E;
    [vm_compute in E; discriminate|].
  destruct (read_contract month_demo_fs (path_str (c_path "01" 2015)) [])
    as [[e|c] tc] eqn:Ec; [vm_compute in Ec; discriminate|].
  exists out, t', c, tc. split; [reflexivity|]. split; [reflexivity|].
  vm_compute in E. inversion E; subst out; clear E.
  vm_compute in Ec. inversion Ec; subst c; clear Ec.
  vm_compute. repeat split; discriminate.
Qed.

Lemma load_month_rows_witness :
  exists out t' c e t1 t2,
    load_month month_demo_fs "01" 2015 [] = (Ok out, t')
    /\ read_contract month_demo_fs (path_str (c_path "01" 2015)) t1 = (Ok c, t2)
    /\ read_enroll month_demo_fs (path_str (e_path "01" 2015)) t2 = (Ok e, t')
    /\ List.length (rows out)
       = list_sum (map (fun l => Nat.max 1 (List.length (matches cpsc_keys l (rows e))))
                       (rows (drop_duplicates cpsc_keys c)))
    /\ List.length (rows (drop_duplicates cpsc_keys c)) <= List.length (rows out).
Proof.
  destruct (load_month month_demo_fs "01" 2015 []) as [[x|out] t'] eqn:E;
    [vm_compute in E; discriminate|].
  destruct (load_month_rows _ _ _ _ _ _ E) as (c & e & t1 & t2 & Hc & He & H1 & H2 & _).
  exists out, t', c, e, t1, t2. auto.
Defined.

(** ** Key equality is an equivalence *)

Lemma float_eqb_refl (f : float64) : float_eqb f f = true.
Proof. destruct f; simpl; auto using Qeq_bool_refl. Qed.

Lemma float_eqb_sym (f g : float64) : float_eqb f g = float_eqb g f.
Proof. destruct f, g; simpl; auto using Qeq_bool_comm. Qed.

Lemma float_eqb_trans (f g h : float64) :
  float_eqb f g = true -> float_eqb g h = true -> float_eqb f h = true.
Proof.
  destruct f, g, h; simpl; try discriminate; auto.
  apply Qeq_bool_trans.
Qed.

Lemma cell_eqb_refl (c : cell) : cell_eqb c c = true.
Proof.
  destruct c; simpl; auto using String.eqb_refl, float_eqb_refl.
  destruct b; reflexivity.
Qed.

Lemma cell_eqb_sym (a b : cell) : cell_eqb a b = cell_eqb b a.
Proof.
  destruct a, b; simpl; auto using String.eqb_sym, float_eqb_sym.
  destruct b, b0; reflexivity.
Qed.

Lemma cell_eqb_trans (a b c : cell) :
  cell_eqb a b = true -> cell_eqb b c = true -> cell_eqb a c = true.
Proof.
  destruct a, b, c; simpl; try discriminate; auto.
  - intros H1 H2. apply String.eqb_eq in H1, H2. subst. apply String.eqb_refl.
  - apply float_eqb_trans.
  - destruct b, b0, b1; simpl; auto.
Qed.

Lemma key_eqb_refl (k : key) : key_eqb k k = true.
Proof. induction k; simpl; [reflexivity|]. rewrite cell_eqb_refl, IHk. reflexivity. Qed.

Lemma key_eqb_sym (a b : key) : key_eqb a b = key_eqb b a.
Proof.
  revert b; induction a as [|x a IH]; intros [|y b]; simpl; auto.
  rewrite cell_eqb_sym, IH. reflexivity.
Qed.

Lemma key_eqb_trans (a b c : key) :
  key_eqb a b = true -> key_eqb b c = true -> key_eqb a c = true.
Proof.
  revert b c; induction a as [|x a IH]; intros [|y b] [|z c]; simpl;
    try discriminate; auto.
  intros H1 H2. apply andb_prop in H1 as [H1 H1'], H2 as [H2 H2'].
  rewrite (cell_eqb_trans _ _ _ H1 H2), (IH _ _ H1' H2'). reflexivity.
Qed.

Lemma key_eqb_compat_l (a b c : key) :
  key_eqb a b = true -> key_eqb a c = key_eqb b c.
Proof.
  intros H. destruct (key_eqb b c) eqn:E.
  - eapply key_eqb_trans; eauto.
  - destruct (key_eqb a c) eqn:E'; [|reflexivity].
    rewrite key_eqb_sym in H. rewrite (key_eqb_trans _ _ _ H E') in E. discriminate.
Qed.

Lemma key_eqb_compat_r (a b c : key) :
  key_eqb a b = true -> key_eqb c a = key_eqb c b.
Proof.
  intros H. rewrite (key_eqb_sym c a), (key_eqb_sym c b).
  apply key_eqb_compat_l. exact H.
Qed.

Lemma key_mem_compat (a b : key) (seen : list key) :
  key_eqb a b = true -> key_mem a seen = key_mem b seen.
Proof.
  intros H. induction seen as [|k seen IH]; simpl; [reflexivity|].
  rewrite IH, (key_eqb_compat_l _ _ _ H). reflexivity.
Qed.

Lemma key_has_nan_compat (a b : key) :
  key_eqb a b = true -> key_has_nan a = key_has_nan b.
Proof.
  revert b; induction a as [|x a IH]; intros [|y b]; simpl; try discriminate; auto.
  intros H. apply andb_prop in H as [H1 H2]. rewrite (IH _ H2).
  destruct x, y; simpl in *; try discriminate; reflexivity.
Qed.

(** ** Deduplication *)

Section Dedup.

Variable on : list string.

Lemma drop_dups_distinct (rs : list row) :
  forall seen, distinct_from on seen (drop_dups on seen rs).
Proof.
  induction rs as [|r rs IH]; simpl; intros seen; [exact I|].
  destruct (key_mem (key_of on r) seen) eqn:E; simpl; auto.
Qed.

Lemma drop_dups_fixed (rs : list row) :
  forall seen, distinct_from on seen rs -> drop_dups on seen rs = rs.
Proof.
  induction rs as [|r rs IH]; simpl; intros seen H; [reflexivity|].
  destruct H as [H1 H2]. rewrite H1. f_equal. apply IH. exact H2.
Qed.

Lemma drop_dups_idem (seen : list key) (rs : list row) :
  drop_dups on seen (drop_dups on seen rs) = drop_dups on seen rs.
Proof. apply drop_dups_fixed, drop_dups_distinct. Qed.

Lemma distinct_from_count (k : key) (rs : list row) :
  forall seen, distinct_from on seen rs ->
               count_key on k rs <= 1
               /\ (key_mem k seen = true -> count_key on k rs = 0).
Proof.
  unfold count_key.
  induction rs as [|r rs IH]; simpl; intros seen H; [split; auto|].
  destruct H as [H1 H2]. destruct (IH _ H2) as [IH1 IH2].
  destruct (key_eqb k (key_of on r)) eqn:E; simpl.
  - rewrite IH2 by (simpl; rewrite E; reflexivity).
    split; [lia|]. intros Hk. rewrite (key_mem_compat _ _ _ E) in Hk. congruence.
  - split; [exact IH1|]. intros Hk. apply IH2. simpl. rewrite Hk. apply orb_true_r.
Qed.

Lemma drop_dups_count (k : key) (rs : list row) :
  forall seen,
    count_key on k (drop_dups on seen rs)
    = if key_mem k seen then 0
      else if existsb (fun r => key_eqb k (key_of on r)) rs then 1 else 0.
Proof.
  unfold count_key.
  induction rs as [|r rs IH]; simpl; intros seen.
  - destruct (key_mem k seen); reflexivity.
  - destruct (key_mem (key_of on r) seen) eqn:Er.
    + rewrite IH. destruct (key_mem k seen) eqn:Ek; [reflexivity|].
      destruct (key_eqb k (key_of on r)) eqn:E; [|reflexivity].
      rewrite (key_mem_compat _ _ _ E) in Ek. congruence.
    + simpl. destruct (key_eqb k (key_of on r)) eqn:E; simpl; rewrite IH; simpl; rewrite E.
      * rewrite (key_mem_compat _ _ _ E), Er. reflexivity.
      * reflexivity.
Qed.

Lemma drop_dups_first (k : key) (rs : list row) :
  forall seen, key_mem k seen = false ->
               first_with on k (drop_dups on seen rs) = first_with on k rs.
Proof.
  unfold first_with.
  induction rs as [|r rs IH]; simpl; intros seen Hk; [reflexivity|].
  destruct (key_eqb k (key_of on r)) eqn:E.
  - rewrite <- (key_mem_compat _ _ _ E), Hk. simpl. rewrite E. reflexivity.
  - destruct (key_mem (key_of on r) seen); simpl.
    + apply IH. exact Hk.
    + rewrite E. apply IH. simpl. rewrite E, Hk. reflexivity.
Qed.

End Dedup.

(** C8.  Dropping duplicates on a key, keeping the first occurrence, is
    idempotent: applied to its own output it returns that output, for the
    (contractid, planid) key of the loader and the four-column key of the
    merger as for any other key. *)
Theorem drop_duplicates_idempotent :
  (forall on df, drop_duplicates on (drop_duplicates on df) = drop_duplicates on df)
  /\ (forall df, drop_duplicates cpsc_keys (drop_duplicates cpsc_keys df)
                 = drop_duplicates cpsc_keys df)
  /\ (forall df, drop_duplicates plan_keys (drop_duplicates plan_keys df)
                 = drop_duplicates plan_keys df).
Proof.
  assert (H : forall on df, drop_duplicates on (drop_duplicates on df) = drop_duplicates on df).
  { intros on df. unfold drop_duplicates. simpl. f_equal. apply drop_dups_idem. }
  auto.
Qed.

Example drop_duplicates_ex :
  let r1 := [("contractid", Str "H1"); ("planid", Num (Fin 1)); ("plan_name", Str "a")] in
  let r2 := [("contractid", Str "H1"); ("planid", Num (Fin (2 # 2))); ("plan_name", Str "b")] in
  let r3 := [("contractid", NaN); ("planid", NaN); ("plan_name", Str "c")] in
  let r4 := [("contractid", NaN); ("planid", NaN); ("plan_name", Str "d")] in
  rows (drop_duplicates cpsc_keys (mkDF ["contractid"; "planid"; "plan_name"] [r1; r2; r3; r4]))
  = [r1; r3].
Proof. reflexivity. Qed.

(** ** The store: what a computation leaves untouched *)

Lemma length_update_nth {A} (l : list A) :
  forall n x, List.length (update_nth n x l) = List.length l.
Proof.
  induction l as [|a l IH]; intros [|n] x; simpl; auto.
Qed.

Lemma nth_error_update_nth_other {A} (l : list A) :
  forall n x k, k <> n -> nth_error (update_nth n x l) k = nth_error l k.
Proof.
  induction l as [|a l IH]; intros [|n] x [|k] H; simpl; auto; try congruence.
Qed.

Lemma preserves_ret {A} n (a : A) (Q : A -> Prop) : Q a -> preserves n (ret a) Q.
Proof. intros HQ h0 h Hk. simpl. auto. Qed.

Lemma preserves_lift {A} n (r : result A) : preserves n (lift r) (fun _ => True).
Proof. intros h0 h Hk. simpl. split; [exact Hk|]. destruct r; exact I. Qed.

Lemma preserves_bind {A B} n (m : M heap A) (f : A -> M heap B) Q Q' :
  preserves n m Q -> (forall a, Q a -> preserves n (f a) Q') ->
  preserves n (bind m f) Q'.
Proof.
  intros Hm Hf h0 h Hk. unfold bind.
  destruct (Hm h0 h Hk) as [Hk1 HQ].
  destruct (m h) as [[e|a] h1]; simpl in *.
  - split; [exact Hk1 | exact I].
  - exact (Hf a HQ h0 h1 Hk1).
Qed.

Lemma preserves_weaken {A} n (m : M heap A) (Q Q' : A -> Prop) :
  (forall a, Q a -> Q' a) -> preserves n m Q -> preserves n m Q'.
Proof.
  intros HQ Hm h0 h Hk. destruct (Hm h0 h Hk) as [H1 H2]. split; [exact H1|].
  destruct (fst (m h)); auto.
Qed.

Lemma preserves_new_frame n (df : DataFrame) :
  preserves n (new_frame df) (fun l => n <= l).
Proof.
  intros h0 h [Hlen Hk]. unfold new_frame. simpl. split; [split|].
  - rewrite length_app. lia.
  - intros l Hl. rewrite nth_error_app1 by lia. auto.
  - exact Hlen.
Qed.

Lemma preserves_deref n (l : loc) : preserves n (deref l) (fun _ => True).
Proof.
  intros h0 h Hk. unfold deref. destruct (nth_error h l); simpl; auto.
Qed.

Lemma preserves_assign n (l : loc) (df : DataFrame) :
  n <= l -> preserves n (assign l df) (fun _ => True).
Proof.
  intros Hl h0 h [Hlen Hk]. unfold assign. simpl. split; [split|exact I].
  - rewrite length_update_nth. exact Hlen.
  - intros k Hlt. rewrite nth_error_update_nth_other by lia. auto.
Qed.

Ltac preserves_steps :=
  repeat first
    [ apply preserves_new_frame
    | apply preserves_deref
    | apply preserves_lift
    | (apply preserves_assign; assumption)
    | (apply preserves_ret; exact I)
    | (eapply preserves_bind; [|intros ? ?]) ].

Lemma preserves_alloc_op n (l : loc) (f : DataFrame -> result DataFrame) :
  preserves n (df <- deref l ;; d <- lift (f df) ;; new_frame d) (fun l' => n <= l').
Proof. preserves_steps. Qed.

Lemma preserves_update_op n (l : loc) (f : DataFrame -> DataFrame) :
  n <= l -> preserves n (df <- deref l ;; assign l (f df)) (fun _ => True).
Proof. intros Hl. preserves_steps. Qed.

Lemma preserves_getitem_cols n cols l :
  preserves n (df_getitem_cols cols l) (fun l' => n <= l').
Proof. apply preserves_alloc_op. Qed.

Lemma preserves_copy n l : preserves n (df_copy l) (fun l' => n <= l').
Proof. unfold df_copy. preserves_steps. Qed.

Lemma preserves_sort_values n on l :
  preserves n (df_sort_values on l) (fun l' => n <= l').
Proof. unfold df_sort_values. preserves_steps. Qed.

Lemma preserves_drop_duplicates n on l :
  preserves n (df_drop_duplicates on l) (fun l' => n <= l').
Proof. unfold df_drop_duplicates. preserves_steps. Qed.

Lemma preserves_groupby_ffill n on col l :
  preserves n (df_groupby_ffill on col l) (fun _ => True).
Proof. unfold df_groupby_ffill. preserves_steps. Qed.

Lemma preserves_merge n h on l r :
  preserves n (df_merge h on l r) (fun l' => n <= l').
Proof. unfold df_merge. preserves_steps. Qed.

Lemma preserves_setitem_series n col vs l :
  n <= l -> preserves n (df_setitem_series col vs l) (fun _ => True).
Proof. intros. apply preserves_update_op. assumption. Qed.

Lemma preserves_setitem_ffill n on cols l :
  n <= l -> preserves n (df_setitem_ffill on cols l) (fun _ => True).
Proof. intros. apply preserves_update_op. assumption. Qed.

Lemma preserves_setitem_to_numeric n col l :
  n <= l -> preserves n (df_setitem_to_numeric col l) (fun _ => True).
Proof. intros. apply preserves_update_op. assumption. Qed.

Lemma preserves_setitem_scalar n col v l :
  n <= l -> preserves n (df_setitem_scalar col v l) (fun _ => True).
Proof. intros. apply preserves_update_op. assumption. Qed.

Lemma preserves_mapd_clean_merge n ma mapd y :
  preserves n (mapd_clean_merge ma mapd y) (fun l => n <= l).
Proof.
  unfold mapd_clean_merge.
  eapply preserves_bind; [apply preserves_getitem_cols|]. intros a1 H1.
  eapply preserves_bind; [apply preserves_copy|]. intros a2 H2.
  eapply preserves_bind; [apply preserves_sort_values|]. intros a3 H3.
  eapply preserves_bind; [apply preserves_groupby_ffill|]. intros filled _.
  eapply preserves_bind; [apply preserves_setitem_series; exact H3|]. intros _ _.
  eapply preserves_bind; [apply preserves_drop_duplicates|]. intros a4 H4.
  eapply preserves_bind; [apply preserves_getitem_cols|]. intros b1 G1.
  eapply preserves_bind; [apply preserves_copy|]. intros b2 G2.
  eapply preserves_bind; [apply preserves_setitem_to_numeric; exact G2|]. intros _ _.
  eapply preserves_bind; [apply preserves_sort_values|]. intros b3 G3.
  eapply preserves_bind; [apply preserves_setitem_ffill; exact G3|]. intros _ _.
  eapply preserves_bind; [apply preserves_drop_duplicates|]. intros b4 G4.
  eapply preserves_bind; [apply preserves_merge|]. intros p Hp.
  eapply preserves_bind; [apply preserves_setitem_scalar; exact Hp|]. intros _ _.
  apply preserves_ret. exact Hp.
Qed.

(** C10.  [mapd_clean_merge] leaves its two arguments as they were: after
    the call, whatever its outcome, the objects [ma_data] and [mapd_data]
    refer to hold the frames they held before, and so does every other
    object that existed before the call (the arguments may even be the
    same object). *)
Theorem mapd_clean_merge_frame (h : heap) (ma mapd : loc) (y : Z) (dfa dfb : DataFrame)
        (Hma : nth_error h ma = Some dfa) (Hmapd : nth_error h mapd = Some dfb) :
  let h' := snd (mapd_clean_merge ma mapd y h) in
  nth_error h' ma = Some dfa
  /\ nth_error h' mapd = Some dfb
  /\ forall l, l < List.length h -> nth_error h' l = nth_error h l.
Proof.
  cbv zeta.
  assert (Hk : keeps (List.length h) h h) by (split; [lia|auto]).
  destruct (preserves_mapd_clean_merge (List.length h) ma mapd y h h Hk) as [[_ Hkeep] _].
  assert (Hla : ma < List.length h) by (apply nth_error_Some; congruence).
  assert (Hlb : mapd < List.length h) by (apply nth_error_Some; congruence).
  repeat split.
  - rewrite Hkeep by exact Hla. exact Hma.
  - rewrite Hkeep by exact Hlb. exact Hmapd.
  - exact Hkeep.
Qed.

(** ** The store: what the merger computes *)

Lemma run_alloc_op (H : heap) (l : loc) (x : DataFrame) (f : DataFrame -> result DataFrame) :
  nth_error H l = Some x ->
  (df <- deref l ;; d <- lift (f df) ;; new_frame d) H
  = match f x with
    | inr d => (Ok (List.length H), H ++ [d])
    | inl e => (Raise e, H)
    end.
Proof.
  intros Hl. unfold bind, deref, lift, new_frame. rewrite Hl.
  unfold Ok. cbv beta iota. destruct (f x); reflexivity.
Qed.

Lemma run_alloc_pure (H : heap) (l : loc) (x : DataFrame) (g : DataFrame -> DataFrame) :
  nth_error H l = Some x ->
  (df <- deref l ;; new_frame (g df)) H = (Ok (List.length H), H ++ [g x]).
Proof. intros Hl. unfold bind, deref, new_frame. rewrite Hl. reflexivity. Qed.

Lemma run_update_op (H : heap) (l : loc) (x : DataFrame) (g : DataFrame -> DataFrame) :
  nth_error H l = Some x ->
  (df <- deref l ;; assign l (g df)) H = (Ok tt, update_nth l (g x) H).
Proof. intros Hl. unfold bind, deref, assign. rewrite Hl. reflexivity. Qed.

Lemma run_read_op {A} (H : heap) (l : loc) (x : DataFrame) (g : DataFrame -> A) :
  nth_error H l = Some x ->
  (df <- deref l ;; ret (g df)) H = (Ok (g x), H).
Proof. intros Hl. unfold bind, deref, ret. rewrite Hl. reflexivity. Qed.

Lemma run_merge (H : heap) (hw : how) (on : list string) (l r : loc) (x z : DataFrame) :
  nth_error H l = Some x -> nth_error H r = Some z ->
  df_merge hw on l r H
  = match merge hw on x z with
    | inr d => (Ok (List.length H), H ++ [d])
    | inl e => (Raise e, H)
    end.
Proof.
  intros Hl Hr. unfold df_merge, bind, deref, lift, new_frame. rewrite Hl.
  unfold Ok. cbv beta iota. rewrite Hr. cbv beta iota.
  destruct (merge hw on x z); reflexivity.
Qed.

Lemma nth_app_new {A} (H : list A) (d : A) : nth_error (H ++ [d]) (List.length H) = Some d.
Proof. rewrite nth_error_app2 by lia. rewrite Nat.sub_diag. reflexivity. Qed.

Lemma nth_app_old {A} (H : list A) (d x : A) (l : nat) :
  nth_error H l = Some x -> nth_error (H ++ [d]) l = Some x.
Proof.
  intros Hl. rewrite nth_error_app1; [exact Hl|].
  apply nth_error_Some. congruence.
Qed.

Lemma nth_update_same {A} (H : list A) :
  forall l x y, nth_error H l = Some x -> nth_error (update_nth l y H) l = Some y.
Proof.
  induction H as [|a H IH]; intros [|l] x y Hl; simpl in *; try discriminate; eauto.
Qed.

Lemma nth_update_last {A} (H : list A) (d y : A) :
  update_nth (List.length H) y (H ++ [d]) = H ++ [y].
Proof. induction H as [|a H IH]; simpl; [reflexivity|]. rewrite IH. reflexivity. Qed.

Lemma mapd_clean_merge_run (h : heap) (ma mapd : loc) (y : Z) (dfa dfb : DataFrame) :
  nth_error h ma = Some dfa -> nth_error h mapd = Some dfb ->
  exists h',
    mapd_clean_merge ma mapd y h
    = (match plan_premiums_of dfa dfb y with
       | inr _ => Ok (List.length h + 8)
       | inl e => Raise e
       end, h')
    /\ forall p, plan_premiums_of dfa dfb y = Ok p ->
                 nth_error h' (List.length h + 8) = Some p.
Proof.
  intros Hma Hmapd. unfold plan_premiums_of, clean_ma, clean_mapd, mapd_clean_merge.
  (* ma_data[[...]] *)
  pose proof (run_alloc_op h ma dfa (getitem_cols ma_cols) Hma) as R.
  fold (df_getitem_cols ma_cols ma) in R.
  destruct (getitem_cols ma_cols dfa) as [e|d1]; simpl rbind.
  { eexists. split; [apply bind_raise; exact R | discriminate]. }
  rewrite (bind_ok _ _ _ _ _ R). clear R.
  set (H1 := h ++ [d1]).
  assert (Hb1 : nth_error H1 mapd = Some dfb) by (apply nth_app_old; exact Hmapd).
  (* .copy() *)
  rewrite (bind_ok _ _ _ _ _ (run_alloc_pure H1 _ d1 (fun d => d) (nth_app_new h d1))).
  set (H2 := H1 ++ [d1]).
  assert (Hb2 : nth_error H2 mapd = Some dfb) by (apply nth_app_old; exact Hb1).
  (* .sort_values(...) *)
  rewrite (bind_ok _ _ _ _ _ (run_alloc_pure H2 _ d1 (sort_values plan_keys) (nth_app_new H1 d1))).
  set (s := sort_values plan_keys d1).
  (* ["premium"] = groupby(...)["premium"].ffill() *)
  rewrite (bind_ok _ _ _ _ _
             (run_read_op (H2 ++ [s]) _ s (groupby_ffill plan_keys "premium") (nth_app_new H2 s))).
  rewrite (bind_ok _ _ _ _ _
             (run_update_op (H2 ++ [s]) _ s
                            (setitem_series "premium" (groupby_ffill plan_keys "premium" s))
                            (nth_app_new H2 s))).
  rewrite nth_update_last.
  set (f := setitem_series "premium" (groupby_ffill plan_keys "premium" s) s).
  set (H4 := H2 ++ [f]).
  assert (Hb4 : nth_error H4 mapd = Some dfb) by (apply nth_app_old; exact Hb2).
  (* .drop_duplicates(...) *)
  rewrite (bind_ok _ _ _ _ _ (run_alloc_pure H4 _ f (drop_duplicates plan_keys) (nth_app_new H2 f))).
  set (a := drop_duplicates plan_keys f).
  set (H5 := H4 ++ [a]).
  assert (Ha5 : nth_error H5 (List.length H4) = Some a) by apply nth_app_new.
  assert (Hb5 : nth_error H5 mapd = Some dfb) by (apply nth_app_old; exact Hb4).
  (* mapd_data[[...]] *)
  pose proof (run_alloc_op H5 mapd dfb (getitem_cols mapd_cols) Hb5) as R.
  fold (df_getitem_cols mapd_cols mapd) in R.
  destruct (getitem_cols mapd_cols dfb) as [e|g1]; simpl rbind.
  { eexists. split; [apply bind_raise; exact R | discriminate]. }
  rewrite (bind_ok _ _ _ _ _ R). clear R.
  set (H6 := H5 ++ [g1]).
  assert (Ha6 : nth_error H6 (List.length H4) = Some a) by (apply nth_app_old; exact Ha5).
  (* .copy() *)
  rewrite (bind_ok _ _ _ _ _ (run_alloc_pure H6 _ g1 (fun d => d) (nth_app_new H5 g1))).
  (* ["planid"] = pd.to_numeric(...) *)
  rewrite (bind_ok _ _ _ _ _
             (run_update_op (H6 ++ [g1]) _ g1 (map_col "planid" to_numeric_coerce)
                            (nth_app_new H6 g1))).
  rewrite nth_update_last.
  set (g2 := map_col "planid" to_numeric_coerce g1).
  set (H8 := H6 ++ [g2]).
  assert (Ha8 : nth_error H8 (List.length H4) = Some a) by (apply nth_app_old; exact Ha6).
  (* .sort_values(...) *)
  rewrite (bind_ok _ _ _ _ _ (run_alloc_pure H8 _ g2 (sort_values plan_keys) (nth_app_new H6 g2))).
  set (g3 := sort_values plan_keys g2).
  (* [fill_cols] = groupby(...)[fill_cols].ffill() *)
  rewrite (bind_ok _ _ _ _ _
             (run_update_op (H8 ++ [g3]) _ g3 (setitem_ffill plan_keys fill_cols)
                            (nth_app_new H8 g3))).
  rewrite nth_update_last.
  set (g4 := setitem_ffill plan_keys fill_cols g3).
  set (H10 := H8 ++ [g4]).
  assert (Ha10 : nth_error H10 (List.length H4) = Some a) by (apply nth_app_old; exact Ha8).
  (* .drop_duplicates(...) *)
  rewrite (bind_ok _ _ _ _ _
             (run_alloc_pure H10 _ g4 (drop_duplicates plan_keys) (nth_app_new H8 g4))).
  set (b := drop_duplicates plan_keys g4).
  set (H11 := H10 ++ [b]).
  assert (Ha11 : nth_error H11 (List.length H4) = Some a) by (apply nth_app_old; exact Ha10).
  assert (Hb11 : nth_error H11 (List.length H10) = Some b) by apply nth_app_new.
  (* merge *)
  pose proof (run_merge H11 HowOuter plan_keys _ _ a b Ha11 Hb11) as R.
  destruct (merge HowOuter plan_keys a b) as [e|p]; simpl rbind.
  { eexists. split; [apply bind_raise; exact R | discriminate]. }
  rewrite (bind_ok _ _ _ _ _ R). clear R.
  (* ["year"] = y *)
  rewrite (bind_ok _ _ _ _ _
             (run_update_op (H11 ++ [p]) _ p (setitem_scalar "year" (Num (float_of_Z y)))
                            (nth_app_new H11 p))).
  rewrite nth_update_last. unfold ret.
  assert (Hlen : List.length H11 = List.length h + 8).
  { unfold H11, H10, H8, H6, H5, H4, H2, H1. rewrite !length_app. simpl. lia. }
  rewrite Hlen. eexists. split; [reflexivity|].
  intros p' Hp'. inversion Hp'; subst p'. rewrite <- Hlen. apply nth_app_new.
Qed.

Lemma mapd_clean_merge_frame_witness :
  let h := [ma_demo; mapd_demo] in
  let h' := snd (mapd_clean_merge 0 1 2015 h) in
  fst (mapd_clean_merge 0 1 2015 h) = Ok 10
  /\ List.length h' = 11
  /\ nth_error h' 0 = Some ma_demo
  /\ nth_error h' 1 = Some mapd_demo
  /\ forall l, l < List.length h -> nth_error h' l = nth_error h l.
Proof.
  split; [vm_compute; reflexivity|]. split; [vm_compute; reflexivity|].
  pose proof (mapd_clean_merge_frame [ma_demo; mapd_demo] 0 1 2015 ma_demo mapd_demo
                                     eq_refl eq_refl) as H.
  cbv zeta in H. destruct H as [H1 [H2 H3]]. auto.
Defined.

Example mapd_clean_merge_demo :
  match plan_premiums_of ma_demo mapd_demo 2015 with
  | inr p =>
      map (fun r => [get "contractid" r; get "planid" r; get "county" r; get "premium" r;
                     get "premium_partc" r; get "premium_partd_basic" r;
                     get "partd_deductible" r; get "year" r])
          (rows p)
      = [[Str "H0"; Num (Fin 2); Str "Baldwin"; Num (Fin 5); NaN; NaN; NaN; Num (Fin 2015)];
         [Str "H1"; Num (Fin 1); Str "Autauga"; NaN; Num (Fin 7); NaN; Num (Fin 320);
          Num (Fin 2015)];
         [Str "H7"; NaN; Str "Pike"; NaN; NaN; NaN; NaN; Num (Fin 2015)]]
  | inl _ => False
  end.
Proof. vm_compute. reflexivity. Qed.

(** A plan id that is text in the MA table meets the coerced, numeric plan
    id of the MA-PD table in the final merge: the merger raises. *)
Example mapd_clean_merge_text_planid :
  fst (mapd_clean_merge 0 1 2015 [ma_text_planid; mapd_demo])
  = Raise (IncompatibleKeys "planid").
Proof. vm_compute. reflexivity. Qed.

(** ** Keys through the row operations *)

Lemma get_missing (c : string) (r : row) :
  has_col c (map fst r) = false -> get c r = NaN.
Proof.
  induction r as [|[n v] r IH]; simpl; [reflexivity|].
  destruct (String.eqb c n); simpl; [discriminate|exact IH].
Qed.

Lemma get_app_nonkey (c : string) (l x : row) :
  has_col c (map fst x) = false -> get c (l ++ x) = get c l.
Proof.
  intros Hx. rewrite get_app.
  destruct (has_col c (map fst l)) eqn:E; [reflexivity|].
  rewrite (get_missing _ _ Hx), (get_missing _ _ E). reflexivity.
Qed.

Lemma names_project (cols : list string) (r : row) : map fst (project cols r) = cols.
Proof. unfold project. rewrite map_map. simpl. apply map_id. Qed.

Lemma names_na_row (cols : list string) : map fst (na_row cols) = cols.
Proof. unfold na_row. rewrite map_map. simpl. apply map_id. Qed.

Lemma has_col_non_key (on cols : list string) (c : string) :
  has_col c on = true -> has_col c (non_key on cols) = false.
Proof.
  intros Hc. unfold non_key.
  destruct (has_col c (filter _ cols)) eqn:E; [|reflexivity].
  apply has_col_In in E. apply filter_In in E as [_ E].
  rewrite Hc in E. discriminate.
Qed.

Lemma names_set_cell (c : string) (v : cell) (r : row) :
  has_col c (map fst r) = true -> map fst (set_cell c v r) = map fst r.
Proof.
  induction r as [|[n w] r IH]; simpl; [discriminate|].
  destruct (String.eqb c n) eqn:E; simpl; [reflexivity|].
  intros H. rewrite IH by exact H. reflexivity.
Qed.

Section Keys.

Variable on : list string.

Lemma key_of_ext (a b : row) :
  (forall c, In c on -> get c a = get c b) -> key_of on a = key_of on b.
Proof. intros H. unfold key_of. apply map_ext_in. exact H. Qed.

Lemma key_of_set_cell (c : string) (v : cell) (r : row) :
  has_col c on = false -> key_of on (set_cell c v r) = key_of on r.
Proof.
  intros Hc. apply key_of_ext. intros c' Hc'. rewrite get_set_cell.
  destruct (String.eqb c' c) eqn:E; [|reflexivity].
  apply String.eqb_eq in E; subst c'.
  apply has_col_In in Hc'. congruence.
Qed.

Lemma key_of_app_project (cols : list string) (l r : row) :
  key_of on (l ++ project (non_key on cols) r) = key_of on l.
Proof.
  apply key_of_ext. intros c Hc. apply get_app_nonkey.
  rewrite names_project. apply has_col_non_key. apply has_col_In. exact Hc.
Qed.

Lemma key_of_app_na (cols : list string) (l : row) :
  key_of on (l ++ na_row (non_key on cols)) = key_of on l.
Proof.
  apply key_of_ext. intros c Hc. apply get_app_nonkey.
  rewrite names_na_row. apply has_col_non_key. apply has_col_In. exact Hc.
Qed.

Lemma get_right_only_left (lcols rcols : list string) (r : row) (c : string) :
  has_col c lcols = true ->
  get c (right_only on lcols rcols r) = if has_col c on then get c r else NaN.
Proof.
  intros Hc. unfold right_only. rewrite get_app.
  replace (map fst (map (fun c0 => (c0, if has_col c0 on then get c0 r else NaN)) lcols))
    with lcols by (rewrite map_map; simpl; symmetry; apply map_id).
  rewrite Hc.
  induction lcols as [|n lcols IH]; simpl in *; [discriminate|].
  destruct (String.eqb c n) eqn:E; [|exact (IH Hc)].
  apply String.eqb_eq in E; subst n. reflexivity.
Qed.

Lemma key_of_right_only (lcols rcols : list string) (r : row) :
  (forall c, In c on -> has_col c lcols = true) ->
  key_of on (right_only on lcols rcols r) = key_of on r.
Proof.
  intros H. apply key_of_ext. intros c Hc.
  rewrite get_right_only_left by auto.
  replace (has_col c on) with true by (symmetry; apply has_col_In; exact Hc).
  reflexivity.
Qed.

Lemma has_key_compat (a b : key) (rs : list row) :
  key_eqb a b = true -> has_key on a rs = has_key on b rs.
Proof.
  intros H. induction rs as [|r rs IH]; simpl; [reflexivity|].
  rewrite IH, (key_eqb_compat_l _ _ _ H). reflexivity.
Qed.

Lemma count_key_app (k : key) (a b : list row) :
  count_key on k (a ++ b) = count_key on k a + count_key on k b.
Proof. unfold count_key. rewrite filter_app, length_app. reflexivity. Qed.

Lemma count_key_map (k : key) (g : row -> row) (rs : list row) :
  (forall r, key_of on (g r) = key_of on r) ->
  count_key on k (map g rs) = count_key on k rs.
Proof.
  intros Hg. unfold count_key. induction rs as [|r rs IH]; simpl; [reflexivity|].
  rewrite Hg. destruct (key_eqb k (key_of on r)); simpl; rewrite IH; reflexivity.
Qed.

Lemma count_key_0_has_key (k : key) (rs : list row) :
  count_key on k rs = 0 <-> has_key on k rs = false.
Proof.
  unfold count_key. induction rs as [|r rs IH]; simpl; [tauto|].
  destruct (key_eqb k (key_of on r)); simpl; [split; discriminate|exact IH].
Qed.

Lemma length_matches (l : row) (R : list row) :
  List.length (matches on l R) = count_key on (key_of on l) R.
Proof. reflexivity. Qed.

Lemma count_key_join_row (k : key) (rcols : list string) (R : list row) (l : row) :
  count_key on k (join_row on rcols R l)
  = if key_eqb k (key_of on l) then Nat.max 1 (count_key on (key_of on l) R) else 0.
Proof.
  rewrite <- length_matches, <- length_join_row with (rcols := rcols).
  unfold count_key, join_row.
  destruct (matches on l R) as [|m0 ms].
  - simpl. rewrite key_of_app_na. destruct (key_eqb k (key_of on l)); reflexivity.
  - set (g := fun r => l ++ project (non_key on rcols) r).
    induction (m0 :: ms) as [|m ms' IH]; simpl.
    + destruct (key_eqb k (key_of on l)); reflexivity.
    + unfold g at 1. rewrite key_of_app_project.
      destruct (key_eqb k (key_of on l)); simpl; rewrite IH; reflexivity.
Qed.

Lemma count_key_flat_join (k : key) (rcols : list string) (L R : list row) :
  (forall k', count_key on k' R <= 1) ->
  count_key on k (flat_map (join_row on rcols R) L) = count_key on k L.
Proof.
  intros HR. induction L as [|l L IH]; simpl; [reflexivity|].
  rewrite count_key_app, IH, count_key_join_row.
  unfold count_key at 3. cbn [filter].
  pose proof (HR (key_of on l)).
  destruct (key_eqb k (key_of on l)); cbn [List.length]; fold (count_key on k L); lia.
Qed.

Lemma count_key_unmatched (k : key) (L R : list row) :
  count_key on k (unmatched on L R) = if has_key on k L then 0 else count_key on k R.
Proof.
  unfold count_key, unmatched.
  induction R as [|r R IH]; simpl; [destruct (has_key on k L); reflexivity|].
  destruct (key_eqb k (key_of on r)) eqn:E.
  - assert (Hex : existsb (fun l => same_key on l r) L = has_key on k L).
    { unfold has_key, same_key. clear IH. induction L as [|l L IHL]; simpl; [reflexivity|].
      rewrite IHL. f_equal. rewrite (key_eqb_compat_l _ _ _ E). apply key_eqb_sym. }
    rewrite Hex. destruct (has_key on k L) eqn:EL; simpl.
    + exact IH.
    + rewrite E. simpl. rewrite IH. reflexivity.
  - destruct (negb _); simpl; [rewrite E|]; exact IH.
Qed.

(** The rows of an outer join of two tables with pairwise different keys. *)
Lemma count_key_outer (k : key) (lcols rcols : list string) (L R : list row) :
  (forall c, In c on -> has_col c lcols = true) ->
  (forall k', count_key on k' R <= 1) ->
  count_key on k (flat_map (join_row on rcols R) L
                    ++ map (right_only on lcols rcols) (unmatched on L R))
  = if has_key on k L then count_key on k L else count_key on k R.
Proof.
  intros Hcols HR.
  rewrite count_key_app, count_key_flat_join by exact HR.
  rewrite count_key_map by (intros; apply key_of_right_only; exact Hcols).
  rewrite count_key_unmatched.
  destruct (has_key on k L) eqn:E; [lia|].
  apply count_key_0_has_key in E. lia.
Qed.

End Keys.

(** ** The cleaned tables of the merger *)

Lemma insert_row_In (on : list string) (x r : row) (l : list row) :
  In r (insert_row on x l) <-> r = x \/ In r l.
Proof.
  induction l as [|a l IH]; simpl.
  - split; intros [H|H]; auto.
  - destruct (key_leb (key_of on x) (key_of on a)); simpl; [split; intros [H|H]; auto|].
    rewrite IH. tauto.
Qed.

Lemma sort_rows_In (on : list string) (r : row) (l : list row) :
  In r (sort_rows on l) <-> In r l.
Proof.
  induction l as [|a l IH]; simpl; [tauto|].
  rewrite insert_row_In, IH. split; intros [H|H]; auto.
Qed.

Lemma getitem_cols_inv (cols : list string) (df d : DataFrame) :
  getitem_cols cols df = Ok d ->
  d = mkDF cols (map (project cols) (rows df)).
Proof.
  unfold getitem_cols. destruct (find _ cols); intros H; inversion H; reflexivity.
Qed.

Lemma clean_ma_inv (dfa a : DataFrame) :
  clean_ma dfa = Ok a ->
  exists d, getitem_cols ma_cols dfa = Ok d
            /\ a = drop_duplicates plan_keys (ma_filled d).
Proof.
  unfold clean_ma. destruct (getitem_cols ma_cols dfa) as [e|d]; simpl; [discriminate|].
  intros H; inversion H. eauto.
Qed.

Lemma clean_mapd_inv (dfb b : DataFrame) :
  clean_mapd dfb = Ok b ->
  exists d, getitem_cols mapd_cols dfb = Ok d
            /\ b = drop_duplicates plan_keys
                     (setitem_ffill plan_keys fill_cols
                        (sort_values plan_keys (map_col "planid" to_numeric_coerce d))).
Proof.
  unfold clean_mapd. destruct (getitem_cols mapd_cols dfb) as [e|d]; simpl; [discriminate|].
  intros H; inversion H. eauto.
Qed.

Lemma clean_ma_shape (dfa a : DataFrame) :
  clean_ma dfa = Ok a ->
  columns a = ma_cols /\ forall l, In l (rows a) -> map fst l = ma_cols.
Proof.
  intros H. destruct (clean_ma_inv _ _ H) as [d [Hd ->]].
  apply getitem_cols_inv in Hd. subst d. split; [reflexivity|].
  intros l Hl. simpl in Hl. apply drop_dups_In in Hl.
  apply in_map_iff in Hl as [[r0 v] [<- Hrv]]. simpl.
  apply in_combine_l in Hrv. apply sort_rows_In in Hrv. simpl in Hrv.
  apply in_map_iff in Hrv as [r1 [<- _]].
  rewrite names_set_cell; rewrite names_project; reflexivity.
Qed.

Lemma cleaned_distinct (on : list string) (df : DataFrame) (k : key) :
  count_key on k (rows (drop_duplicates on df)) <= 1.
Proof.
  simpl. eapply distinct_from_count. apply drop_dups_distinct.
Qed.

Lemma plan_premiums_of_inv (dfa dfb out : DataFrame) (y : Z) :
  plan_premiums_of dfa dfb y = Ok out ->
  exists a b p,
    clean_ma dfa = Ok a /\ clean_mapd dfb = Ok b
    /\ merge HowOuter plan_keys a b = Ok p
    /\ out = setitem_scalar "year" (Num (float_of_Z y)) p.
Proof.
  unfold plan_premiums_of.
  destruct (clean_ma dfa) as [e|a]; simpl; [discriminate|].
  destruct (clean_mapd dfb) as [e|b]; simpl; [discriminate|].
  destruct (merge HowOuter plan_keys a b) as [e|p] eqn:Em; simpl; [discriminate|].
  intros H; inversion H. exists a, b, p. auto.
Qed.

Lemma mapd_clean_merge_ok (h : heap) (ma mapd : loc) (y : Z) (dfa dfb : DataFrame) l h' :
  nth_error h ma = Some dfa -> nth_error h mapd = Some dfb ->
  mapd_clean_merge ma mapd y h = (Ok l, h') ->
  exists out, plan_premiums_of dfa dfb y = Ok out /\ nth_error h' l = Some out.
Proof.
  intros Hma Hmapd Hrun.
  destruct (mapd_clean_merge_run h ma mapd y dfa dfb Hma Hmapd) as [h'' [Hr Hp]].
  rewrite Hrun in Hr.
  destruct (plan_premiums_of dfa dfb y) as [e|out]; [discriminate|].
  inversion Hr; subst. exists out. split; [reflexivity|]. apply Hp. reflexivity.
Qed.

Lemma has_key_In (on : list string) (k : key) (m : row) (rs : list row) :
  In m rs -> key_eqb k (key_of on m) = true -> has_key on k rs = true.
Proof.
  intros Hin Hk. unfold has_key. apply existsb_exists. eauto.
Qed.

Lemma get_na_row (c : string) (cols : list string) : get c (na_row cols) = NaN.
Proof.
  induction cols as [|n cols IH]; simpl; [reflexivity|].
  destruct (String.eqb c n); [reflexivity|exact IH].
Qed.

(** Where a row of an outer join comes from. *)
Lemma merge_outer_row (on : list string) (L R p : DataFrame) (r : row) :
  merge HowOuter on L R = Ok p -> In r (rows p) ->
  (exists l, In l (rows L)
             /\ key_of on r = key_of on l
             /\ ((has_key on (key_of on l) (rows R) = false
                  /\ r = l ++ na_row (non_key on (columns R)))
                 \/ (exists m, In m (rows R)
                               /\ key_eqb (key_of on l) (key_of on m) = true
                               /\ r = l ++ project (non_key on (columns R)) m)))
  \/ (exists m, In m (rows R)
                /\ key_of on r = key_of on m
                /\ has_key on (key_of on m) (rows L) = false
                /\ r = right_only on (columns L) (columns R) m).
Proof.
  intros Hm Hr. destruct (merge_inv _ _ _ _ _ Hm) as (Hcols & _ & Hrows).
  rewrite Hrows in Hr. apply in_app_or in Hr as [Hr|Hr].
  - left. apply in_flat_map in Hr as [l [Hl Hr]]. exists l. split; [exact Hl|].
    unfold join_row in Hr.
    destruct (matches on l (rows R)) as [|m0 ms] eqn:Em.
    + destruct Hr as [<-|[]]. split; [apply key_of_app_na|]. left. split; [|reflexivity].
      apply count_key_0_has_key. rewrite <- length_matches, Em. reflexivity.
    + apply in_map_iff in Hr as [m [<- Hin]]. split; [apply key_of_app_project|].
      right. exists m. rewrite <- Em in Hin. apply filter_In in Hin as [Hin Hk]. auto.
  - right. apply in_map_iff in Hr as [m [<- Hin]]. apply filter_In in Hin as [Hin Hk].
    exists m. split; [exact Hin|].
    assert (Hkey : key_of on (right_only on (columns L) (columns R) m) = key_of on m).
    { apply key_of_right_only. intros c Hc. apply (Hcols c Hc). }
    split; [exact Hkey|]. split; [|reflexivity].
    apply negb_true_iff in Hk. unfold has_key.
    rewrite <- Hk. clear. induction (rows L) as [|l L' IH]; simpl; [reflexivity|].
    rewrite IH. f_equal. apply key_eqb_sym.
Qed.

(** ** The keys of the merged table *)

Lemma count_key_cleaned (on : list string) (df : DataFrame) (k : key) :
  count_key on k (rows (drop_duplicates on df))
  = if has_key on k (rows (drop_duplicates on df)) then 1 else 0.
Proof.
  pose proof (cleaned_distinct on df k) as Hle.
  destruct (has_key on k (rows (drop_duplicates on df))) eqn:E.
  - destruct (count_key on k (rows (drop_duplicates on df))) as [|[|n]] eqn:Ec; try lia.
    apply count_key_0_has_key in Ec. congruence.
  - apply count_key_0_has_key. exact E.
Qed.

(** C5.  In the table [mapd_clean_merge] returns, every (contractid,
    planid, state, county) combination of either cleaned table is the key
    of exactly one row, and no other key occurs; a row whose key is in the
    cleaned MA table only has the Part D fields missing, and a row whose
    key is in the cleaned MA-PD table only has the premium missing. *)
Theorem mapd_clean_merge_keys (h : heap) (ma mapd : loc) (y : Z) (dfa dfb : DataFrame)
        (l : loc) (h' : heap)
        (Hma : nth_error h ma = Some dfa) (Hmapd : nth_error h mapd = Some dfb)
        (Hrun : mapd_clean_merge ma mapd y h = (Ok l, h')) :
  exists a b out,
    clean_ma dfa = Ok a /\ clean_mapd dfb = Ok b /\ nth_error h' l = Some out
    /\ (forall k, count_key plan_keys k (rows out)
                  = if has_key plan_keys k (rows a) || has_key plan_keys k (rows b)
                    then 1 else 0)
    /\ (forall r, In r (rows a) \/ In r (rows b) ->
                  count_key plan_keys (key_of plan_keys r) (rows out) = 1)
    /\ (forall k, count_key plan_keys k (rows out) <= 1)
    /\ (forall r, In r (rows out) ->
                  has_key plan_keys (key_of plan_keys r) (rows b) = false ->
                  forall c, In c fill_cols -> get c r = NaN)
    /\ (forall r, In r (rows out) ->
                  has_key plan_keys (key_of plan_keys r) (rows a) = false ->
                  get "premium" r = NaN).
Proof.
  destruct (mapd_clean_merge_ok _ _ _ _ _ _ _ _ Hma Hmapd Hrun) as [out [Hout Hl]].
  destruct (plan_premiums_of_inv _ _ _ _ Hout) as (a & b & p & Ha & Hb & Hp & ->).
  exists a, b. eexists. split; [exact Ha|]. split; [exact Hb|]. split; [exact Hl|].
  destruct (merge_inv _ _ _ _ _ Hp) as (Hcols & _ & Hrows).
  destruct (clean_ma_shape _ _ Ha) as [Hacols Hanames].
  destruct (clean_ma_inv _ _ Ha) as [da [_ Ea]].
  destruct (clean_mapd_inv _ _ Hb) as [db [_ Eb]].
  assert (Hcount : forall k,
             count_key plan_keys k (rows (setitem_scalar "year" (Num (float_of_Z y)) p))
             = if has_key plan_keys k (rows a) || has_key plan_keys k (rows b)
               then 1 else 0).
  { intros k. simpl rows.
    rewrite count_key_map by (intros; apply key_of_set_cell; reflexivity).
    rewrite Hrows, count_key_outer.
    - assert (Hca : count_key plan_keys k (rows a)
                    = if has_key plan_keys k (rows a) then 1 else 0)
        by (rewrite Ea; apply count_key_cleaned).
      assert (Hcb : count_key plan_keys k (rows b)
                    = if has_key plan_keys k (rows b) then 1 else 0)
        by (rewrite Eb; apply count_key_cleaned).
      rewrite Hca, Hcb.
      destruct (has_key plan_keys k (rows a)); reflexivity.
    - intros c Hc. apply (Hcols c Hc).
    - intros k'. rewrite Eb. apply cleaned_distinct. }
  split; [exact Hcount|]. split; [|split; [|split]].
  - intros r Hr. rewrite Hcount.
    destruct Hr as [Hr|Hr].
    + rewrite (has_key_In plan_keys _ r (rows a) Hr (key_eqb_refl _)). reflexivity.
    + rewrite (has_key_In plan_keys _ r (rows b) Hr (key_eqb_refl _)).
      rewrite orb_true_r. reflexivity.
  - intros k. rewrite Hcount. destruct (_ || _); lia.
  - intros r Hr Hnb c Hc. simpl rows in Hr.
    apply in_map_iff in Hr as [r0 [<- Hr0]].
    rewrite key_of_set_cell in Hnb by reflexivity.
    rewrite get_set_cell.
    replace (String.eqb c "year") with false
      by (simpl in Hc; repeat (destruct Hc as [<-|Hc]; [reflexivity|]); destruct Hc).
    destruct (merge_outer_row _ _ _ _ _ Hp Hr0)
      as [(l0 & Hl0 & Hk & [[_ ->]|(m & Hm & Hkm & ->)])|(m & Hm & Hk & _ & ->)].
    + rewrite get_app, (Hanames _ Hl0).
      replace (has_col c ma_cols) with false
        by (simpl in Hc; repeat (destruct Hc as [<-|Hc]; [reflexivity|]); destruct Hc).
      apply get_na_row.
    + rewrite Hk in Hnb. rewrite (has_key_In _ _ _ _ Hm Hkm) in Hnb. discriminate.
    + rewrite Hk in Hnb.
      rewrite (has_key_In plan_keys _ m _ Hm (key_eqb_refl _)) in Hnb. discriminate.
  - intros r Hr Hna. simpl rows in Hr.
    apply in_map_iff in Hr as [r0 [<- Hr0]].
    rewrite key_of_set_cell in Hna by reflexivity.
    rewrite get_set_cell. change (String.eqb "premium" "year") with false. cbv iota.
    destruct (merge_outer_row _ _ _ _ _ Hp Hr0)
      as [(l0 & Hl0 & Hk & _)|(m & Hm & Hk & _ & ->)].
    + rewrite Hk in Hna.
      rewrite (has_key_In plan_keys _ l0 _ Hl0 (key_eqb_refl _)) in Hna. discriminate.
    + rewrite get_right_only_left by (rewrite Hacols; reflexivity). reflexivity.
Qed.

Lemma mapd_clean_merge_keys_witness :
  exists a b out l h',
    mapd_clean_merge 0 1 2015 [ma_demo; mapd_demo] = (Ok l, h')
    /\ clean_ma ma_demo = Ok a /\ clean_mapd mapd_demo = Ok b
    /\ nth_error h' l = Some out
    /\ map (key_of plan_keys) (rows out)
       = [[Str "H0"; Num (Fin 2); Str "AL"; Str "Baldwin"];
          [Str "H1"; Num (Fin 1); Str "AL"; Str "Autauga"];
          [Str "H7"; NaN; Str "AL"; Str "Pike"]]
    /\ (forall r, In r (rows a) \/ In r (rows b) ->
                  count_key plan_keys (key_of plan_keys r) (rows out) = 1)
    /\ (forall k, count_key plan_keys k (rows out) <= 1).
Proof.
  destruct (mapd_clean_merge 0 1 2015 [ma_demo; mapd_demo]) as [[e|l] h'] eqn:E;
    [vm_compute in E; discriminate|].
  destruct (mapd_clean_merge_keys [ma_demo; mapd_demo] 0 1 2015 ma_demo mapd_demo l h'
                                  eq_refl eq_refl E)
    as (a & b & out & Ha & Hb & Hl & _ & H1 & H2 & _).
  exists a, b, out, l, h'. repeat split; auto.
  vm_compute in E. inversion E; subst l h'; clear E.
  vm_compute in Hl. inversion Hl; subst out. vm_compute. reflexivity.
Defined.

(** ** Sorting keeps the first row of every group *)

Lemma string_compare_refl (s : string) : String.compare s s = Eq.
Proof.
  pose proof (String.compare_antisym s s) as H.
  destruct (String.compare s s); simpl in H; congruence.
Qed.

Lemma cell_eqb_compare (a b : cell) : cell_eqb a b = true -> cell_compare a b = Eq.
Proof.
  destruct a, b; simpl; try discriminate; auto.
  - intros H. apply String.eqb_eq in H. subst. apply string_compare_refl.
  - intros ->. reflexivity.
  - destruct b, b0; simpl; auto; discriminate.
Qed.

Lemma key_eqb_leb (a b : key) : key_eqb a b = true -> key_leb a b = true.
Proof.
  unfold key_leb. revert b; induction a as [|x a IH]; intros [|y b]; simpl;
    try discriminate; auto.
  intros H. apply andb_prop in H as [H1 H2].
  rewrite (cell_eqb_compare _ _ H1). apply IH. exact H2.
Qed.

Section FirstRows.

Variable on : list string.

Lemma first_with_insert (k : key) (x : row) (l : list row) :
  first_with on k (insert_row on x l)
  = if key_eqb k (key_of on x) then Some x else first_with on k l.
Proof.
  unfold first_with. induction l as [|a l IH]; simpl; [reflexivity|].
  destruct (key_leb (key_of on x) (key_of on a)) eqn:Eleb; simpl; [reflexivity|].
  rewrite IH. destruct (key_eqb k (key_of on a)) eqn:Ea; [|reflexivity].
  destruct (key_eqb k (key_of on x)) eqn:Ex; [|reflexivity].
  assert (Hxa : key_eqb (key_of on x) (key_of on a) = true).
  { eapply key_eqb_trans; [|exact Ea]. rewrite key_eqb_sym. exact Ex. }
  rewrite (key_eqb_leb _ _ Hxa) in Eleb. discriminate.
Qed.

Lemma first_with_sort (k : key) (l : list row) :
  first_with on k (sort_rows on l) = first_with on k l.
Proof.
  induction l as [|x l IH]; simpl; [reflexivity|].
  rewrite first_with_insert, IH. reflexivity.
Qed.

Lemma first_with_none (k : key) (rs : list row) :
  first_with on k rs = None <-> has_key on k rs = false.
Proof.
  unfold first_with, has_key. induction rs as [|r rs IH]; simpl; [tauto|].
  destruct (key_eqb k (key_of on r)); simpl; [split; discriminate|exact IH].
Qed.

Lemma distinct_from_not_seen (rs : list row) :
  forall seen l, distinct_from on seen rs -> In l rs ->
                 key_mem (key_of on l) seen = false.
Proof.
  induction rs as [|r rs IH]; simpl; intros seen l Hd Hin; [destruct Hin|].
  destruct Hd as [H1 H2].
  destruct Hin as [->|Hin]; [exact H1|].
  specialize (IH _ _ H2 Hin). simpl in IH.
  apply orb_false_elim in IH. tauto.
Qed.

Lemma distinct_first (rs : list row) :
  forall seen l, distinct_from on seen rs -> In l rs ->
                 first_with on (key_of on l) rs = Some l.
Proof.
  unfold first_with.
  induction rs as [|r rs IH]; simpl; intros seen l Hd Hin; [destruct Hin|].
  destruct Hd as [H1 H2].
  destruct Hin as [->|Hin]; [rewrite key_eqb_refl; reflexivity|].
  pose proof (distinct_from_not_seen _ _ _ H2 Hin) as Hns. simpl in Hns.
  apply orb_false_elim in Hns as [Hne _]. rewrite Hne. eapply IH; eauto.
Qed.

(** *** Forward fill leaves the first row of a group as it is *)

Variable col : string.
Hypothesis col_not_key : has_col col on = false.

Lemma last_valid_compat (a b : key) (seen : list (key * cell)) :
  key_eqb a b = true -> last_valid a seen = last_valid b seen.
Proof.
  intros H. induction seen as [|[k v] seen IH]; simpl; [reflexivity|].
  rewrite (key_eqb_compat_l _ _ _ H), IH. reflexivity.
Qed.

Lemma isna_NaN (c : cell) : isna c = true -> c = NaN.
Proof. destruct c; simpl; congruence. Qed.

Lemma first_with_ffill (k : key) (rs : list row) :
  forall seen,
    last_valid k seen = NaN ->
    first_with on k (fill_in col rs (ffill_rows on col seen rs))
    = option_map (fun r1 => set_cell col (if key_has_nan k then NaN else get col r1) r1)
                 (first_with on k rs).
Proof.
  unfold first_with, fill_in.
  induction rs as [|r rs IH]; intros seen Hseen; [reflexivity|].
  cbn [ffill_rows].
  destruct (key_eqb k (key_of on r)) eqn:Ek.
  - (* the first row of the group *)
    cbn [find]. rewrite Ek. cbn [option_map].
    rewrite (key_has_nan_compat _ _ Ek).
    destruct (key_has_nan (key_of on r)) eqn:En; cbn [combine map fst snd find].
    + rewrite key_of_set_cell by exact col_not_key. rewrite Ek. reflexivity.
    + destruct (isna (get col r)) eqn:Ena; cbn [combine map fst snd find];
        rewrite key_of_set_cell by exact col_not_key; rewrite Ek.
      * rewrite <- (last_valid_compat _ _ seen Ek), Hseen.
        rewrite (isna_NaN _ Ena). reflexivity.
      * reflexivity.
  - (* a row of another group *)
    cbn [find]. rewrite Ek.
    destruct (key_has_nan (key_of on r)) eqn:En; cbn [combine map fst snd find].
    + rewrite key_of_set_cell by exact col_not_key. rewrite Ek. apply IH. exact Hseen.
    + destruct (isna (get col r)) eqn:Ena; cbn [combine map fst snd find];
        rewrite key_of_set_cell by exact col_not_key; rewrite Ek.
      * apply IH. exact Hseen.
      * apply IH. simpl. rewrite Ek. exact Hseen.
Qed.

End FirstRows.

(** ** The premium the merger keeps for a group *)

Lemma rows_ma_filled (d : DataFrame) :
  rows (ma_filled d)
  = fill_in "premium" (rows (sort_values plan_keys d))
            (ffill_rows plan_keys "premium" [] (rows (sort_values plan_keys d))).
Proof. reflexivity. Qed.

Lemma first_with_clean_ma (d : DataFrame) (k : key) :
  first_with plan_keys k (rows (drop_duplicates plan_keys (ma_filled d)))
  = option_map (fun r1 => set_cell "premium"
                                   (if key_has_nan k then NaN else get "premium" r1) r1)
               (first_with plan_keys k (rows (sort_values plan_keys d))).
Proof.
  change (rows (drop_duplicates plan_keys (ma_filled d)))
    with (drop_dups plan_keys [] (rows (ma_filled d))).
  rewrite drop_dups_first by reflexivity.
  rewrite rows_ma_filled. apply first_with_ffill; reflexivity.
Qed.

(** C2 (as amended).  For every row of the table [mapd_clean_merge]
    returns whose (contractid, planid, state, county) key has no missing
    component, the premium is the one of the first row in sort order of
    the row's group in the MA table: the forward fill gives a value to
    later rows only, and the deduplication keeps the first row.  When that
    first row has no premium the output row has none, whatever the later
    rows of the group hold.  For a row whose key has a missing component
    the premium is missing, whatever the rows of the group hold: [groupby]
    leaves such rows out of every group, and the assignment of the filled
    column wipes their premium.  The premium is missing as well when the
    group has no MA row.  The sort being stable, the first row in sort
    order is the first row of the group in the input. *)
Theorem mapd_clean_merge_premium (h : heap) (ma mapd : loc) (y : Z) (dfa dfb : DataFrame)
        (l : loc) (h' : heap)
        (Hma : nth_error h ma = Some dfa) (Hmapd : nth_error h mapd = Some dfb)
        (Hrun : mapd_clean_merge ma mapd y h = (Ok l, h')) :
  exists d out,
    getitem_cols ma_cols dfa = Ok d /\ nth_error h' l = Some out
    /\ (forall r, In r (rows out) ->
                  get "premium" r
                  = premium_kept (key_of plan_keys r) (rows (sort_values plan_keys d)))
    /\ (forall r r1, In r (rows out) ->
                     first_with plan_keys (key_of plan_keys r)
                                (rows (sort_values plan_keys d)) = Some r1 ->
                     get "premium" r1 = NaN -> get "premium" r = NaN)
    /\ (forall k, first_with plan_keys k (rows (sort_values plan_keys d))
                  = first_with plan_keys k (rows d))
    /\ (forall r r1, In r (rows out) ->
                     key_has_nan (key_of plan_keys r) = false ->
                     first_with plan_keys (key_of plan_keys r)
                                (rows (sort_values plan_keys d)) = Some r1 ->
                     get "premium" r = get "premium" r1)
    /\ (forall r, In r (rows out) ->
                  key_has_nan (key_of plan_keys r) = true -> get "premium" r = NaN)
    /\ (forall r, In r (rows out) ->
                  first_with plan_keys (key_of plan_keys r)
                             (rows (sort_values plan_keys d)) = None ->
                  get "premium" r = NaN).
Proof.
  destruct (mapd_clean_merge_ok _ _ _ _ _ _ _ _ Hma Hmapd Hrun) as [out [Hout Hl]].
  destruct (plan_premiums_of_inv _ _ _ _ Hout) as (a & b & p & Ha & Hb & Hp & ->).
  destruct (clean_ma_shape _ _ Ha) as [Hacols Hanames].
  destruct (clean_ma_inv _ _ Ha) as [d [Hd Ea]].
  exists d. eexists. split; [exact Hd|]. split; [exact Hl|].
  assert (Hmain : forall r,
             In r (rows (setitem_scalar "year" (Num (float_of_Z y)) p)) ->
             get "premium" r
             = premium_kept (key_of plan_keys r) (rows (sort_values plan_keys d))).
  { intros r Hr. simpl rows in Hr. apply in_map_iff in Hr as [r0 [<- Hr0]].
    rewrite key_of_set_cell by reflexivity.
    rewrite get_set_cell. change (String.eqb "premium" "year") with false. cbv iota.
    unfold premium_kept.
    pose proof (first_with_clean_ma d (key_of plan_keys r0)) as Hfirst.
    rewrite <- Ea in Hfirst.
    destruct (merge_outer_row _ _ _ _ _ Hp Hr0)
      as [(l0 & Hl0 & Hk & Hshape)|(m & Hm & Hk & Hna & ->)].
    - assert (Hprem : get "premium" r0 = get "premium" l0).
      { destruct Hshape as [[_ ->]|(m & _ & _ & ->)];
          rewrite get_app, (Hanames _ Hl0); reflexivity. }
      assert (Hl0first : first_with plan_keys (key_of plan_keys r0) (rows a) = Some l0).
      { rewrite Hk. rewrite Ea in Hl0 |- *. simpl rows in Hl0 |- *.
        eapply distinct_first; [apply drop_dups_distinct|exact Hl0]. }
      rewrite Hl0first in Hfirst.
      destruct (first_with plan_keys (key_of plan_keys r0) (rows (sort_values plan_keys d)))
        as [r1|]; simpl in Hfirst; [|discriminate].
      inversion Hfirst as [Hl0eq]. rewrite Hprem, Hl0eq, get_set_cell.
      rewrite String.eqb_refl. reflexivity.
    - rewrite get_right_only_left by (rewrite Hacols; reflexivity).
      change (has_col "premium" plan_keys) with false. cbv iota.
      rewrite Hk in Hfirst |- *.
      apply first_with_none in Hna. rewrite Hna in Hfirst.
      destruct (first_with plan_keys (key_of plan_keys m) (rows (sort_values plan_keys d)));
        [discriminate|reflexivity]. }
  split; [exact Hmain|]. split; [|split; [|split; [|split]]].
  - intros r r1 Hr Hfirst Hnan. rewrite (Hmain r Hr). unfold premium_kept.
    rewrite Hfirst, Hnan. destruct (key_has_nan _); reflexivity.
  - intros k. apply first_with_sort.
  - intros r r1 Hr Hkey Hfirst. rewrite (Hmain r Hr). unfold premium_kept.
    rewrite Hfirst, Hkey. reflexivity.
  - intros r Hr Hkey. rewrite (Hmain r Hr). unfold premium_kept. rewrite Hkey.
    destruct (first_with _ _ _); reflexivity.
  - intros r Hr Hfirst. rewrite (Hmain r Hr). unfold premium_kept. rewrite Hfirst.
    reflexivity.
Qed.

(** C2, the claim as stated fails: in [ma_demo] the group (H1, 1, AL,
    Autauga) has a first row without premium and a later row with premium
    10; the only output row of the group has no premium. *)
Lemma ffill_does_not_fill_first_row :
  exists d out l h' r1 r2,
    mapd_clean_merge 0 1 2015 [ma_demo; mapd_demo] = (Ok l, h')
    /\ getitem_cols ma_cols ma_demo = Ok d
    /\ rows (sort_values plan_keys d) = [[("contractid", Str "H0"); ("planid", Num (Fin 2));
                                          ("state", Str "AL"); ("county", Str "Baldwin");
                                          ("premium", Num (Fin 5))]; r1; r2]
    /\ key_of plan_keys r1 = key_of plan_keys r2
    /\ get "premium" r1 = NaN
    /\ get "premium" r2 = Num (Fin 10)
    /\ nth_error h' l = Some out
    /\ filter (fun r => key_eqb (key_of plan_keys r1) (key_of plan_keys r)) (rows out)
       = [set_cell "year" (Num (Fin 2015))
                   (r1 ++ [("premium_partc", Num (Fin 7)); ("premium_partd_basic", NaN);
                           ("premium_partd_supp", NaN); ("premium_partd_total", NaN);
                           ("partd_deductible", Num (Fin 320))])]
    /\ forall r, In r (rows out) ->
                 key_eqb (key_of plan_keys r1) (key_of plan_keys r) = true ->
                 get "premium" r = NaN /\ get "premium" r <> get "premium" r2.
Proof.
  do 6 eexists.
  split; [vm_compute; reflexivity|].
  split; [vm_compute; reflexivity|].
  split; [vm_compute; reflexivity|].
  split; [reflexivity|]. split; [reflexivity|]. split; [reflexivity|].
  split; [vm_compute; reflexivity|].
  split; [vm_compute; reflexivity|].
  intros r Hr Hk. simpl in Hr.
  destruct Hr as [<-|[<-|[<-|[]]]]; vm_compute in Hk; try discriminate.
  split; [reflexivity|discriminate].
Qed.

Lemma mapd_clean_merge_premium_witness :
  (exists d out l h',
      mapd_clean_merge 0 1 2015 [ma_demo; mapd_demo] = (Ok l, h')
      /\ getitem_cols ma_cols ma_demo = Ok d /\ nth_error h' l = Some out
      /\ map (get "premium") (rows out) = [Num (Fin 5); NaN; NaN]
      /\ (forall r, In r (rows out) ->
                    get "premium" r
                    = premium_kept (key_of plan_keys r) (rows (sort_values plan_keys d))))
  /\ (exists out l h',
         mapd_clean_merge 0 1 2015 [ma_missing_county; mapd_demo] = (Ok l, h')
         /\ nth_error h' l = Some out
         /\ map (fun r => (get "county" r, get "premium" r)) (rows out)
            = [(Str "Baldwin", Num (Fin 5)); (NaN, NaN);
               (Str "Autauga", NaN); (Str "Pike", NaN)]
         /\ (forall r, In r (rows out) ->
                       key_has_nan (key_of plan_keys r) = true -> get "premium" r = NaN)).
Proof.
  split.
  - destruct (mapd_clean_merge 0 1 2015 [ma_demo; mapd_demo]) as [[e|l] h'] eqn:E;
      [vm_compute in E; discriminate|].
    destruct (mapd_clean_merge_premium [ma_demo; mapd_demo] 0 1 2015 ma_demo mapd_demo l h'
                                       eq_refl eq_refl E)
      as (d & out & Hd & Hl & H1 & _).
    exists d, out, l, h'. repeat split; auto.
    vm_compute in E. inversion E; subst l h'; clear E.
    vm_compute in Hl. inversion Hl; subst out. vm_compute. reflexivity.
  - destruct (mapd_clean_merge 0 1 2015 [ma_missing_county; mapd_demo])
      as [[e|l] h'] eqn:E; [vm_compute in E; discriminate|].
    destruct (mapd_clean_merge_premium [ma_missing_county; mapd_demo] 0 1 2015
                                       ma_missing_county mapd_demo l h' eq_refl eq_refl E)
      as (d & out & Hd & Hl & _ & _ & _ & _ & Hnan & _).
    exists out, l, h'. repeat split; auto.
    vm_compute in E. inversion E; subst l h'; clear E.
    vm_compute in Hl. inversion Hl; subst out. vm_compute. reflexivity.
Defined.

(** * Further properties of the loaders and the merger *)

(** ** The service-area and penetration loaders *)

Lemma load_month_sa_ok fs m y t out t' :
  load_month_sa fs m y t = (Ok out, t') ->
  exists df v, read_service_area fs (sa_path m y) t = (Ok df, t')
               /\ py_int m = Some v /\ out = stamp v y df.
Proof.
  unfold load_month_sa. intros H.
  apply bind_inv in H as (df & t1 & Hdf & H).
  apply bind_inv in H as (v & t2 & Hv & H).
  apply lift_inv in Hv as [Hv ->].
  apply ret_inv in H as [-> ->].
  exists df, v. auto using int_of_str_inv.
Qed.

Lemma load_month_pen_ok fs m y t out t' :
  load_month_pen fs m y t = (Ok out, t') ->
  exists df v, read_penetration fs (pen_path m y) t = (Ok df, t')
               /\ py_int m = Some v /\ out = stamp v y df.
Proof.
  unfold load_month_pen. intros H.
  apply bind_inv in H as (df & t1 & Hdf & H).
  apply bind_inv in H as (v & t2 & Hv & H).
  apply lift_inv in Hv as [Hv ->].
  apply ret_inv in H as [-> ->].
  exists df, v. auto using int_of_str_inv.
Qed.




(** ** The shape of the tables the readers return *)

Lemma Forall2_In_r {A B} (P : A -> B -> Prop) (l : list A) (l' : list B) (b : B) :
  Forall2 P l l' -> In b l' -> exists a, In a l /\ P a b.
Proof.
  induction 1 as [|a0 b0 l l' H0 _ IH]; simpl; [tauto|].
  intros [<-|Hin]; [eauto|].
  destruct (IH Hin) as [a [Ha HP]]. eauto.
Qed.

Lemma read_csv_shape fs path names na dtypes t df t' :
  read_csv fs path 1 names na dtypes t = (Ok df, t') ->
  exists content,
    fs path = Some content
    /\ columns df = names
    /\ List.length (rows df) = List.length content - 1
    /\ (forall r, In r (rows df) -> map fst r = names)
    /\ t' = t ++ [EvOpen path; EvParse path].
Proof.
  intros H.
  destruct (read_csv_ok _ _ _ _ _ _ _ _ _ H) as [content [Hfs [Ht [Hcols Hrows]]]].
  exists content. split; [exact Hfs|]. split; [exact Hcols|]. split; [|split].
  - rewrite <- (Forall2_length Hrows), length_data_fields. apply length_skipn.
  - intros r Hr. eapply read_csv_row_names; eauto.
  - exact Ht.
Qed.

Lemma names_pen_loop (r : row) :
  map fst r = pen_names ->
  map fst (let r1 := set_cell "eligibles" (pen_numeric (get "eligibles" r)) r in
           let r2 := set_cell "enrolled" (pen_numeric (get "enrolled" r1)) r1 in
           set_cell "penetration" (pen_numeric (get "penetration" r2)) r2)
  = pen_names.
Proof.
  intros Hr. cbv zeta.
  set (r1 := set_cell "eligibles" (pen_numeric (get "eligibles" r)) r).
  assert (H1 : map fst r1 = pen_names)
    by (unfold r1; rewrite names_set_cell; rewrite Hr; reflexivity).
  set (r2 := set_cell "enrolled" (pen_numeric (get "enrolled" r1)) r1).
  assert (H2 : map fst r2 = pen_names)
    by (unfold r2; rewrite names_set_cell; rewrite H1; reflexivity).
  rewrite names_set_cell; rewrite H2; reflexivity.
Qed.

(** X3.  Each reader returns a table with its own fixed column names, in
    order, whatever the header of the file says; every row carries
    exactly these columns; the table has one row for each record after
    the first; and the file has been opened and parsed once. *)
Theorem readers_shape fs path t df t' :
  let shape names :=
    exists content,
      fs path = Some content
      /\ columns df = names
      /\ List.length (rows df) = List.length content - 1
      /\ (forall r, In r (rows df) -> map fst r = names)
      /\ t' = t ++ [EvOpen path; EvParse path] in
  (read_contract fs path t = (Ok df, t') -> shape contract_names)
  /\ (read_enroll fs path t = (Ok df, t') -> shape enroll_names)
  /\ (read_service_area fs path t = (Ok df, t') -> shape sa_names)
  /\ (read_penetration fs path t = (Ok df, t') -> shape pen_names).
Proof.
  cbv zeta. split; [|split; [|split]].
  - apply read_csv_shape.
  - apply read_csv_shape.
  - intros H. unfold read_service_area in H.
    apply bind_inv in H as (d & t1 & Hd & H). apply ret_inv in H as [-> ->].
    destruct (read_csv_shape _ _ _ _ _ _ _ _ Hd) as (content & Hfs & Hc & Hl & Hn & Ht).
    exists content. split; [exact Hfs|]. split; [|split; [|split]].
    + unfold map_col, setitem_series. simpl columns. rewrite Hc. reflexivity.
    + rewrite rows_map_col, length_map. exact Hl.
    + intros r Hr. rewrite rows_map_col in Hr. apply in_map_iff in Hr as [r0 [<- Hr0]].
      rewrite names_set_cell; rewrite (Hn _ Hr0); reflexivity.
    + exact Ht.
  - intros H. unfold read_penetration in H.
    apply bind_inv in H as (d & t1 & Hd & H). apply ret_inv in H as [-> ->].
    destruct (read_csv_shape _ _ _ _ _ _ _ _ Hd) as (content & Hfs & Hc & Hl & Hn & Ht).
    exists content. split; [exact Hfs|]. split; [|split; [|split]].
    + simpl fold_left. unfold map_col, setitem_series. simpl columns. rewrite Hc. reflexivity.
    + rewrite rows_pen_loop, length_map. exact Hl.
    + intros r Hr. rewrite rows_pen_loop in Hr. apply in_map_iff in Hr as [r0 [<- Hr0]].
      apply names_pen_loop. exact (Hn _ Hr0).
    + exact Ht.
Qed.

Lemma readers_shape_witness :
  exists df t',
    read_penetration pen_demo_fs "pen.csv" [] = (Ok df, t')
    /\ exists content,
        pen_demo_fs "pen.csv" = Some content
        /\ columns df = pen_names
        /\ List.length (rows df) = List.length content - 1
        /\ (forall r, In r (rows df) -> map fst r = pen_names)
        /\ t' = [] ++ [EvOpen "pen.csv"; EvParse "pen.csv"].
Proof.
  destruct (read_penetration pen_demo_fs "pen.csv" []) as [[e|df] t'] eqn:E.
  - vm_compute in E. discriminate.
  - exists df, t'. split; [reflexivity|].
    exact (proj2 (proj2 (proj2 (readers_shape pen_demo_fs "pen.csv" [] df t'))) E).
Defined.

(** X4.  The header record of a file has no effect: two files that differ
    in their first record only give the same result, table or error, with
    each of the four readers. *)
Theorem readers_ignore_header fs fs' path h h' data t
        (Hfs : fs path = Some (h :: data)) (Hfs' : fs' path = Some (h' :: data)) :
  read_contract fs path t = read_contract fs' path t
  /\ read_enroll fs path t = read_enroll fs' path t
  /\ read_service_area fs path t = read_service_area fs' path t
  /\ read_penetration fs path t = read_penetration fs' path t.
Proof.
  assert (H : forall names na dtypes,
             read_csv fs path 1 names na dtypes t = read_csv fs' path 1 names na dtypes t).
  { intros. unfold read_csv, open_file. rewrite Hfs, Hfs'. reflexivity. }
  unfold read_contract, read_enroll, read_service_area, read_penetration, bind.
  rewrite !H. auto.
Qed.

Lemma readers_ignore_header_witness :
  read_enroll contract_demo_fs "enroll.csv" []
  = read_enroll (fun p => if String.eqb p "enroll.csv"
                          then Some [["contractid"; "planid"; "ssa"; "fips"; "state";
                                      "county"; "enrollment"];
                                     ["H1234"; "1"; "1010"; "1001"; "AL"; "-"; "*"];
                                     ["H1234"; "1"; "1020"; "1003"; "AL"; "Baldwin"; "25"]]
                          else None) "enroll.csv" [].
Proof.
  refine (proj1 (proj2 (readers_ignore_header contract_demo_fs _ "enroll.csv"
                                              _ _ _ [] _ _))); reflexivity.
Defined.

(** ** Fields that are no numbers *)

Lemma read_record_raises na dtypes :
  forall names fields j col raw e0,
    nth_error names j = Some col -> nth_error fields j = Some raw ->
    convert na (dtype_of dtypes col) raw = inl e0 ->
    exists e, read_record na dtypes names fields = inl e.
Proof.
  induction names as [|n names IH]; intros fields j col raw e0 Hn Hf Hc.
  - destruct j; discriminate.
  - destruct fields as [|f fields]; [destruct j; discriminate|].
    destruct j as [|j]; simpl in Hn, Hf.
    + inversion Hn; inversion Hf; subst. simpl. rewrite Hc. simpl. eauto.
    + simpl. destruct (convert na (dtype_of dtypes n) f) as [e|c]; simpl; [eauto|].
      destruct (IH _ _ _ _ _ Hn Hf Hc) as [e He]. rewrite He. simpl. eauto.
Qed.

Lemma mapR_raises {A B} (f : A -> result B) (l : list A) (a : A) (e0 : exn) :
  In a l -> f a = inl e0 -> exists e, mapR f l = inl e.
Proof.
  induction l as [|x l IH]; simpl; [tauto|].
  intros [->|Hin] Ha.
  - rewrite Ha. simpl. eauto.
  - destruct (f x) as [e|b]; simpl; [eauto|].
    destruct (IH Hin Ha) as [e He]. rewrite He. simpl. eauto.
Qed.

Lemma convert_bad_number (na : list string) (raw : string) :
  is_na na raw = false -> parse_float raw = None ->
  exists e0, convert na DFloat raw = inl e0.
Proof. intros Hna Hp. unfold convert. rewrite Hna, Hp. unfold Raise. eauto. Qed.

Lemma read_csv_bad_number fs path names extra dtypes content t :
  fs path = Some content ->
  bad_number names dtypes (extra ++ default_na) content ->
  exists e, read_csv fs path 1 names extra dtypes t
            = (Raise e, t ++ [EvOpen path; EvParse path]).
Proof.
  intros Hfs [Hfit (rec & j & col & raw & Hin & Hj & Hdt & Hraw & Hna & Hp)].
  destruct (convert_bad_number _ _ Hna Hp) as [e0 He0]. rewrite <- Hdt in He0.
  destruct (read_record_raises _ _ _ _ _ _ _ _ Hj Hraw He0) as [e1 He1].
  destruct (mapR_raises _ _ _ _ Hin He1) as [e He].
  exists e. unfold read_csv, open_file, bind, emit, ret, lift. rewrite Hfs.
  unfold Ok. cbv beta iota. rewrite (data_fields_plain _ _ (surplus_fits _ _ Hfit)), He. rewrite <- app_assoc. reflexivity.
Qed.

(** X5.  In a file whose records have no more fields than the reader has
    names, a field of a float column that is neither one of the reader's
    missing-value strings nor a number makes the reader raise, after the
    file was opened: no table is returned and no missing cell is put in
    its place.  So an enrollment file with such a field makes [load_month]
    raise as well. *)
Theorem readers_reject_bad_number fs path content t
        (Hfs : fs path = Some content) :
  (bad_number contract_names contract_dtypes ([] ++ default_na) content ->
   exists e, read_contract fs path t = (Raise e, t ++ [EvOpen path; EvParse path]))
  /\ (bad_number enroll_names enroll_dtypes (["*"] ++ default_na) content ->
      exists e, read_enroll fs path t = (Raise e, t ++ [EvOpen path; EvParse path]))
  /\ (bad_number sa_names sa_dtypes (["*"] ++ default_na) content ->
      exists e, read_service_area fs path t
                = (Raise e, t ++ [EvOpen path; EvParse path]))
  /\ (bad_number pen_names pen_dtypes pen_na content ->
      exists e, read_penetration fs path t
                = (Raise e, t ++ [EvOpen path; EvParse path]))
  /\ (forall m y,
         path = path_str (e_path m y) ->
         bad_number enroll_names enroll_dtypes (["*"] ++ default_na) content ->
         forall out t', load_month fs m y t <> (Ok out, t')).
Proof.
  split; [|split; [|split; [|split]]].
  - intros Hb. apply read_csv_bad_number with (content := content); assumption.
  - intros Hb. apply read_csv_bad_number with (content := content); assumption.
  - intros Hb.
    destruct (read_csv_bad_number fs path sa_names ["*"] sa_dtypes content t Hfs Hb) as [e He].
    exists e. unfold read_service_area. apply bind_raise. exact He.
  - intros Hb.
    destruct (read_csv_bad_number fs path pen_names [""; "NA"; "*"; "-"; "--"] pen_dtypes
                                  content t Hfs Hb) as [e He].
    exists e. unfold read_penetration. apply bind_raise. exact He.
  - intros m y -> Hb out t' Hrun.
    destruct (load_month_ok _ _ _ _ _ _ Hrun) as (c & e & mg & v & t2 & _ & _ & _ & He & _).
    destruct (read_csv_bad_number fs _ enroll_names ["*"] enroll_dtypes content t2 Hfs Hb)
      as [x Hx].
    unfold read_enroll in He. rewrite Hx in He. discriminate.
Qed.

Lemma readers_reject_bad_number_witness :
  (exists e, read_enroll bad_enroll_fs (path_str (e_path "01" 2015)) []
             = (Raise e, [] ++ [EvOpen (path_str (e_path "01" 2015));
                                EvParse (path_str (e_path "01" 2015))]))
  /\ forall out t', load_month bad_enroll_fs "01" 2015 [] <> (Ok out, t').
Proof.
  assert (Hb : bad_number enroll_names enroll_dtypes (["*"] ++ default_na)
                          [["Contract Number"; "Plan ID"];
                           ["H1234"; "1"; "1010"; "1001"; "AL"; "Autauga"; "25"];
                           ["H1234"; "1"; "1020"; "1003"; "AL"; "Baldwin"; "under 11"]]).
  { split; [repeat constructor; simpl; lia|].
    exists ["H1234"; "1"; "1020"; "1003"; "AL"; "Baldwin"; "under 11"], 6, "enrollment",
           "under 11".
    repeat split; try reflexivity. simpl. auto. }
  destruct (readers_reject_bad_number bad_enroll_fs (path_str (e_path "01" 2015)) _ []
                                      eq_refl) as (_ & H2 & _ & _ & H5).
  split; [exact (H2 Hb)|]. exact (H5 "01" 2015%Z eq_refl Hb).
Defined.

(** ** Typed columns *)

Lemma to_numeric_is_number (c : cell) : is_number_or_na (to_numeric_coerce c) = true.
Proof.
  destruct c; simpl; try reflexivity.
  destruct (parse_float s); reflexivity.
Qed.

Lemma dict_map_partial_bool (c : cell) :
  is_bool_or_na (dict_map partial_dict c) = true.
Proof.
  destruct c as [|s|f|b]; try reflexivity.
  - unfold dict_map, partial_dict; simpl.
    destruct (String.eqb s "TRUE"); [reflexivity|].
    destruct (String.eqb s "FALSE"); reflexivity.
  - unfold dict_map, partial_dict; simpl.
    destruct (float_eqb f (float_of_Z 1)); [reflexivity|].
    destruct (float_eqb f (float_of_Z 0)); reflexivity.
  - destruct b; reflexivity.
Qed.

(** X6.  In every row of the table the service-area reader returns, short
    records included, the partial-coverage cell is a boolean or missing,
    never a string; in every row of the table the penetration reader
    returns, the eligibles, enrolled and penetration cells are numbers or
    missing, never strings. *)
Theorem readers_typed_columns fs path t df t' :
  (read_service_area fs path t = (Ok df, t') ->
   forall r, In r (rows df) -> is_bool_or_na (get "partial" r) = true)
  /\ (read_penetration fs path t = (Ok df, t') ->
      forall r col, In r (rows df) ->
                    In col ["eligibles"; "enrolled"; "penetration"] ->
                    is_number_or_na (get col r) = true).
Proof.
  split.
  - intros H r Hr. unfold read_service_area in H.
    apply bind_inv in H as (d & t1 & Hd & H). apply ret_inv in H as [-> ->].
    rewrite rows_map_col in Hr. apply in_map_iff in Hr as [r0 [<- _]].
    rewrite get_set_cell, String.eqb_refl.
    apply dict_map_partial_bool.
  - intros H r col Hr Hcol. unfold read_penetration in H.
    apply bind_inv in H as (d & t1 & Hd & H). apply ret_inv in H as [-> ->].
    rewrite rows_pen_loop in Hr. apply in_map_iff in Hr as [r0 [<- _]].
    rewrite pen_loop_get.
    replace (has_col col ["eligibles"; "enrolled"; "penetration"]) with true
      by (symmetry; apply has_col_In; exact Hcol).
    apply to_numeric_is_number.
Qed.

Lemma readers_typed_columns_witness :
  exists df t',
    read_service_area sa_demo_fs "sa.csv" [] = (Ok df, t')
    /\ forall r, In r (rows df) -> is_bool_or_na (get "partial" r) = true.
Proof.
  destruct (read_service_area sa_demo_fs "sa.csv" []) as [[e|df] t'] eqn:E.
  - vm_compute in E. discriminate.
  - exists df, t'. split; [reflexivity|].
    exact (proj1 (readers_typed_columns sa_demo_fs "sa.csv" [] df t') E).
Defined.

(** ** The rows of the plan/enrollment loader *)

Lemma join_rows_inv (on rcols : list string) (L R : list row) (r0 : row) :
  In r0 (flat_map (join_row on rcols R) L) ->
  exists l, In l L
            /\ key_of on r0 = key_of on l
            /\ ((matches on l R = [] /\ r0 = l ++ na_row (non_key on rcols))
                \/ (exists m, In m R
                              /\ key_eqb (key_of on l) (key_of on m) = true
                              /\ r0 = l ++ project (non_key on rcols) m)).
Proof.
  intros Hr. apply in_flat_map in Hr as [l [Hl Hr]]. exists l. split; [exact Hl|].
  unfold join_row in Hr. destruct (matches on l R) as [|m0 ms] eqn:Em.
  - destruct Hr as [<-|[]]. split; [apply key_of_app_na|]. left. auto.
  - apply in_map_iff in Hr as [m [<- Hin]]. split; [apply key_of_app_project|].
    right. exists m. rewrite <- Em in Hin. apply filter_In in Hin as [Hin Hk]. auto.
Qed.

Lemma join_rows_intro (on rcols : list string) (L R : list row) (l m : row) :
  In l L -> In m R -> key_eqb (key_of on l) (key_of on m) = true ->
  In (l ++ project (non_key on rcols) m) (flat_map (join_row on rcols R) L).
Proof.
  intros Hl Hm Hk. apply in_flat_map. exists l. split; [exact Hl|].
  assert (Hin : In m (matches on l R)) by (apply filter_In; auto).
  unfold join_row. destruct (matches on l R) as [|m0 ms]; [destruct Hin|].
  apply in_map_iff. eauto.
Qed.

Lemma load_month_parts fs m y t out t' :
  load_month fs m y t = (Ok out, t') ->
  exists c e v t1 t2,
    read_contract fs (path_str (c_path m y)) t1 = (Ok c, t2)
    /\ read_enroll fs (path_str (e_path m y)) t2 = (Ok e, t')
    /\ py_int m = Some v
    /\ (forall l, In l (rows c) -> map fst l = contract_names)
    /\ columns out = month_columns
    /\ rows out
       = map (fun r => set_cell "year" (Num (float_of_Z y))
                                (set_cell "month" (Num (float_of_Z v)) r))
             (flat_map (join_row cpsc_keys enroll_names (rows e))
                       (drop_dups cpsc_keys [] (rows c))).
Proof.
  intros Hrun.
  destruct (load_month_ok _ _ _ _ _ _ Hrun)
    as (c & e & merged & v & t2 & _ & _ & Hc & He & Hm & Hv & ->).
  exists c, e, v. eexists. exists t2.
  split; [exact Hc|]. split; [exact He|]. split; [exact Hv|].
  destruct (merge_inv _ _ _ _ _ Hm) as (_ & Hcols & Hrows).
  rewrite app_nil_r in Hrows.
  destruct (read_csv_ok _ _ _ _ _ _ _ _ _ Hc) as [? [_ [_ [Hcc _]]]].
  destruct (read_csv_ok _ _ _ _ _ _ _ _ _ He) as [? [_ [_ [Hce _]]]].
  split; [|split].
  - intros l Hl. eapply read_csv_row_names; eauto.
  - unfold stamp, setitem_scalar. simpl columns. rewrite Hcols. simpl columns.
    rewrite Hcc, Hce. reflexivity.
  - rewrite rows_stamp, Hrows. simpl columns. rewrite Hce. reflexivity.
Qed.

Lemma key_of_stamped (v y : Z) (r : row) :
  key_of cpsc_keys (set_cell "year" (Num (float_of_Z y))
                             (set_cell "month" (Num (float_of_Z v)) r))
  = key_of cpsc_keys r.
Proof. rewrite !key_of_set_cell by reflexivity. reflexivity. Qed.

Lemma first_with_drop_dups (on : list string) (l : row) (rs : list row) :
  In l (drop_dups on [] rs) ->
  first_with on (key_of on l) rs = Some l.
Proof.
  intros Hl. rewrite <- (drop_dups_first on (key_of on l) rs []) by reflexivity.
  eapply distinct_first; [apply drop_dups_distinct|exact Hl].
Qed.

(** X7.  Of several contract records with the same (contractid, planid),
    the loader keeps the first: in every row of the returned table the
    twelve contract columns are those of the first record of the contract
    file that has the row's key. *)
Theorem load_month_keeps_first fs m y t out t'
        (Hrun : load_month fs m y t = (Ok out, t')) :
  exists c t1 t2,
    read_contract fs (path_str (c_path m y)) t1 = (Ok c, t2)
    /\ forall r, In r (rows out) ->
                 exists l,
                   first_with cpsc_keys (key_of cpsc_keys r) (rows c) = Some l
                   /\ forall col, In col contract_names -> get col r = get col l.
Proof.
  destruct (load_month_parts _ _ _ _ _ _ Hrun)
    as (c & e & v & t1 & t2 & Hc & _ & _ & Hnames & _ & Hrows).
  exists c, t1, t2. split; [exact Hc|].
  intros r Hr. rewrite Hrows in Hr. apply in_map_iff in Hr as [r0 [<- Hr0]].
  rewrite key_of_stamped.
  apply join_rows_inv in Hr0 as (l & Hl & Hk & Hshape).
  exists l. rewrite Hk. split; [apply first_with_drop_dups; exact Hl|].
  intros col Hcol.
  assert (Hln : map fst l = contract_names) by (apply Hnames; eapply drop_dups_In; eauto).
  destruct Hshape as [[_ ->]|(m0 & _ & _ & ->)]; apply get_contract_part; auto.
Qed.

Lemma load_month_keeps_first_witness :
  exists out t' c t1 t2,
    load_month month_demo_fs "01" 2015 [] = (Ok out, t')
    /\ read_contract month_demo_fs (path_str (c_path "01" 2015)) t1 = (Ok c, t2)
    /\ map (get "plan_name") (rows out) = [Str "Gold"; Str "Gold"; Str "Silver"]
    /\ forall r, In r (rows out) ->
                 exists l,
                   first_with cpsc_keys (key_of cpsc_keys r) (rows c) = Some l
                   /\ forall col, In col contract_names -> get col r = get col l.
Proof.
  destruct (load_month month_demo_fs "01" 2015 []) as [[x|out] t'] eqn:E;
    [vm_compute in E; discriminate|].
  destruct (load_month_keeps_first _ _ _ _ _ _ E) as (c & t1 & t2 & Hc & H).
  exists out, t', c, t1, t2. repeat split; auto.
  vm_compute in E. inversion E. reflexivity.
Defined.

Lemma has_key_app (on : list string) (k : key) (a b : list row) :
  has_key on k (a ++ b) = has_key on k a || has_key on k b.
Proof. unfold has_key. apply existsb_app. Qed.

Lemma has_key_map (on : list string) (k : key) (g : row -> row) (rs : list row) :
  (forall r, key_of on (g r) = key_of on r) ->
  has_key on k (map g rs) = has_key on k rs.
Proof.
  intros Hg. unfold has_key. induction rs as [|r rs IH]; simpl; [reflexivity|].
  rewrite Hg, IH. reflexivity.
Qed.

Lemma has_key_join_row (on rcols : list string) (k : key) (R : list row) (l : row) :
  has_key on k (join_row on rcols R l) = key_eqb k (key_of on l).
Proof.
  pose proof (count_key_join_row on k rcols R l) as Hc.
  destruct (key_eqb k (key_of on l)).
  - destruct (has_key on k (join_row on rcols R l)) eqn:E; [reflexivity|].
    apply count_key_0_has_key in E. lia.
  - apply count_key_0_has_key. exact Hc.
Qed.

Lemma has_key_flat_join (on rcols : list string) (k : key) (L R : list row) :
  has_key on k (flat_map (join_row on rcols R) L) = has_key on k L.
Proof.
  induction L as [|l L IH]; simpl; [reflexivity|].
  rewrite has_key_app, has_key_join_row, IH. reflexivity.
Qed.

Lemma has_key_drop_dups (on : list string) (k : key) (rs : list row) :
  has_key on k (drop_dups on [] rs) = has_key on k rs.
Proof.
  pose proof (drop_dups_first on k rs [] eq_refl) as Hf.
  destruct (has_key on k rs) eqn:E.
  - destruct (has_key on k (drop_dups on [] rs)) eqn:E'; [reflexivity|].
    apply first_with_none in E'. rewrite E' in Hf. symmetry in Hf.
    apply first_with_none in Hf. congruence.
  - apply first_with_none. rewrite Hf. apply first_with_none. exact E.
Qed.

(** X8.  The keys of the returned table are exactly the keys of the
    contract file: deduplication loses no (contractid, planid), and the
    left join adds none, so an enrollment record whose key no contract
    record has appears in no row. *)
Theorem load_month_keys fs m y t out t'
        (Hrun : load_month fs m y t = (Ok out, t')) :
  exists c e t1 t2,
    read_contract fs (path_str (c_path m y)) t1 = (Ok c, t2)
    /\ read_enroll fs (path_str (e_path m y)) t2 = (Ok e, t')
    /\ (forall k, has_key cpsc_keys k (rows out) = has_key cpsc_keys k (rows c))
    /\ (forall e0 r, In e0 (rows e) ->
                     has_key cpsc_keys (key_of cpsc_keys e0) (rows c) = false ->
                     In r (rows out) ->
                     key_eqb (key_of cpsc_keys e0) (key_of cpsc_keys r) = false).
Proof.
  destruct (load_month_parts _ _ _ _ _ _ Hrun)
    as (c & e & v & t1 & t2 & Hc & He & _ & _ & _ & Hrows).
  exists c, e, t1, t2. split; [exact Hc|]. split; [exact He|].
  assert (Hkeys : forall k, has_key cpsc_keys k (rows out) = has_key cpsc_keys k (rows c)).
  { intros k. rewrite Hrows.
    rewrite has_key_map by (intros; apply key_of_stamped).
    rewrite has_key_flat_join. apply has_key_drop_dups. }
  split; [exact Hkeys|].
  intros e0 r _ Hno Hr. rewrite <- Hkeys in Hno.
  destruct (key_eqb (key_of cpsc_keys e0) (key_of cpsc_keys r)) eqn:E; [|reflexivity].
  rewrite (has_key_In _ _ _ _ Hr E) in Hno. discriminate.
Qed.

Lemma load_month_keys_witness :
  exists out t' c e t1 t2,
    load_month month_demo_fs "01" 2015 [] = (Ok out, t')
    /\ read_contract month_demo_fs (path_str (c_path "01" 2015)) t1 = (Ok c, t2)
    /\ read_enroll month_demo_fs (path_str (e_path "01" 2015)) t2 = (Ok e, t')
    /\ has_key cpsc_keys [Str "H9999"; Num (Fin 7)] (rows e) = true
    /\ has_key cpsc_keys [Str "H9999"; Num (Fin 7)] (rows out) = false
    /\ (forall k, has_key cpsc_keys k (rows out) = has_key cpsc_keys k (rows c)).
Proof.
  destruct (load_month month_demo_fs "01" 2015 []) as [[x|out] t'] eqn:E;
    [vm_compute in E; discriminate|].
  destruct (load_month_keys _ _ _ _ _ _ E) as (c & e & t1 & t2 & Hc & He & H & _).
  exists out, t', c, e, t1, t2. repeat split; auto.
  - apply read_csv_ok in He as (content & Hfs & _ & _ & Hrows).
    vm_compute in Hfs. inversion Hfs; subst content; clear Hfs.
    simpl skipn in Hrows. apply Forall2_mapR in Hrows.
    remember (rows e) as re eqn:Hre. vm_compute in Hrows.
    inversion Hrows. reflexivity.
  - vm_compute in E. inversion E. reflexivity.
Defined.

(** X9.  Every enrollment record whose key a contract record has is in
    the returned table: for each deduplicated contract row and each
    enrollment record with the same (contractid, planid) there is a row
    with the contract columns of the one and the ssa, fips, state, county
    and enrollment cells of the other. *)
Theorem load_month_matched_rows fs m y t out t'
        (Hrun : load_month fs m y t = (Ok out, t')) :
  exists c e t1 t2,
    read_contract fs (path_str (c_path m y)) t1 = (Ok c, t2)
    /\ read_enroll fs (path_str (e_path m y)) t2 = (Ok e, t')
    /\ forall l e0,
        In l (rows (drop_duplicates cpsc_keys c)) -> In e0 (rows e) ->
        key_eqb (key_of cpsc_keys l) (key_of cpsc_keys e0) = true ->
        exists r, In r (rows out)
                  /\ (forall col, In col contract_names -> get col r = get col l)
                  /\ (forall col, In col enroll_fields -> get col r = get col e0).
Proof.
  destruct (load_month_parts _ _ _ _ _ _ Hrun)
    as (c & e & v & t1 & t2 & Hc & He & _ & Hnames & _ & Hrows).
  exists c, e, t1, t2. split; [exact Hc|]. split; [exact He|].
  intros l e0 Hl He0 Hk. simpl in Hl.
  assert (Hln : map fst l = contract_names) by (apply Hnames; eapply drop_dups_In; eauto).
  eexists. split; [|split].
  - rewrite Hrows. apply in_map_iff. eexists. split; [reflexivity|].
    apply join_rows_intro; eauto.
  - intros col Hcol. apply get_contract_part; auto.
  - intros col Hcol. rewrite get_stamped, get_app, Hln, get_project.
    simpl in Hcol.
    repeat (destruct Hcol as [<-|Hcol]; [reflexivity|]). destruct Hcol.
Qed.

Lemma load_month_matched_rows_witness :
  exists out t',
    load_month month_demo_fs "01" 2015 [] = (Ok out, t')
    /\ map (fun r => [get "planid" r; get "county" r; get "enrollment" r]) (rows out)
       = [[Num (Fin 1); Str "Autauga"; Num (Fin 25)];
          [Num (Fin 1); Str "Baldwin"; NaN];
          [Num (Fin 2); NaN; NaN]]
    /\ exists c e t1 t2,
        read_contract month_demo_fs (path_str (c_path "01" 2015)) t1 = (Ok c, t2)
        /\ read_enroll month_demo_fs (path_str (e_path "01" 2015)) t2 = (Ok e, t')
        /\ forall l e0,
            In l (rows (drop_duplicates cpsc_keys c)) -> In e0 (rows e) ->
            key_eqb (key_of cpsc_keys l) (key_of cpsc_keys e0) = true ->
            exists r, In r (rows out)
                      /\ (forall col, In col contract_names -> get col r = get col l)
                      /\ (forall col, In col enroll_fields -> get col r = get col e0).
Proof.
  destruct (load_month month_demo_fs "01" 2015 []) as [[x|out] t'] eqn:E;
    [vm_compute in E; discriminate|].
  exists out, t'. split; [reflexivity|]. split.
  - vm_compute in E. inversion E. reflexivity.
  - exact (load_month_matched_rows _ _ _ _ _ _ E).
Defined.

(** ** When the plan/enrollment loader returns *)

Lemma read_csv_run fs path names extra dtypes content rs t :
  fs path = Some content ->
  records_read extra dtypes names content rs ->
  read_csv fs path 1 names extra dtypes t
  = (Ok (mkDF names rs), t ++ [EvOpen path; EvParse path]).
Proof.
  intros Hfs Hrs. unfold read_csv, open_file, bind, emit, ret, lift. rewrite Hfs.
  unfold Ok. cbv beta iota. unfold records_read in Hrs.
  assert (Hfit : Forall (fun rec => List.length rec <= List.length names) (skipn 1 content)).
  { eapply mapR_Forall; [|exact Hrs]. intros a b. apply read_record_length. }
  rewrite (data_fields_plain _ _ (surplus_fits _ _ Hfit)), Hrs.
  rewrite <- app_assoc. reflexivity.
Qed.

(** The key columns of the two tables [load_month] joins have the kinds
    their dtypes give them, so the check of [merge] passes. *)
Lemma convert_kind (na : list string) (dt : dtype) (raw : string) (c : cell) :
  convert na dt raw = Ok c ->
  match dt with
  | DStr => is_str c || isna c
  | _ => is_num c || isna c
  end = true.
Proof.
  unfold convert. destruct (is_na na raw).
  - intros H; inversion H; subst c. destruct dt; reflexivity.
  - destruct dt.
    + intros H; inversion H; reflexivity.
    + destruct (parse_float raw); intros H; inversion H; reflexivity.
    + destruct (parse_float raw) as [f|]; [|discriminate].
      destruct (is_integral f); intros H; inversion H; reflexivity.
Qed.

Lemma records_read_kind extra dtypes names content rs :
  NoDup names -> records_read extra dtypes names content rs ->
  forall r col, In r rs -> In col names ->
                match dtype_of dtypes col with
                | DStr => is_str (get col r) || isna (get col r)
                | _ => is_num (get col r) || isna (get col r)
                end = true.
Proof.
  intros Hnd Hrs r col Hr Hcol. unfold records_read in Hrs.
  apply mapR_Forall2 in Hrs.
  destruct (Forall2_In_r _ _ _ _ Hrs Hr) as [rec [_ Hrec]].
  destruct (In_nth_error _ _ Hcol) as [j Hj].
  pose proof (read_record_get _ _ _ Hnd _ _ Hrec j col Hj) as Hc.
  unfold field_cell in Hc. destruct (nth_error rec j) as [raw|].
  - exact (convert_kind _ _ _ _ Hc).
  - rewrite Hc. destruct (dtype_of dtypes col); reflexivity.
Qed.

Lemma no_clash_text (L R : list row) (c : string) :
  (forall r, In r L -> is_str (get c r) || isna (get c r) = true) ->
  (forall r, In r R -> is_str (get c r) || isna (get c r) = true) ->
  kinds_clash L R c = false.
Proof.
  intros HL HR.
  assert (Hno : forall rs, (forall r, In r rs -> is_str (get c r) || isna (get c r) = true) ->
                           existsb is_num (column c rs) = false).
  { intros rs H. induction rs as [|r rs IH]; simpl; [reflexivity|].
    rewrite IH by (intros; apply H; right; assumption).
    pose proof (H r (or_introl eq_refl)) as Hr.
    destruct (get c r); simpl in *; try reflexivity; discriminate. }
  unfold kinds_clash, numbers_only. rewrite (Hno L HL), (Hno R HR).
  simpl. rewrite andb_false_r. reflexivity.
Qed.

Lemma no_clash_numbers (L R : list row) (c : string) :
  (forall r, In r L -> is_num (get c r) || isna (get c r) = true) ->
  (forall r, In r R -> is_num (get c r) || isna (get c r) = true) ->
  kinds_clash L R c = false.
Proof.
  intros HL HR.
  assert (Hno : forall rs, (forall r, In r rs -> is_num (get c r) || isna (get c r) = true) ->
                           holds_text (column c rs) = false).
  { intros rs H. unfold holds_text. induction rs as [|r rs IH]; simpl; [reflexivity|].
    rewrite IH by (intros; apply H; right; assumption).
    pose proof (H r (or_introl eq_refl)) as Hr.
    destruct (get c r); simpl in *; try reflexivity; discriminate. }
  unfold kinds_clash. rewrite (Hno L HL), (Hno R HR).
  simpl. rewrite andb_false_r. reflexivity.
Qed.

Lemma merge_cpsc_run cc ec rc re :
  records_read [] contract_dtypes contract_names cc rc ->
  records_read ["*"] enroll_dtypes enroll_names ec re ->
  merge HowLeft cpsc_keys (drop_duplicates cpsc_keys (mkDF contract_names rc))
        (mkDF enroll_names re)
  = Ok (mkDF (contract_names ++ enroll_fields)
             (flat_map (join_row cpsc_keys enroll_names re) (drop_dups cpsc_keys [] rc))).
Proof.
  intros Hrc Hre. unfold merge, drop_duplicates. simpl find at 1.
  cbn [rows columns].
  assert (H1 : kinds_clash (drop_dups cpsc_keys [] rc) re "contractid" = false).
  { apply no_clash_text.
    - intros r Hr. apply drop_dups_In in Hr.
      exact (records_read_kind _ _ _ _ _ contract_names_nodup Hrc r "contractid" Hr
                               (or_introl eq_refl)).
    - intros r Hr.
      exact (records_read_kind _ _ _ _ _ enroll_names_nodup Hre r "contractid" Hr
                               (or_introl eq_refl)). }
  assert (H2 : kinds_clash (drop_dups cpsc_keys [] rc) re "planid" = false).
  { apply no_clash_numbers.
    - intros r Hr. apply drop_dups_In in Hr.
      exact (records_read_kind _ _ _ _ _ contract_names_nodup Hrc r "planid" Hr
                               (or_intror (or_introl eq_refl))).
    - intros r Hr.
      exact (records_read_kind _ _ _ _ _ enroll_names_nodup Hre r "planid" Hr
                               (or_intror (or_introl eq_refl))). }
  change (find (kinds_clash (drop_dups cpsc_keys [] rc) re) cpsc_keys)
    with (if kinds_clash (drop_dups cpsc_keys [] rc) re "contractid"
          then Some "contractid"
          else if kinds_clash (drop_dups cpsc_keys [] rc) re "planid"
               then Some "planid" else None).
  rewrite H1, H2, app_nil_r. reflexivity.
Qed.

Lemma load_month_run fs m y t cc ec rc re v :
  fs (path_str (c_path m y)) = Some cc ->
  fs (path_str (e_path m y)) = Some ec ->
  records_read [] contract_dtypes contract_names cc rc ->
  records_read ["*"] enroll_dtypes enroll_names ec re ->
  py_int m = Some v ->
  load_month fs m y t
  = (Ok (stamp v y (mkDF (contract_names ++ enroll_fields)
                         (flat_map (join_row cpsc_keys enroll_names re)
                                   (drop_dups cpsc_keys [] rc)))),
     t ++ month_trace m y).
Proof.
  intros Hc He Hrc Hre Hv. unfold load_month.
  rewrite (bind_ok _ _ _ _ _ (path_exists_run fs (c_path m y) t)).
  rewrite Hc. cbn [negb].
  rewrite (bind_ok _ _ _ _ _ (path_exists_run fs (e_path m y) _)).
  rewrite He. cbn [negb].
  unfold read_contract, read_enroll.
  rewrite (bind_ok _ _ _ _ _ (read_csv_run fs _ _ _ _ _ _ _ Hc Hrc)).
  rewrite (bind_ok _ _ _ _ _ (read_csv_run fs _ _ _ _ _ _ _ He Hre)).
  unfold bind, lift, ret, int_of_str. rewrite Hv.
  rewrite (merge_cpsc_run _ _ _ _ Hrc Hre). unfold Ok. cbv beta iota.
  unfold month_trace. rewrite <- !app_assoc. reflexivity.
Qed.

(** X2.  A month string of plain ASCII that is no integer literal never
    gives a table: each of the three loaders raises.  Each loader reads
    its files before it evaluates [int(m)]: when the files are there and
    read fine, the error is the [ValueError] of [int(m)], with its
    message, and the trace is the one of the completed reads. *)
Theorem loaders_reject_bad_month fs m y t
        (Hascii : plain_ascii m = true) (Hm : py_int m = None) :
  let error :=
    ValueError ("invalid literal for int() with base 10: "
                  ++ substring 0 200 (py_repr m)) in
  (forall out t', load_month fs m y t <> (Ok out, t'))
  /\ (forall out t', load_month_sa fs m y t <> (Ok out, t'))
  /\ (forall out t', load_month_pen fs m y t <> (Ok out, t'))
  /\ (forall cc ec rc re,
         fs (path_str (c_path m y)) = Some cc ->
         fs (path_str (e_path m y)) = Some ec ->
         records_read [] contract_dtypes contract_names cc rc ->
         records_read ["*"] enroll_dtypes enroll_names ec re ->
         load_month fs m y t = (Raise error, t ++ month_trace m y))
  /\ (forall df t', read_service_area fs (sa_path m y) t = (Ok df, t') ->
                    load_month_sa fs m y t = (Raise error, t'))
  /\ (forall df t', read_penetration fs (pen_path m y) t = (Ok df, t') ->
                    load_month_pen fs m y t = (Raise error, t')).
Proof.
  cbv zeta. split; [|split; [|split; [|split; [|split]]]].
  - intros out t' H. destruct (load_month_ok _ _ _ _ _ _ H) as (? & ? & ? & v & ? & H').
    destruct H' as (_ & _ & _ & _ & _ & Hv & _). congruence.
  - intros out t' H. destruct (load_month_sa_ok _ _ _ _ _ _ H) as (? & v & _ & Hv & _).
    congruence.
  - intros out t' H. destruct (load_month_pen_ok _ _ _ _ _ _ H) as (? & v & _ & Hv & _).
    congruence.
  - intros cc ec rc re Hc He Hrc Hre. unfold load_month.
    rewrite (bind_ok _ _ _ _ _ (path_exists_run fs (c_path m y) t)).
    rewrite Hc. cbn [negb].
    rewrite (bind_ok _ _ _ _ _ (path_exists_run fs (e_path m y) _)).
    rewrite He. cbn [negb].
    unfold read_contract, read_enroll.
    rewrite (bind_ok _ _ _ _ _ (read_csv_run fs _ _ _ _ _ _ _ Hc Hrc)).
    rewrite (bind_ok _ _ _ _ _ (read_csv_run fs _ _ _ _ _ _ _ He Hre)).
    unfold bind, lift, ret, int_of_str. rewrite Hm.
    rewrite (merge_cpsc_run _ _ _ _ Hrc Hre). unfold Ok, Raise. cbv beta iota.
    unfold month_trace. rewrite <- !app_assoc. reflexivity.
  - intros df t' H. unfold load_month_sa. rewrite (bind_ok _ _ _ _ _ H).
    unfold int_of_str. rewrite Hm. reflexivity.
  - intros df t' H. unfold load_month_pen. rewrite (bind_ok _ _ _ _ _ H).
    unfold int_of_str. rewrite Hm. reflexivity.
Qed.

Lemma loaders_reject_bad_month_witness :
  let error := ValueError "invalid literal for int() with base 10: 'Jan'" in
  plain_ascii "Jan" = true /\ py_int "Jan" = None
  /\ load_month jan_demo_fs "Jan" 2015 [] = (Raise error, [] ++ month_trace "Jan" 2015)
  /\ load_month_sa jan_demo_fs "Jan" 2015 []
     = (Raise error, [EvOpen (sa_path "Jan" 2015); EvParse (sa_path "Jan" 2015)])
  /\ load_month_pen jan_demo_fs "Jan" 2015 []
     = (Raise error, [EvOpen (pen_path "Jan" 2015); EvParse (pen_path "Jan" 2015)])
  /\ (forall out t', load_month jan_demo_fs "Jan" 2015 [] <> (Ok out, t'))
  /\ (forall out t', load_month_sa jan_demo_fs "Jan" 2015 [] <> (Ok out, t'))
  /\ (forall out t', load_month_pen jan_demo_fs "Jan" 2015 [] <> (Ok out, t')).
Proof.
  cbv zeta. split; [reflexivity|]. split; [reflexivity|].
  destruct (loaders_reject_bad_month jan_demo_fs "Jan" 2015 [] eq_refl eq_refl)
    as (H1 & H2 & H3 & H4 & H5 & H6).
  split; [|split; [|split; [|auto]]].
  - destruct (mapR (read_record ([] ++ default_na) contract_dtypes contract_names)
                   (skipn 1 [["Contract ID"; "Plan ID"];
             ["H1234"; "001"; "Local CCP"; "HMO"; "Yes"; "No"; "No"; "Org"; "Org"; "Gold"; "Parent"; "01/01/2015"];
             ["H1234"; "1"; "Local CCP"; "HMO"; "Yes"; "No"; "No"; "Org"; "Org"; "Gold again"; "Parent"; "01/01/2015"];
             ["H1234"; "2"; "Local CCP"; "PPO"; "No"; "No"; "No"; "Org"; "Org"; "Silver"; "Parent"; "01/01/2015"]]))
      as [e|rc] eqn:Erc; [vm_compute in Erc; discriminate|].
    destruct (mapR (read_record (["*"] ++ default_na) enroll_dtypes enroll_names)
                   (skipn 1 [["Contract Number"; "Plan ID"];
             ["H1234"; "1"; "1010"; "1001"; "AL"; "Autauga"; "25"];
             ["H1234"; "1"; "1020"; "1003"; "AL"; "Baldwin"; "*"];
             ["H9999"; "7"; "1020"; "1003"; "AL"; "Baldwin"; "11"]]))
      as [e|re] eqn:Ere; [vm_compute in Ere; discriminate|].
    exact (H4 _ _ rc re eq_refl eq_refl Erc Ere).
  - assert (E : exists df, read_service_area jan_demo_fs (sa_path "Jan" 2015) []
                            = (Ok df, [EvOpen (sa_path "Jan" 2015);
                                       EvParse (sa_path "Jan" 2015)]))
      by (vm_compute; eexists; reflexivity).
    destruct E as [df E]. exact (H5 df _ E).
  - assert (E : exists df, read_penetration jan_demo_fs (pen_path "Jan" 2015) []
                            = (Ok df, [EvOpen (pen_path "Jan" 2015);
                                       EvParse (pen_path "Jan" 2015)]))
      by (vm_compute; eexists; reflexivity).
    destruct E as [df E]. exact (H6 df _ E).
Defined.

(** X10.  When both files exist, every record after the header of each
    converts and the month string is an integer literal, [load_month]
    returns: the table is the left join of the deduplicated contract rows
    with the enrollment rows, stamped.  Whenever it returns, both files
    exist, and the loader has checked the two paths and then read the
    contract file and the enrollment file, in this order, once each. *)
Theorem load_month_returns fs m y t :
  (forall cc ec rc re v,
      fs (path_str (c_path m y)) = Some cc ->
      fs (path_str (e_path m y)) = Some ec ->
      records_read [] contract_dtypes contract_names cc rc ->
      records_read ["*"] enroll_dtypes enroll_names ec re ->
      py_int m = Some v ->
      load_month fs m y t
      = (Ok (stamp v y (mkDF (contract_names ++ enroll_fields)
                             (flat_map (join_row cpsc_keys enroll_names re)
                                       (drop_dups cpsc_keys [] rc)))),
         t ++ month_trace m y))
  /\ (forall out t',
         load_month fs m y t = (Ok out, t') ->
         fs (path_str (c_path m y)) <> None
         /\ fs (path_str (e_path m y)) <> None
         /\ t' = t ++ month_trace m y).
Proof.
  split.
  - intros cc ec rc re v Hc He Hrc Hre Hv. apply (load_month_run fs m y t cc ec); assumption.
  - intros out t' Hrun.
    destruct (load_month_ok _ _ _ _ _ _ Hrun)
      as (c & e & merged & v & t2 & Hfc & Hfe & Hc & He & _ & Hv & _).
    split; [exact Hfc|]. split; [exact Hfe|].
    destruct (read_csv_ok _ _ _ _ _ _ _ _ _ Hc) as (cc & _ & Ht2 & _).
    destruct (read_csv_ok _ _ _ _ _ _ _ _ _ He) as (ec & _ & Ht' & _).
    subst t2 t'. unfold month_trace. rewrite <- !app_assoc. reflexivity.
Qed.

Lemma load_month_returns_witness :
  exists out,
    load_month month_demo_fs "01" 2015 [] = (Ok out, [] ++ month_trace "01" 2015)
    /\ List.length (rows out) = 3.
Proof.
  eexists. split.
  - eapply (proj1 (load_month_returns month_demo_fs "01" 2015 [])).
    + vm_compute. reflexivity.
    + vm_compute. reflexivity.
    + vm_compute. reflexivity.
    + vm_compute. reflexivity.
    + reflexivity.
  - vm_compute. reflexivity.
Defined.

Lemma names_set_cell_new (c : string) (v : cell) (r : row) :
  has_col c (map fst r) = false -> map fst (set_cell c v r) = map fst r ++ [c].
Proof.
  induction r as [|[n w] r IH]; simpl; [reflexivity|].
  destruct (String.eqb c n); simpl; [discriminate|].
  intros H. rewrite IH by exact H. reflexivity.
Qed.

(** X11.  Every table [load_month] returns has the twelve contract
    columns, the five enrollment columns ssa, fips, state, county and
    enrollment, then month and year, in this order, and every row carries
    exactly these columns. *)
Theorem load_month_columns fs m y t out t'
        (Hrun : load_month fs m y t = (Ok out, t')) :
  columns out = month_columns
  /\ List.length (columns out) = 19
  /\ forall r, In r (rows out) -> map fst r = month_columns.
Proof.
  destruct (load_month_parts _ _ _ _ _ _ Hrun)
    as (c & e & v & t1 & t2 & Hc & He & _ & Hnames & Hcols & Hrows).
  split; [exact Hcols|]. split; [rewrite Hcols; reflexivity|].
  intros r Hr. rewrite Hrows in Hr. apply in_map_iff in Hr as [r0 [<- Hr0]].
  apply join_rows_inv in Hr0 as (l & Hl & _ & Hshape).
  assert (Hln : map fst l = contract_names) by (apply Hnames; eapply drop_dups_In; eauto).
  assert (H0 : map fst r0 = contract_names ++ enroll_fields).
  { destruct Hshape as [[_ ->]|(m0 & _ & _ & ->)]; rewrite map_app, Hln.
    - rewrite names_na_row. reflexivity.
    - rewrite names_project. reflexivity. }
  assert (Hm : map fst (set_cell "month" (Num (float_of_Z v)) r0)
               = (contract_names ++ enroll_fields) ++ ["month"]).
  { rewrite names_set_cell_new; rewrite H0; reflexivity. }
  rewrite names_set_cell_new; rewrite Hm; reflexivity.
Qed.

Lemma load_month_columns_witness :
  exists out t',
    load_month month_demo_fs "01" 2015 [] = (Ok out, t')
    /\ columns out = month_columns
    /\ List.length (columns out) = 19
    /\ forall r, In r (rows out) -> map fst r = month_columns.
Proof.
  destruct (load_month month_demo_fs "01" 2015 []) as [[x|out] t'] eqn:E;
    [vm_compute in E; discriminate|].
  exists out, t'. split; [reflexivity|]. exact (load_month_columns _ _ _ _ _ _ E).
Defined.

(** ** The table the merger returns *)

Lemma clean_mapd_shape (dfb b : DataFrame) :
  clean_mapd dfb = Ok b -> columns b = mapd_cols.
Proof.
  intros H. destruct (clean_mapd_inv _ _ H) as [d [Hd ->]].
  apply getitem_cols_inv in Hd. subst d. reflexivity.
Qed.

(** X12.  Every table [mapd_clean_merge] returns has the columns
    contractid, planid, state, county, premium, the five Part D columns
    and year, in this order, every row carries exactly these columns (any
    other column of the inputs is gone), and every row has the year [y]. *)
Theorem mapd_clean_merge_shape (h : heap) (ma mapd : loc) (y : Z) (dfa dfb : DataFrame)
        (l : loc) (h' : heap)
        (Hma : nth_error h ma = Some dfa) (Hmapd : nth_error h mapd = Some dfb)
        (Hrun : mapd_clean_merge ma mapd y h = (Ok l, h')) :
  exists out,
    nth_error h' l = Some out
    /\ columns out = premium_columns
    /\ (forall r, In r (rows out) -> map fst r = premium_columns)
    /\ (forall r, In r (rows out) -> get "year" r = Num (float_of_Z y)).
Proof.
  destruct (mapd_clean_merge_ok _ _ _ _ _ _ _ _ Hma Hmapd Hrun) as [out [Hout Hl]].
  destruct (plan_premiums_of_inv _ _ _ _ Hout) as (a & b & p & Ha & Hb & Hp & ->).
  eexists. split; [exact Hl|].
  destruct (merge_inv _ _ _ _ _ Hp) as (_ & Hcols & _).
  destruct (clean_ma_shape _ _ Ha) as [Hacols Hanames].
  pose proof (clean_mapd_shape _ _ Hb) as Hbcols.
  split; [|split].
  - unfold setitem_scalar. simpl columns. rewrite Hcols, Hacols, Hbcols. reflexivity.
  - intros r Hr. simpl rows in Hr. apply in_map_iff in Hr as [r0 [<- Hr0]].
    assert (H0 : map fst r0 = ma_cols ++ fill_cols).
    { destruct (merge_outer_row _ _ _ _ _ Hp Hr0)
        as [(l0 & Hl0 & _ & [[_ ->]|(m & _ & _ & ->)])|(m & _ & _ & _ & ->)].
      - rewrite map_app, (Hanames _ Hl0), names_na_row, Hbcols. reflexivity.
      - rewrite map_app, (Hanames _ Hl0), names_project, Hbcols. reflexivity.
      - unfold right_only. rewrite map_app, map_map, names_project, Hacols, Hbcols.
        reflexivity. }
    rewrite names_set_cell_new; rewrite H0; reflexivity.
  - intros r Hr. simpl rows in Hr. apply in_map_iff in Hr as [r0 [<- _]].
    rewrite get_set_cell. reflexivity.
Qed.

Lemma mapd_clean_merge_shape_witness :
  exists l h' out,
    mapd_clean_merge 0 1 2015 [ma_demo; mapd_demo] = (Ok l, h')
    /\ nth_error h' l = Some out
    /\ columns out = premium_columns
    /\ (forall r, In r (rows out) -> map fst r = premium_columns)
    /\ (forall r, In r (rows out) -> get "year" r = Num (float_of_Z 2015)).
Proof.
  destruct (mapd_clean_merge 0 1 2015 [ma_demo; mapd_demo]) as [[e|l] h'] eqn:E;
    [vm_compute in E; discriminate|].
  destruct (mapd_clean_merge_shape [ma_demo; mapd_demo] 0 1 2015 ma_demo mapd_demo l h'
                                   eq_refl eq_refl E) as (out & H).
  exists l, h', out. split; [reflexivity|exact H].
Defined.







(** X14.  The table [mapd_clean_merge] returns is a new object: the
    reference it returns is none of the references that existed before
    the call, so it is neither of the two arguments. *)
Theorem mapd_clean_merge_fresh (h : heap) (ma mapd : loc) (y : Z) (dfa dfb : DataFrame)
        (l : loc) (h' : heap)
        (Hma : nth_error h ma = Some dfa) (Hmapd : nth_error h mapd = Some dfb)
        (Hrun : mapd_clean_merge ma mapd y h = (Ok l, h')) :
  nth_error h l = None /\ l <> ma /\ l <> mapd
  /\ exists out, nth_error h' l = Some out.
Proof.
  assert (Hk : keeps (List.length h) h h) by (split; [lia|auto]).
  destruct (preserves_mapd_clean_merge (List.length h) ma mapd y h h Hk) as [_ Hl].
  rewrite Hrun in Hl. simpl in Hl.
  assert (Hla : ma < List.length h) by (apply nth_error_Some; congruence).
  assert (Hlb : mapd < List.length h) by (apply nth_error_Some; congruence).
  split; [apply nth_error_None; exact Hl|]. split; [lia|]. split; [lia|].
  destruct (mapd_clean_merge_ok _ _ _ _ _ _ _ _ Hma Hmapd Hrun) as [out [_ Hout]]. eauto.
Qed.

Lemma mapd_clean_merge_fresh_witness :
  exists l h',
    mapd_clean_merge 0 1 2015 [ma_demo; mapd_demo] = (Ok l, h')
    /\ nth_error [ma_demo; mapd_demo] l = None /\ l <> 0 /\ l <> 1.
Proof.
  destruct (mapd_clean_merge 0 1 2015 [ma_demo; mapd_demo]) as [[e|l] h'] eqn:E;
    [vm_compute in E; discriminate|].
  destruct (mapd_clean_merge_fresh [ma_demo; mapd_demo] 0 1 2015 ma_demo mapd_demo l h'
                                   eq_refl eq_refl E) as (H1 & H2 & H3 & _).
  exists l, h'. auto.
Defined.

(** ** How many rows the merger returns *)

Lemma length_drop_dups (on : list string) (rs : list row) :
  forall seen, List.length (drop_dups on seen rs) <= List.length rs.
Proof.
  induction rs as [|r rs IH]; simpl; intros seen; [lia|].
  destruct (key_mem (key_of on r) seen); simpl.
  - specialize (IH seen). lia.
  - specialize (IH (key_of on r :: seen)). lia.
Qed.

Lemma length_insert_row (on : list string) (x : row) (l : list row) :
  List.length (insert_row on x l) = S (List.length l).
Proof.
  induction l as [|a l IH]; simpl; [reflexivity|].
  destruct (key_leb (key_of on x) (key_of on a)); simpl; [reflexivity|].
  rewrite IH. reflexivity.
Qed.

Lemma length_sort_rows (on : list string) (l : list row) :
  List.length (sort_rows on l) = List.length l.
Proof.
  induction l as [|x l IH]; simpl; [reflexivity|].
  rewrite length_insert_row, IH. reflexivity.
Qed.

Lemma length_setitem_series (c : string) (vs : list cell) (df : DataFrame) :
  List.length (rows (setitem_series c vs df)) <= List.length (rows df).
Proof.
  unfold setitem_series. simpl. rewrite length_map, length_combine. lia.
Qed.

Lemma length_fold_setitem (g : string -> list cell) (cols : list string) :
  forall df,
    List.length (rows (fold_left (fun d c => setitem_series c (g c) d) cols df))
    <= List.length (rows df).
Proof.
  induction cols as [|c cols IH]; simpl; intros df; [lia|].
  specialize (IH (setitem_series c (g c) df)).
  pose proof (length_setitem_series c (g c) df). lia.
Qed.

Lemma length_clean_ma (dfa a : DataFrame) :
  clean_ma dfa = Ok a -> List.length (rows a) <= List.length (rows dfa).
Proof.
  intros H. destruct (clean_ma_inv _ _ H) as [d [Hd ->]].
  apply getitem_cols_inv in Hd. subst d.
  eapply Nat.le_trans; [apply (length_drop_dups plan_keys _ [])|].
  unfold ma_filled. cbv zeta.
  eapply Nat.le_trans; [apply length_setitem_series|].
  cbn [rows sort_values]. rewrite length_sort_rows, length_map. lia.
Qed.

Lemma length_clean_mapd (dfb b : DataFrame) :
  clean_mapd dfb = Ok b -> List.length (rows b) <= List.length (rows dfb).
Proof.
  intros H. destruct (clean_mapd_inv _ _ H) as [d [Hd ->]].
  apply getitem_cols_inv in Hd. subst d.
  eapply Nat.le_trans; [apply (length_drop_dups plan_keys _ [])|].
  unfold setitem_ffill.
  eapply Nat.le_trans; [apply length_fold_setitem|].
  cbn [rows sort_values]. rewrite length_sort_rows, rows_map_col, length_map.
  cbn [rows]. rewrite length_map. lia.
Qed.

(** X15.  The table [mapd_clean_merge] returns has one row for each row
    of the cleaned MA table and one more for each row of the cleaned
    MA-PD table whose key the MA table does not have; so it never has
    more rows than the two inputs together. *)
Theorem mapd_clean_merge_row_count (h : heap) (ma mapd : loc) (y : Z) (dfa dfb : DataFrame)
        (l : loc) (h' : heap)
        (Hma : nth_error h ma = Some dfa) (Hmapd : nth_error h mapd = Some dfb)
        (Hrun : mapd_clean_merge ma mapd y h = (Ok l, h')) :
  exists a b out,
    clean_ma dfa = Ok a /\ clean_mapd dfb = Ok b /\ nth_error h' l = Some out
    /\ List.length (rows out)
       = List.length (rows a) + List.length (unmatched plan_keys (rows a) (rows b))
    /\ List.length (rows a) <= List.length (rows out)
    /\ List.length (rows out) <= List.length (rows a) + List.length (rows b)
    /\ List.length (rows out) <= List.length (rows dfa) + List.length (rows dfb).
Proof.
  destruct (mapd_clean_merge_ok _ _ _ _ _ _ _ _ Hma Hmapd Hrun) as [out [Hout Hl]].
  destruct (plan_premiums_of_inv _ _ _ _ Hout) as (a & b & p & Ha & Hb & Hp & ->).
  exists a, b. eexists. split; [exact Ha|]. split; [exact Hb|]. split; [exact Hl|].
  destruct (merge_inv _ _ _ _ _ Hp) as (_ & _ & Hrows).
  destruct (clean_mapd_inv _ _ Hb) as [db [_ Eb]].
  assert (Hlen : List.length (rows (setitem_scalar "year" (Num (float_of_Z y)) p))
                 = List.length (rows a)
                   + List.length (unmatched plan_keys (rows a) (rows b))).
  { simpl rows. rewrite length_map, Hrows, length_app, length_map. f_equal.
    rewrite length_flat_map_sum. apply list_sum_all_one.
    intros l0 _. rewrite length_join_row, length_matches.
    assert (count_key plan_keys (key_of plan_keys l0) (rows b) <= 1)
      by (rewrite Eb; apply cleaned_distinct).
    lia. }
  pose proof (filter_length_le
                (fun r => negb (existsb (fun l0 => same_key plan_keys l0 r) (rows a)))
                (rows b)) as Hun.
  fold (unmatched plan_keys (rows a) (rows b)) in Hun.
  pose proof (length_clean_ma _ _ Ha). pose proof (length_clean_mapd _ _ Hb).
  rewrite Hlen. repeat split; lia.
Qed.

Lemma mapd_clean_merge_row_count_witness :
  exists l h' out,
    mapd_clean_merge 0 1 2015 [ma_demo; mapd_demo] = (Ok l, h')
    /\ nth_error h' l = Some out
    /\ List.length (rows out) = 3
    /\ List.length (rows out) <= List.length (rows ma_demo) + List.length (rows mapd_demo).
Proof.
  destruct (mapd_clean_merge 0 1 2015 [ma_demo; mapd_demo]) as [[e|l] h'] eqn:E;
    [vm_compute in E; discriminate|].
  destruct (mapd_clean_merge_row_count [ma_demo; mapd_demo] 0 1 2015 ma_demo mapd_demo l h'
                                       eq_refl eq_refl E)
    as (a & b & out & _ & _ & Hl & _ & _ & _ & H).
  exists l, h', out. repeat split; auto.
  vm_compute in E. inversion E; subst l h'; clear E.
  vm_compute in Hl. inversion Hl. reflexivity.
Defined.

(** ** Rows of the merger with a key in both tables *)

(** X16.  A key that both cleaned tables have gives a row that combines
    them: for a row of the cleaned MA table and a row of the cleaned
    MA-PD table with the same key, the returned table has a row with that
    key, the premium of the first and the five Part D cells of the
    second. *)
Theorem mapd_clean_merge_both (h : heap) (ma mapd : loc) (y : Z) (dfa dfb : DataFrame)
        (l : loc) (h' : heap)
        (Hma : nth_error h ma = Some dfa) (Hmapd : nth_error h mapd = Some dfb)
        (Hrun : mapd_clean_merge ma mapd y h = (Ok l, h')) :
  exists a b out,
    clean_ma dfa = Ok a /\ clean_mapd dfb = Ok b /\ nth_error h' l = Some out
    /\ forall l0 m0,
        In l0 (rows a) -> In m0 (rows b) ->
        key_eqb (key_of plan_keys l0) (key_of plan_keys m0) = true ->
        exists r, In r (rows out)
                  /\ key_of plan_keys r = key_of plan_keys l0
                  /\ get "premium" r = get "premium" l0
                  /\ forall c, In c fill_cols -> get c r = get c m0.
Proof.
  destruct (mapd_clean_merge_ok _ _ _ _ _ _ _ _ Hma Hmapd Hrun) as [out [Hout Hl]].
  destruct (plan_premiums_of_inv _ _ _ _ Hout) as (a & b & p & Ha & Hb & Hp & ->).
  exists a, b. eexists. split; [exact Ha|]. split; [exact Hb|]. split; [exact Hl|].
  destruct (merge_inv _ _ _ _ _ Hp) as (_ & _ & Hrows).
  destruct (clean_ma_shape _ _ Ha) as [_ Hanames].
  pose proof (clean_mapd_shape _ _ Hb) as Hbcols.
  intros l0 m0 Hl0 Hm0 Hk.
  exists (set_cell "year" (Num (float_of_Z y))
                   (l0 ++ project (non_key plan_keys (columns b)) m0)).
  split; [|split; [|split]].
  - simpl rows. apply in_map_iff. eexists. split; [reflexivity|].
    rewrite Hrows. apply in_or_app. left. apply join_rows_intro; assumption.
  - rewrite key_of_set_cell by reflexivity. apply key_of_app_project.
  - rewrite get_set_cell. change (String.eqb "premium" "year") with false. cbv iota.
    rewrite get_app, (Hanames _ Hl0). reflexivity.
  - intros c Hc. rewrite get_set_cell, get_app, (Hanames _ Hl0), get_project, Hbcols.
    simpl in Hc. repeat (destruct Hc as [<-|Hc]; [reflexivity|]). destruct Hc.
Qed.

Lemma mapd_clean_merge_both_witness :
  exists l h' a b out,
    mapd_clean_merge 0 1 2015 [ma_demo; mapd_demo] = (Ok l, h')
    /\ clean_ma ma_demo = Ok a /\ clean_mapd mapd_demo = Ok b
    /\ nth_error h' l = Some out
    /\ forall l0 m0,
        In l0 (rows a) -> In m0 (rows b) ->
        key_eqb (key_of plan_keys l0) (key_of plan_keys m0) = true ->
        exists r, In r (rows out)
                  /\ key_of plan_keys r = key_of plan_keys l0
                  /\ get "premium" r = get "premium" l0
                  /\ forall c, In c fill_cols -> get c r = get c m0.
Proof.
  destruct (mapd_clean_merge 0 1 2015 [ma_demo; mapd_demo]) as [[e|l] h'] eqn:E;
    [vm_compute in E; discriminate|].
  destruct (mapd_clean_merge_both [ma_demo; mapd_demo] 0 1 2015 ma_demo mapd_demo l h'
                                  eq_refl eq_refl E)
    as (a & b & out & Ha & Hb & Hl & H).
  exists l, h', a, b, out. auto.
Defined.

(** ** The plan id of the MA-PD table *)

Lemma cell_eqb_number (a b : cell) :
  cell_eqb a b = true -> is_number_or_na a = is_number_or_na b.
Proof. destruct a, b; simpl; try discriminate; reflexivity. Qed.

Lemma planid_of_key (a b : row) :
  key_eqb (key_of plan_keys a) (key_of plan_keys b) = true ->
  cell_eqb (get "planid" a) (get "planid" b) = true.
Proof.
  unfold key_of, plan_keys. simpl. intros H.
  apply andb_prop in H as [_ H]. apply andb_prop in H as [H _]. exact H.
Qed.

Lemma setitem_series_row (c : string) (vs : list cell) (df : DataFrame) (r : row) :
  In r (rows (setitem_series c vs df)) ->
  exists r0 v, In r0 (rows df) /\ r = set_cell c v r0.
Proof.
  unfold setitem_series. simpl. intros Hr.
  apply in_map_iff in Hr as [[r0 v] [<- Hin]]. apply in_combine_l in Hin. eauto.
Qed.

Lemma fold_setitem_get (g : string -> list cell) (c' : string) (cols : list string) :
  has_col c' cols = false ->
  forall df r,
    In r (rows (fold_left (fun d c => setitem_series c (g c) d) cols df)) ->
    exists r0, In r0 (rows df) /\ get c' r = get c' r0.
Proof.
  induction cols as [|c cols IH]; simpl; intros Hc df r Hr; [eauto|].
  apply orb_false_elim in Hc as [Hc1 Hc2].
  destruct (IH Hc2 _ _ Hr) as [r1 [Hr1 Hg]].
  apply setitem_series_row in Hr1 as (r0 & v & Hr0 & ->).
  exists r0. split; [exact Hr0|]. rewrite Hg, get_set_cell, Hc1. reflexivity.
Qed.

Lemma clean_mapd_planid (dfb b : DataFrame) (r : row) :
  clean_mapd dfb = Ok b -> In r (rows b) ->
  is_number_or_na (get "planid" r) = true.
Proof.
  intros H Hr. destruct (clean_mapd_inv _ _ H) as [d [_ ->]].
  unfold drop_duplicates in Hr. cbn [rows] in Hr. apply drop_dups_In in Hr.
  unfold setitem_ffill in Hr.
  apply (fold_setitem_get _ "planid") in Hr as [r1 [Hr1 ->]]; [|reflexivity].
  cbn [rows sort_values] in Hr1. apply sort_rows_In in Hr1.
  rewrite rows_map_col in Hr1. apply in_map_iff in Hr1 as [r0 [<- _]].
  rewrite get_set_cell, String.eqb_refl. apply to_numeric_is_number.
Qed.

(** X17.  The plan id of the MA-PD table is coerced to a number before
    anything else: in the returned table, every row whose key the cleaned
    MA-PD table has carries a plan id that is a number or missing, never
    a string (a plan id that is no number has become missing). *)
Theorem mapd_clean_merge_planid (h : heap) (ma mapd : loc) (y : Z) (dfa dfb : DataFrame)
        (l : loc) (h' : heap)
        (Hma : nth_error h ma = Some dfa) (Hmapd : nth_error h mapd = Some dfb)
        (Hrun : mapd_clean_merge ma mapd y h = (Ok l, h')) :
  exists b out,
    clean_mapd dfb = Ok b /\ nth_error h' l = Some out
    /\ (forall m0, In m0 (rows b) -> is_number_or_na (get "planid" m0) = true)
    /\ (forall r, In r (rows out) ->
                  has_key plan_keys (key_of plan_keys r) (rows b) = true ->
                  is_number_or_na (get "planid" r) = true).
Proof.
  destruct (mapd_clean_merge_ok _ _ _ _ _ _ _ _ Hma Hmapd Hrun) as [out [Hout Hl]].
  destruct (plan_premiums_of_inv _ _ _ _ Hout) as (a & b & p & Ha & Hb & Hp & ->).
  exists b. eexists. split; [exact Hb|]. split; [exact Hl|].
  split; [intros m0 Hm0; eapply clean_mapd_planid; eauto|].
  intros r Hr Hkey. simpl rows in Hr. apply in_map_iff in Hr as [r0 [<- Hr0]].
  rewrite key_of_set_cell in Hkey by reflexivity.
  rewrite get_set_cell. change (String.eqb "planid" "year") with false. cbv iota.
  destruct (clean_ma_shape _ _ Ha) as [Hacols Hanames].
  destruct (merge_outer_row _ _ _ _ _ Hp Hr0)
    as [(l0 & Hl0 & Hk & [[Hno _]|(m0 & Hm0 & Hkm & ->)])|(m0 & Hm0 & Hk & _ & ->)].
  - rewrite Hk in Hkey. congruence.
  - rewrite get_app, (Hanames _ Hl0). change (has_col "planid" ma_cols) with true. cbv iota.
    rewrite (cell_eqb_number _ _ (planid_of_key _ _ Hkm)).
    eapply clean_mapd_planid; eauto.
  - rewrite get_right_only_left by (rewrite Hacols; reflexivity).
    change (has_col "planid" plan_keys) with true. cbv iota.
    eapply clean_mapd_planid; eauto.
Qed.

Lemma mapd_clean_merge_planid_witness :
  exists l h' b out,
    mapd_clean_merge 0 1 2015 [ma_demo; mapd_demo] = (Ok l, h')
    /\ clean_mapd mapd_demo = Ok b /\ nth_error h' l = Some out
    /\ map (get "planid") (rows b) = [Num (Fin 1); NaN]
    /\ (forall r, In r (rows out) ->
                  has_key plan_keys (key_of plan_keys r) (rows b) = true ->
                  is_number_or_na (get "planid" r) = true).
Proof.
  destruct (mapd_clean_merge 0 1 2015 [ma_demo; mapd_demo]) as [[e|l] h'] eqn:E;
    [vm_compute in E; discriminate|].
  destruct (mapd_clean_merge_planid [ma_demo; mapd_demo] 0 1 2015 ma_demo mapd_demo l h'
                                    eq_refl eq_refl E)
    as (b & out & Hb & Hl & _ & H).
  exists l, h', b, out. repeat split; auto.
  vm_compute in Hb. inversion Hb. reflexivity.
Defined.

(** ** The Part D cells the merger keeps for a group *)

Section FillSeveral.

Variable on : list string.
Variable k : key.

Lemma first_pair_fill (col : string) (rs : list row) :
  forall rs' seen,
    last_valid k seen = NaN ->
    first_pair on k rs (fill_in col rs' (ffill_rows on col seen rs))
    = option_map (fun p => (fst p, set_cell col (kept_value k col (fst p)) (snd p)))
                 (first_pair on k rs rs').
Proof.
  unfold first_pair, fill_in, kept_value.
  induction rs as [|r rs IH]; intros rs' seen Hseen; [reflexivity|].
  destruct rs' as [|r' rs']; [destruct (ffill_rows on col seen (r :: rs)); reflexivity|].
  cbn [ffill_rows].
  destruct (key_eqb k (key_of on r)) eqn:Ek.
  - cbn [combine find fst snd]. rewrite Ek. cbn [option_map fst snd].
    rewrite (key_has_nan_compat _ _ Ek).
    destruct (key_has_nan (key_of on r)) eqn:En; cbn [combine map fst snd find].
    + rewrite Ek. reflexivity.
    + destruct (isna (get col r)) eqn:Ena; cbn [combine map fst snd find]; rewrite Ek.
      * rewrite <- (last_valid_compat _ _ seen Ek), Hseen.
        rewrite (isna_NaN _ Ena). reflexivity.
      * reflexivity.
  - cbn [combine find fst snd]. rewrite Ek.
    destruct (key_has_nan (key_of on r)) eqn:En; cbn [combine map fst snd find].
    + rewrite Ek. apply IH. exact Hseen.
    + destruct (isna (get col r)) eqn:Ena; cbn [combine map fst snd find]; rewrite Ek.
      * apply IH. exact Hseen.
      * apply IH. simpl. rewrite Ek. exact Hseen.
Qed.

Lemma first_pair_fold (s : DataFrame) (cols : list string) :
  forall d,
    first_pair on k (rows s)
               (rows (fold_left (fun d c => setitem_series c (groupby_ffill on c s) d) cols d))
    = option_map (fun p => (fst p,
                            fold_left (fun r c => set_cell c (kept_value k c (fst p)) r)
                                      cols (snd p)))
                 (first_pair on k (rows s) (rows d)).
Proof.
  induction cols as [|c cols IH]; intros d; simpl fold_left.
  - destruct (first_pair on k (rows s) (rows d)) as [[a b]|]; reflexivity.
  - rewrite IH.
    change (rows (setitem_series c (groupby_ffill on c s) d))
      with (fill_in c (rows d) (ffill_rows on c [] (rows s))).
    rewrite first_pair_fill by reflexivity.
    destruct (first_pair on k (rows s) (rows d)) as [[a b]|]; reflexivity.
Qed.

Lemma first_pair_diag (rs : list row) :
  first_pair on k rs rs = option_map (fun r => (r, r)) (first_with on k rs).
Proof.
  unfold first_pair, first_with. induction rs as [|r rs IH]; simpl; [reflexivity|].
  destruct (key_eqb k (key_of on r)); [reflexivity|exact IH].
Qed.

Lemma first_pair_snd (rs rs' : list row) :
  Forall2 (fun r r' => key_of on r = key_of on r') rs rs' ->
  first_with on k rs' = option_map snd (first_pair on k rs rs').
Proof.
  unfold first_pair, first_with. induction 1 as [|r r' rs rs' Hk _ IH]; simpl; [reflexivity|].
  rewrite <- Hk. destruct (key_eqb k (key_of on r)); [reflexivity|exact IH].
Qed.

Lemma length_ffill_rows (col : string) (rs : list row) :
  forall seen, List.length (ffill_rows on col seen rs) = List.length rs.
Proof.
  induction rs as [|r rs IH]; intros seen; simpl; [reflexivity|].
  destruct (key_has_nan (key_of on r)); simpl; [rewrite IH; reflexivity|].
  destruct (isna (get col r)); simpl; rewrite IH; reflexivity.
Qed.

Lemma fill_in_keys (col : string) (rs rs' : list row) (vs : list cell) :
  has_col col on = false ->
  List.length vs = List.length rs ->
  Forall2 (fun r r' => key_of on r = key_of on r') rs rs' ->
  Forall2 (fun r r' => key_of on r = key_of on r') rs (fill_in col rs' vs).
Proof.
  intros Hcol Hlen H. revert vs Hlen.
  induction H as [|r r' rs rs' Hk _ IH]; intros vs Hlen.
  - destruct vs; constructor.
  - destruct vs as [|v vs]; [discriminate|]. unfold fill_in. simpl.
    constructor.
    + rewrite key_of_set_cell by exact Hcol. exact Hk.
    + apply IH. simpl in Hlen. congruence.
Qed.

Lemma fold_fill_keys (s : DataFrame) (cols : list string) :
  (forall c, In c cols -> has_col c on = false) ->
  forall d,
    Forall2 (fun r r' => key_of on r = key_of on r') (rows s) (rows d) ->
    Forall2 (fun r r' => key_of on r = key_of on r') (rows s)
            (rows (fold_left (fun d c => setitem_series c (groupby_ffill on c s) d) cols d)).
Proof.
  induction cols as [|c cols IH]; intros Hcols d Hd; simpl fold_left; [exact Hd|].
  apply IH; [intros; apply Hcols; right; assumption|].
  change (rows (setitem_series c (groupby_ffill on c s) d))
    with (fill_in c (rows d) (ffill_rows on c [] (rows s))).
  apply fill_in_keys; [apply Hcols; left; reflexivity | apply length_ffill_rows | exact Hd].
Qed.

Lemma Forall2_keys_refl (rs : list row) :
  Forall2 (fun r r' => key_of on r = key_of on r') rs rs.
Proof. induction rs; constructor; auto. Qed.

Lemma get_fold_set_cell (f : string -> cell) (c : string) (cols : list string) :
  forall r0,
    get c (fold_left (fun r c' => set_cell c' (f c') r) cols r0)
    = if has_col c cols then f c else get c r0.
Proof.
  induction cols as [|c0 cols IH]; intros r0; simpl; [reflexivity|].
  rewrite IH, get_set_cell.
  destruct (has_col c cols) eqn:E.
  - rewrite orb_true_r. reflexivity.
  - rewrite orb_false_r. destruct (String.eqb c c0) eqn:E0; [|reflexivity].
    apply String.eqb_eq in E0. subst. reflexivity.
Qed.

(** The first row of a group after the fill of several columns. *)
Lemma first_with_setitem_ffill (s : DataFrame) (cols : list string) :
  (forall c, In c cols -> has_col c on = false) ->
  first_with on k (rows (setitem_ffill on cols s))
  = option_map (fun r1 => fold_left (fun r c => set_cell c (kept_value k c r1) r) cols r1)
               (first_with on k (rows s)).
Proof.
  intros Hcols. unfold setitem_ffill.
  rewrite (first_pair_snd (rows s))
    by (apply fold_fill_keys; [exact Hcols | apply Forall2_keys_refl]).
  rewrite first_pair_fold, first_pair_diag.
  destruct (first_with on k (rows s)); reflexivity.
Qed.

Lemma first_with_compat (a : key) (rs : list row) :
  key_eqb a k = true -> first_with on a rs = first_with on k rs.
Proof.
  intros H. unfold first_with. induction rs as [|r rs IH]; simpl; [reflexivity|].
  rewrite (key_eqb_compat_l _ _ _ H), IH. reflexivity.
Qed.

End FillSeveral.

Lemma first_with_clean_mapd (d : DataFrame) (k : key) :
  first_with plan_keys k
             (rows (drop_duplicates plan_keys
                      (setitem_ffill plan_keys fill_cols
                         (sort_values plan_keys (mapd_coerced d)))))
  = option_map (fun r1 => fold_left (fun r c => set_cell c (kept_value k c r1) r)
                                    fill_cols r1)
               (first_with plan_keys k (rows (sort_values plan_keys (mapd_coerced d)))).
Proof.
  change (rows (drop_duplicates plan_keys ?X)) with (drop_dups plan_keys [] (rows X)).
  rewrite drop_dups_first by reflexivity.
  apply first_with_setitem_ffill.
  intros c Hc. simpl in Hc. repeat (destruct Hc as [<-|Hc]; [reflexivity|]). destruct Hc.
Qed.

Lemma cleaned_row_cells (d : DataFrame) (k : key) (m0 : row) (c : string) :
  first_with plan_keys k
             (rows (drop_duplicates plan_keys
                      (setitem_ffill plan_keys fill_cols
                         (sort_values plan_keys (mapd_coerced d))))) = Some m0 ->
  In c fill_cols ->
  get c m0 = cell_kept c k (rows (sort_values plan_keys (mapd_coerced d))).
Proof.
  intros H Hc. rewrite first_with_clean_mapd in H. unfold cell_kept.
  destruct (first_with plan_keys k (rows (sort_values plan_keys (mapd_coerced d))))
    as [r1|]; cbn [option_map] in H; [|discriminate].
  assert (Hm : m0 = fold_left (fun r c' => set_cell c' (kept_value k c' r1) r) fill_cols r1)
    by congruence.
  rewrite Hm, (get_fold_set_cell (fun c' => kept_value k c' r1)).
  replace (has_col c fill_cols) with true by (symmetry; apply has_col_In; exact Hc).
  reflexivity.
Qed.

(** X18.  The Part D cells follow the same rule as the premium: for every
    row of the returned table and each of the five Part D columns, the
    cell is the one of the first row in sort order of the row's group in
    the MA-PD table (projected, plan id coerced); no value of a later row
    of the group is used.  The cell is missing when the key has a missing
    component or the MA-PD table has no row of the group.  The first row
    in sort order is the first row of the group in the input. *)
Theorem mapd_clean_merge_partd (h : heap) (ma mapd : loc) (y : Z) (dfa dfb : DataFrame)
        (l : loc) (h' : heap)
        (Hma : nth_error h ma = Some dfa) (Hmapd : nth_error h mapd = Some dfb)
        (Hrun : mapd_clean_merge ma mapd y h = (Ok l, h')) :
  exists d out,
    getitem_cols mapd_cols dfb = Ok d /\ nth_error h' l = Some out
    /\ (forall r c, In r (rows out) -> In c fill_cols ->
                    get c r
                    = cell_kept c (key_of plan_keys r)
                                (rows (sort_values plan_keys (mapd_coerced d))))
    /\ (forall k, first_with plan_keys k (rows (sort_values plan_keys (mapd_coerced d)))
                  = first_with plan_keys k (rows (mapd_coerced d))).
Proof.
  destruct (mapd_clean_merge_ok _ _ _ _ _ _ _ _ Hma Hmapd Hrun) as [out [Hout Hl]].
  destruct (plan_premiums_of_inv _ _ _ _ Hout) as (a & b & p & Ha & Hb & Hp & ->).
  destruct (clean_ma_shape _ _ Ha) as [Hacols Hanames].
  pose proof (clean_mapd_shape _ _ Hb) as Hbcols.
  destruct (clean_mapd_inv _ _ Hb) as [d [Hd Eb]].
  fold (mapd_coerced d) in Eb.
  exists d. eexists. split; [exact Hd|]. split; [exact Hl|].
  split; [|intros k; apply first_with_sort].
  intros r c Hr Hc. simpl rows in Hr. apply in_map_iff in Hr as [r0 [<- Hr0]].
  rewrite key_of_set_cell by reflexivity.
  rewrite get_set_cell.
  replace (String.eqb c "year") with false
    by (simpl in Hc; repeat (destruct Hc as [<-|Hc]; [reflexivity|]); destruct Hc).
  assert (Hnot_ma : has_col c ma_cols = false)
    by (simpl in Hc; repeat (destruct Hc as [<-|Hc]; [reflexivity|]); destruct Hc).
  assert (Hnonkey : has_col c (non_key plan_keys mapd_cols) = true)
    by (simpl in Hc; repeat (destruct Hc as [<-|Hc]; [reflexivity|]); destruct Hc).
  assert (Hfirst_b : forall m0, In m0 (rows b) ->
                                first_with plan_keys (key_of plan_keys m0) (rows b) = Some m0).
  { intros m0 Hm0. rewrite Eb in Hm0 |- *.
    change (rows (drop_duplicates plan_keys ?X)) with (drop_dups plan_keys [] (rows X))
      in Hm0 |- *.
    eapply distinct_first; [apply drop_dups_distinct|exact Hm0]. }
  destruct (merge_outer_row _ _ _ _ _ Hp Hr0)
    as [(l0 & Hl0 & Hk & [[Hno ->]|(m0 & Hm0 & Hkm & ->)])|(m0 & Hm0 & Hk & _ & ->)].
  - (* a key of the MA table only *)
    rewrite Hk.
    rewrite get_app, (Hanames _ Hl0), Hnot_ma, get_na_row.
    unfold cell_kept.
    apply first_with_none in Hno. rewrite Eb, first_with_clean_mapd in Hno.
    destruct (first_with plan_keys (key_of plan_keys l0)
                         (rows (sort_values plan_keys (mapd_coerced d))));
      [discriminate|reflexivity].
  - (* a key of both tables *)
    rewrite Hk.
    rewrite get_app, (Hanames _ Hl0), Hnot_ma, get_project, Hbcols, Hnonkey.
    apply cleaned_row_cells; [|exact Hc].
    rewrite <- Eb.
    rewrite (first_with_compat plan_keys (key_of plan_keys m0) (key_of plan_keys l0)
                               (rows b) Hkm).
    apply Hfirst_b. exact Hm0.
  - (* a key of the MA-PD table only *)
    rewrite Hk.
    unfold right_only. rewrite get_app, map_map. cbn [fst].
    rewrite map_id, Hacols, Hnot_ma.
    rewrite get_project, Hbcols, Hnonkey.
    apply cleaned_row_cells; [|exact Hc].
    rewrite <- Eb. apply Hfirst_b. exact Hm0.
Qed.

Lemma mapd_clean_merge_partd_witness :
  exists l h' d out,
    mapd_clean_merge 0 1 2015 [ma_demo; mapd_demo] = (Ok l, h')
    /\ getitem_cols mapd_cols mapd_demo = Ok d /\ nth_error h' l = Some out
    /\ map (fun r => [get "contractid" r; get "premium_partc" r;
                      get "premium_partd_basic" r; get "partd_deductible" r])
           (rows out)
       = [[Str "H0"; NaN; NaN; NaN];
          [Str "H1"; Num (Fin 7); NaN; Num (Fin 320)];
          [Str "H7"; NaN; NaN; NaN]]
    /\ (forall r c, In r (rows out) -> In c fill_cols ->
                    get c r
                    = cell_kept c (key_of plan_keys r)
                                (rows (sort_values plan_keys (mapd_coerced d)))).
Proof.
  destruct (mapd_clean_merge 0 1 2015 [ma_demo; mapd_demo]) as [[e|l] h'] eqn:E;
    [vm_compute in E; discriminate|].
  destruct (mapd_clean_merge_partd [ma_demo; mapd_demo] 0 1 2015 ma_demo mapd_demo l h'
                                   eq_refl eq_refl E)
    as (d & out & Hd & Hl & H & _).
  exists l, h', d, out. repeat split; auto.
  vm_compute in E. inversion E; subst l h'; clear E.
  vm_compute in Hl. inversion Hl. reflexivity.
Defined.
